(** * photo.py: the photo record builder of lycheeupload

    A shallow embedding of [src/photo.py] and the properties of it that
    the specification states.  The file is Python 2 (it feeds a [str] to
    [hashlib.md5] and divides integers with [/]) and uses PIL.

    - [Py]: the pieces of Python's runtime the program calls (string methods,
      [os.path], the printing of floats, binary64 arithmetic).
    - [PIL]: the image library, with pixel data kept symbolic.
    - [ExifData], [LycheePhoto]: the two classes of the file; the methods are
      programs of a state-and-exception monad over the local disk. *)

From Stdlib Require Import ZArith QArith Qround Qabs Qpower SpecFloat Lqa.
From Stdlib Require Import Ascii String List Lia.
From stdpp Require Import base tactics option list strings gmap stringmap pretty.

Local Open Scope Z_scope.

(** ** Python's runtime *)

Module Py.

(** [s.replace(old, new)] for a one-character [old], as both calls of the
    program have it: every occurrence of [old] becomes [new]. *)
Fixpoint replace1 (old : ascii) (new : string) (s : string) : string :=
  match s with
  | EmptyString => EmptyString
  | String c s' =>
      if Ascii.eqb c old then new +:+ replace1 old new s'
      else String c (replace1 old new s')
  end.

(** [s.ljust(width, fill)]: pads on the right, never cuts. *)
Definition ljust (width : nat) (fill : ascii) (s : string) : string :=
  s +:+ string_of_list_ascii (repeat fill (width - String.length s)).

(** Every character of [s] satisfies [p]. *)
Fixpoint all_chars (p : ascii -> bool) (s : string) : bool :=
  match s with
  | EmptyString => true
  | String c s' => p c && all_chars p s'
  end.

Definition is_digit (c : ascii) : bool :=
  let n := nat_of_ascii c in (48 <=? n)%nat && (n <=? 57)%nat.

(** *** Printing numbers *)

(** The character of the decimal digit [d mod 10]. *)
Definition digit_char (d : Z) : ascii := ascii_of_nat (48 + Z.to_nat (d mod 10)).

(** [digits k n]: the last [k] decimal digits of [n], most significant first
    (zeros on the left when [n] has fewer). *)
Fixpoint digits (k : nat) (n : Z) : string :=
  match k with
  | O => ""
  | S k' => digits k' (n / 10) +:+ String (digit_char n) ""
  end.

Fixpoint ilog10_fuel (fuel : nat) (n : Z) : Z :=
  match fuel with
  | O => 0
  | S fuel' => if n <? 10 then 0 else 1 + ilog10_fuel fuel' (n / 10)
  end.

(** [ilog10 n], for [1 <= n]: the [k] with [10^k <= n < 10^(k+1)]. *)
Definition ilog10 (n : Z) : Z := ilog10_fuel (Z.to_nat (Z.log2 n)) n.

Definition pow10 (k : Z) : Q := (10 # 1) ^ k.

(** Round to the nearest integer, ties to the even one. *)
Definition rne (x : Q) : Z :=
  let f := Qfloor x in
  match (x - inject_Z f ?= 1 # 2)%Q with
  | Lt => f
  | Gt => f + 1
  | Eq => if Z.even f then f else f + 1
  end.

(** For [0 < x]: the [k] with [10^k <= x < 10^(k+1)]. *)
Definition decimal_exponent (x : Q) : Z :=
  if Qle_bool 1 x then ilog10 (Qfloor x)
  else
    let j := ilog10 (Qfloor (/ x)) in
    if Qeq_bool (x * pow10 j) 1 then - j else - (j + 1).

(** [x], for [0 < x], correctly rounded to 12 significant decimal digits:
    [(n, k)] stands for [n * 10^(k-11)] with [10^11 <= n < 10^12]. *)
Definition sig12 (x : Q) : Z * Z :=
  let k := decimal_exponent x in
  let n := rne (x * pow10 (11 - k)) in
  if n =? 10 ^ 12 then (10 ^ 11, k + 1) else (n, k).

(** Drop the zeros a string ends with. *)
Fixpoint rstrip0 (s : string) : string :=
  match s with
  | EmptyString => EmptyString
  | String c s' =>
      match rstrip0 s' with
      | EmptyString => if Ascii.eqb c "0" then EmptyString else String c EmptyString
      | r => String c r
      end
  end.

(** [str(x)] for a float [x] in Python 2: the format [%.12g] (12 significant
    digits, correctly rounded; zeros at the end of the fraction dropped;
    exponent notation when the decimal exponent is below -4 or at least 12),
    and [.0] added when the result would read as an integer.  The float is
    given by the rational it denotes. *)
Definition str_float (x : Q) : string :=
  if Qeq_bool x 0 then "0.0"
  else
    let sign := if Qle_bool 0 x then "" else "-" in
    let '(n, k) := sig12 (Qabs x) in
    sign +:+
    (if (k <? -4) || (12 <=? k) then
       let frac := rstrip0 (digits 11 n) in
       digits 1 (n / 10 ^ 11)
       +:+ (match frac with EmptyString => "" | _ => "." +:+ frac end)
       +:+ "e" +:+ (if k <? 0 then "-" else "+")
       +:+ (if Z.abs k <? 10 then "0" else "") +:+ pretty (Z.abs k)
     else if 0 <=? k then
       let frac := rstrip0 (digits (Z.to_nat (11 - k)) n) in
       digits (Z.to_nat (k + 1)) (n / 10 ^ (11 - k))
       +:+ "." +:+ (match frac with EmptyString => "0" | _ => frac end)
     else
       "0." +:+ rstrip0 (digits (Z.to_nat (11 - k)) n)).

(** *** Floats *)

(** A Python float is modelled by the rational it denotes, and an operation
    on floats by the exact operation followed by [float], the rounding to the
    nearest binary64 value (53 significant bits, ties to even).  Overflow
    and the subnormal range are left out: the program divides and multiplies
    image dimensions. *)

(** For [0 < x]: the [k] with [2^k <= x < 2^(k+1)]. *)
Definition ilog2 (x : Q) : Z :=
  let k := Z.log2 (Qnum x) - Z.log2 (Z.pos (Qden x)) in
  if Qle_bool ((2 # 1) ^ k) x then k else k - 1.

Definition float (x : Q) : Q :=
  if Qeq_bool x 0 then 0%Q
  else
    let e := ilog2 (Qabs x) - 52 in
    (inject_Z (rne (x / (2 # 1) ^ e)) * (2 # 1) ^ e)%Q.

(** [float(n)] for an integer [n]. *)
Definition float_of_int (n : Z) : Q := float (inject_Z n).

(** [x / y] and [x * y] on floats. *)
Definition fdiv (x y : Q) : Q := float (x / y).
Definition fmul (x y : Q) : Q := float (x * y).

(** [int(x)] for a float [x]: the fraction is cut off. *)
Definition int (x : Q) : Z := Z.quot (Qnum x) (Z.pos (Qden x)).

(** *** Strings and paths *)

(** [needle in hay]. *)
Fixpoint contains (needle hay : string) : bool :=
  String.prefix needle hay ||
  match hay with
  | EmptyString => false
  | String _ hay' => contains needle hay'
  end.

Definition lower_char (c : ascii) : ascii :=
  let n := nat_of_ascii c in
  if (65 <=? n)%nat && (n <=? 90)%nat then ascii_of_nat (n + 32) else c.

(** [s.lower()]. *)
Fixpoint lower (s : string) : string :=
  match s with
  | EmptyString => EmptyString
  | String c s' => String (lower_char c) (lower s')
  end.

Fixpoint basename_go (cur p : string) : string :=
  match p with
  | EmptyString => String.rev cur
  | String c p' =>
      if Ascii.eqb c "/" then basename_go "" p' else basename_go (String c cur) p'
  end.

(** [os.path.basename(p)]: what follows the last slash. *)
Definition basename (p : string) : string := basename_go "" p.

(** The extension of a file name [s], given whether a character other than
    a dot stands before [s]: from the last dot on, when such a character
    stands before that dot. *)
Fixpoint ext_go (seen : bool) (s : string) : option string :=
  match s with
  | EmptyString => None
  | String c s' =>
      match ext_go (seen || negb (Ascii.eqb c ".")) s' with
      | Some e => Some e
      | None => if Ascii.eqb c "." && seen then Some s else None
      end
  end.

(** [os.path.splitext(p)[1]]. *)
Definition splitext_ext (p : string) : string :=
  match ext_go false (basename p) with Some e => e | None => "" end.

Definition starts_with_slash (s : string) : bool :=
  match s with String c _ => Ascii.eqb c "/" | EmptyString => false end.

Definition ends_with_slash (s : string) : bool := starts_with_slash (String.rev s).

(** [os.path.join(a, *ps)]. *)
Definition join (a : string) (ps : list string) : string :=
  fold_left
    (fun path b =>
       if starts_with_slash b then b
       else if String.eqb path "" || ends_with_slash path then path +:+ b
       else path +:+ "/" +:+ b)
    ps a.

(** The line feed. *)
Definition nl : string := String (ascii_of_nat 10) "".

End Py.


(** ** The image library *)

Module PIL.

(** Pixel data is kept symbolic: which picture it comes from and what was
    done to it. *)
Inductive pixels :=
| Scene (n : nat)
| Crop (box : Z * Z * Z * Z) (p : pixels)
| Resample (size : Z * Z) (p : pixels)
| Rotate (angle : Z) (p : pixels)
| Encode (quality : Z) (p : pixels).

(** The value of an EXIF tag. *)
Inductive value :=
| VInt (n : Z)
| VStr (s : string)
| VRational (num den : Z).

(** An image in memory.  [_getexif] is [None] for an image class without
    that method, and otherwise what the method returns: the tag dictionary,
    in the order [items()] lists it, or [None]. *)
Record image := {
  size : Z * Z;
  _getexif : option (option (list (Z * value)));
  px : pixels
}.

(** The content of a file: bytes that are no image, or an image in some
    format, given by what [Image.open] reads from it. *)
Inductive file :=
| Raw (data : list Z)
| Encoded (format : string) (img : image).

(** [TAGS.get(tag, tag)], for the eight names the program tests for; any
    other tag decodes to a name (or a number) that is none of them. *)
Definition TAGS_get (tag : Z) : option string :=
  if tag =? 274 then Some "Orientation"
  else if tag =? 271 then Some "Make"
  else if tag =? 272 then Some "Model"
  else if tag =? 306 then Some "DateTime"
  else if tag =? 33434 then Some "ExposureTime"
  else if tag =? 34855 then Some "ISOSpeedRatings"
  else if tag =? 37381 then Some "MaxApertureValue"
  else if tag =? 37386 then Some "FocalLength"
  else None.

(** [img.crop((left, upper, right, lower))]. *)
Definition crop (box : Z * Z * Z * Z) (img : image) : image :=
  let '(x0, y0, x1, y1) := box in
  {| size := (x1 - x0, y1 - y0); _getexif := None; px := Crop box (px img) |}.

(** [img.resize(size, filter)]. *)
Definition resize (sz : Z * Z) (img : image) : image :=
  {| size := sz; _getexif := None; px := Resample sz (px img) |}.

(** [img.thumbnail(box, filter)]: the image after the call, which shrinks it
    in place to fit [box], keeping its aspect, and never enlarges it. *)
Definition thumbnail (box : Z * Z) (img : image) : image :=
  let '(x, y) := size img in
  let '(x, y) := if x >? fst box then (fst box, Z.max (y * fst box / x) 1) else (x, y) in
  let '(x, y) := if y >? snd box then (Z.max (x * snd box / y) 1, snd box) else (x, y) in
  if decide ((x, y) = size img) then img
  else {| size := (x, y); _getexif := _getexif img; px := Resample (x, y) (px img) |}.

(** [img.rotate(angle)]: a new image of the same size. *)
Definition rotate (angle : Z) (img : image) : image :=
  {| size := size img; _getexif := None; px := Rotate angle (px img) |}.

(** What [img.save(path, format, quality=q)] writes: the EXIF data is not
    carried over. *)
Definition encode (format : string) (quality : Z) (img : image) : file :=
  Encoded format
    {| size := size img;
       _getexif := if String.eqb format "JPEG" then Some None else None;
       px := Encode quality (px img) |}.

(** [str(v)] for the value of a tag: an integer in decimal, a string as it
    is, a rational as the pair it is. *)
Definition str (v : value) : string :=
  match v with
  | VInt n => pretty n
  | VStr s => s
  | VRational num den => "(" +:+ pretty num +:+ ", " +:+ pretty den +:+ ")"
  end.

End PIL.

(** ** What the program runs in *)

(** The fields of a date. *)
Record timestamp := {
  year : Z; month : Z; day : Z; hour : Z; minute : Z; second : Z
}.

(** A [datetime] object: the clock at some reading, or parsed fields. *)
Inductive datetime :=
| At (t : Q)
| Fields (f : timestamp).

(** The libraries and the machine, as far as the program consults them. *)
Class Runtime := {
  (** the [n]-th reading of the system clock, in seconds since the epoch *)
  clock : nat -> Q;
  (** [hashlib.md5(s).hexdigest()] *)
  md5_hex : string -> string;
  (** [hashlib.sha1(bytes of the file).hexdigest()] *)
  sha1_hex : PIL.file -> string;
  (** the size of a file in bytes *)
  st_size : PIL.file -> Z;
  (** [mimetypes.guess_type(name, False)[0]] *)
  guess_type : string -> option string;
  (** [datetime.strptime(s, '%Y:%m:%d %H:%M:%S')], [None] for a [ValueError] *)
  strptime : string -> option timestamp;
  (** PIL's registry of file extensions, [None] for a [KeyError] *)
  EXTENSION : string -> option string;
  (** the name [tempfile] picks for a new file on a disk, and that it is new *)
  mkstemp : gmap string PIL.file -> string;
  mkstemp_fresh : forall files, files !! mkstemp files = None
}.

(** [conf], the configuration module. *)
Record Conf := {
  path : string;
  quality : Z;
  medium_size : Z;
  big_size : option Z;
  verbose : Z
}.

Inductive exn := IOError | OSError | AttributeError | ValueError | TypeError | KeyError.

Inductive result (A : Type) :=
| Ok (a : A)
| Raise (e : exn).
Arguments Ok {A} a.
Arguments Raise {A} e.

(** What a run does to the outside, in the order it does it. *)
Inductive event :=
| Clock (t : Q)
| Getsize (p : string)
| Open (p : string)
| Mkstemp (p : string)
| Save (p : string)
| Read (p : string)
| Remove (p : string)
| Log (level msg : string).

Record world := {
  fs : gmap string PIL.file;
  ticks : nat;
  trace : list event
}.

(** A computation that may change the world and may raise. *)
Definition M (A : Type) : Type := world -> result A * world.

Definition ret {A} (a : A) : M A := fun w => (Ok a, w).

Definition bind {A B} (m : M A) (k : A -> M B) : M B :=
  fun w => match m w with
           | (Ok a, w') => k a w'
           | (Raise e, w') => (Raise e, w')
           end.

Definition raise {A} (e : exn) : M A := fun w => (Raise e, w).

(** [try: body  except <those in catches>: handler]. *)
Definition try_except {A} (body : M A) (catches : exn -> bool) (handler : M A) : M A :=
  fun w => match body w with
           | (Raise e, w') => if catches e then handler w' else (Raise e, w')
           | r => r
           end.

Notation "'let*' x ':=' m 'in' k" := (bind m (fun x => k))
  (at level 10, x pattern, m at level 100, k at level 200).

Definition emit (e : event) : M unit :=
  fun w => (Ok tt, {| fs := fs w; ticks := ticks w; trace := trace w ++ [e] |}).

Definition write (p : string) (f : PIL.file) : M unit :=
  fun w => (Ok tt, {| fs := <[p := f]> (fs w); ticks := ticks w; trace := trace w |}).

(** Reading an attribute that may not have been set. *)
Definition attr {A} (o : option A) : M A :=
  match o with Some a => ret a | None => raise AttributeError end.

(** ** The two classes of photo.py *)

Module ExifData.

Record t := {
  iso : PIL.value;
  aperture : PIL.value;
  make : PIL.value;
  model : PIL.value;
  shutter : PIL.value;
  focal : PIL.value;
  _takedate : string;
  taketime : string;
  orientation : PIL.value
}.

(** The class attributes: what a new object reads until a field is set. *)
Definition new : t :=
  {| iso := PIL.VStr ""; aperture := PIL.VStr ""; make := PIL.VStr "";
     model := PIL.VStr ""; shutter := PIL.VStr ""; focal := PIL.VStr "";
     _takedate := ""; taketime := ""; orientation := PIL.VInt 0 |}.

(** The property [takedate]: its getter and its setter. *)
Definition takedate (self : t) : string := Py.replace1 ":" "-" (_takedate self).


(** Assignments to the plain fields. *)
Definition set_iso (v : PIL.value) (e : t) : t :=
  {| iso := v; aperture := aperture e; make := make e; model := model e;
     shutter := shutter e; focal := focal e; _takedate := _takedate e;
     taketime := taketime e; orientation := orientation e |}.
Definition set_aperture (v : PIL.value) (e : t) : t :=
  {| iso := iso e; aperture := v; make := make e; model := model e;
     shutter := shutter e; focal := focal e; _takedate := _takedate e;
     taketime := taketime e; orientation := orientation e |}.
Definition set_make (v : PIL.value) (e : t) : t :=
  {| iso := iso e; aperture := aperture e; make := v; model := model e;
     shutter := shutter e; focal := focal e; _takedate := _takedate e;
     taketime := taketime e; orientation := orientation e |}.
Definition set_model (v : PIL.value) (e : t) : t :=
  {| iso := iso e; aperture := aperture e; make := make e; model := v;
     shutter := shutter e; focal := focal e; _takedate := _takedate e;
     taketime := taketime e; orientation := orientation e |}.
Definition set_shutter (v : PIL.value) (e : t) : t :=
  {| iso := iso e; aperture := aperture e; make := make e; model := model e;
     shutter := v; focal := focal e; _takedate := _takedate e;
     taketime := taketime e; orientation := orientation e |}.
Definition set_focal (v : PIL.value) (e : t) : t :=
  {| iso := iso e; aperture := aperture e; make := make e; model := model e;
     shutter := shutter e; focal := v; _takedate := _takedate e;
     taketime := taketime e; orientation := orientation e |}.
Definition set_orientation (v : PIL.value) (e : t) : t :=
  {| iso := iso e; aperture := aperture e; make := make e; model := model e;
     shutter := shutter e; focal := focal e; _takedate := _takedate e;
     taketime := taketime e; orientation := v |}.

(** [__str__(self)]: ten lines, one for each attribute and one for the
    property. *)
Definition __str__ (self : t) : string :=
  let res := "" in
  let res := res +:+ "iso: " +:+ PIL.str (iso self) +:+ Py.nl in
  let res := res +:+ "aperture: " +:+ PIL.str (aperture self) +:+ Py.nl in
  let res := res +:+ "make: " +:+ PIL.str (make self) +:+ Py.nl in
  let res := res +:+ "model: " +:+ PIL.str (model self) +:+ Py.nl in
  let res := res +:+ "shutter: " +:+ PIL.str (shutter self) +:+ Py.nl in
  let res := res +:+ "focal: " +:+ PIL.str (focal self) +:+ Py.nl in
  let res := res +:+ "_takedate: " +:+ _takedate self +:+ Py.nl in
  let res := res +:+ "takedate: " +:+ takedate self +:+ Py.nl in
  let res := res +:+ "taketime: " +:+ taketime self +:+ Py.nl in
  let res := res +:+ "orientation: " +:+ PIL.str (orientation self) +:+ Py.nl in
  res.

End ExifData.

(** ** System calls *)

Section Calls.
Context {R : Runtime}.

(** [time.time()]. *)
Definition time_time : M Q :=
  fun w =>
    let t := clock (ticks w) in
    (Ok t, {| fs := fs w; ticks := S (ticks w); trace := trace w ++ [Clock t] |}).

(** [datetime.datetime.now()]. *)
Definition datetime_now : M datetime :=
  let* t := time_time in
  ret (At t).

Definition stat (p : string) : M (option PIL.file) := fun w => (Ok (fs w !! p), w).

(** [os.path.getsize(p)]. *)
Definition os_path_getsize (p : string) : M Z :=
  let* _ := emit (Getsize p) in
  let* f := stat p in
  match f with Some f => ret (st_size f) | None => raise OSError end.

(** [Image.open(p)]. *)
Definition Image_open (p : string) : M PIL.image :=
  let* _ := emit (Open p) in
  let* f := stat p in
  match f with Some (PIL.Encoded _ img) => ret img | _ => raise IOError end.

(** [img.save(p, format, quality=q)]; without a format, the extension of
    [p] decides. *)
Definition Image_save (img : PIL.image) (p : string) (format : option string) (q : Z)
  : M unit :=
  let* fmt := match format with
              | Some f => ret f
              | None =>
                  match EXTENSION (Py.lower (Py.splitext_ext p)) with
                  | Some f => ret f
                  | None => raise KeyError
                  end
              end in
  let* _ := emit (Save p) in
  write p (PIL.encode fmt q img).

(** [tempfile.NamedTemporaryFile(delete=False)]: a new, empty file under a
    name no file has; the name is returned. *)
Definition NamedTemporaryFile : M string :=
  let* name := (fun w => (Ok (mkstemp (fs w)), w)) in
  let* _ := emit (Mkstemp name) in
  let* _ := write name (PIL.Raw []) in
  ret name.

(** [os.remove(p)]. *)
Definition os_remove (p : string) : M unit :=
  let* _ := emit (Remove p) in
  let* f := stat p in
  match f with
  | Some _ =>
      fun w => (Ok tt, {| fs := delete p (fs w); ticks := ticks w; trace := trace w |})
  | None => raise OSError
  end.

(** [open(p, 'rb').read()], hashed. *)
Definition read_sha1 (p : string) : M string :=
  let* _ := emit (Read p) in
  let* f := stat p in
  match f with Some f => ret (sha1_hex f) | None => raise IOError end.

(** [logger.error(msg)], [logger.debug(msg)]. *)
Definition logger (level msg : string) : M unit := emit (Log level msg).

End Calls.

Module LycheePhoto.

(** [description] holds the empty string or a [datetime]. *)
Inductive descr :=
| Text (s : string)
| Stamp (d : datetime).

(** The attributes of a photo.  Those of type [option] are the ones an
    object may lack: reading one that was never set raises. *)
Record t := {
  originalname : string;
  albumid : Z;
  description : descr;
  star : Z;
  id : string;
  url : string;
  thumb2xUrl : string;
  srcfullpath : string;
  destfullpath : string;
  type_ : option string;
  size_ : string;
  datetime_ : datetime;
  exif : ExifData.t;
  width : option Z;
  height : option Z;
  thumbnailfullpath : option string;
  thumbnailx2fullpath : option string;
  medium_path : option string;
  big_path : option string;
  checksum : option string
}.

Definition SMALL_THUMB_SIZE : Z * Z := (200, 200).
Definition BIG_THUMB_SIZE : Z * Z := (400, 400).

(** Assignments to single attributes. *)
Definition set_description (v : descr) (s : t) : t :=
  {| originalname := originalname s; albumid := albumid s; description := v;
     star := star s; id := id s; url := url s; thumb2xUrl := thumb2xUrl s;
     srcfullpath := srcfullpath s; destfullpath := destfullpath s;
     type_ := type_ s; size_ := size_ s; datetime_ := datetime_ s; exif := exif s;
     width := width s; height := height s;
     thumbnailfullpath := thumbnailfullpath s;
     thumbnailx2fullpath := thumbnailx2fullpath s;
     medium_path := medium_path s; big_path := big_path s; checksum := checksum s |}.
Definition set_datetime (v : datetime) (s : t) : t :=
  {| originalname := originalname s; albumid := albumid s; description := description s;
     star := star s; id := id s; url := url s; thumb2xUrl := thumb2xUrl s;
     srcfullpath := srcfullpath s; destfullpath := destfullpath s;
     type_ := type_ s; size_ := size_ s; datetime_ := v; exif := exif s;
     width := width s; height := height s;
     thumbnailfullpath := thumbnailfullpath s;
     thumbnailx2fullpath := thumbnailx2fullpath s;
     medium_path := medium_path s; big_path := big_path s; checksum := checksum s |}.
Definition set_exif (v : ExifData.t) (s : t) : t :=
  {| originalname := originalname s; albumid := albumid s; description := description s;
     star := star s; id := id s; url := url s; thumb2xUrl := thumb2xUrl s;
     srcfullpath := srcfullpath s; destfullpath := destfullpath s;
     type_ := type_ s; size_ := size_ s; datetime_ := datetime_ s; exif := v;
     width := width s; height := height s;
     thumbnailfullpath := thumbnailfullpath s;
     thumbnailx2fullpath := thumbnailx2fullpath s;
     medium_path := medium_path s; big_path := big_path s; checksum := checksum s |}.
Definition set_width_height (v : Z * Z) (s : t) : t :=
  {| originalname := originalname s; albumid := albumid s; description := description s;
     star := star s; id := id s; url := url s; thumb2xUrl := thumb2xUrl s;
     srcfullpath := srcfullpath s; destfullpath := destfullpath s;
     type_ := type_ s; size_ := size_ s; datetime_ := datetime_ s; exif := exif s;
     width := Some (fst v); height := Some (snd v);
     thumbnailfullpath := thumbnailfullpath s;
     thumbnailx2fullpath := thumbnailx2fullpath s;
     medium_path := medium_path s; big_path := big_path s; checksum := checksum s |}.
Definition set_thumbnailfullpath (v : string) (s : t) : t :=
  {| originalname := originalname s; albumid := albumid s; description := description s;
     star := star s; id := id s; url := url s; thumb2xUrl := thumb2xUrl s;
     srcfullpath := srcfullpath s; destfullpath := destfullpath s;
     type_ := type_ s; size_ := size_ s; datetime_ := datetime_ s; exif := exif s;
     width := width s; height := height s;
     thumbnailfullpath := Some v;
     thumbnailx2fullpath := thumbnailx2fullpath s;
     medium_path := medium_path s; big_path := big_path s; checksum := checksum s |}.
Definition set_thumbnailx2fullpath (v : string) (s : t) : t :=
  {| originalname := originalname s; albumid := albumid s; description := description s;
     star := star s; id := id s; url := url s; thumb2xUrl := thumb2xUrl s;
     srcfullpath := srcfullpath s; destfullpath := destfullpath s;
     type_ := type_ s; size_ := size_ s; datetime_ := datetime_ s; exif := exif s;
     width := width s; height := height s;
     thumbnailfullpath := thumbnailfullpath s;
     thumbnailx2fullpath := Some v;
     medium_path := medium_path s; big_path := big_path s; checksum := checksum s |}.
Definition set_medium_path (v : string) (s : t) : t :=
  {| originalname := originalname s; albumid := albumid s; description := description s;
     star := star s; id := id s; url := url s; thumb2xUrl := thumb2xUrl s;
     srcfullpath := srcfullpath s; destfullpath := destfullpath s;
     type_ := type_ s; size_ := size_ s; datetime_ := datetime_ s; exif := exif s;
     width := width s; height := height s;
     thumbnailfullpath := thumbnailfullpath s;
     thumbnailx2fullpath := thumbnailx2fullpath s;
     medium_path := Some v; big_path := big_path s; checksum := checksum s |}.
Definition set_big_path (v : string) (s : t) : t :=
  {| originalname := originalname s; albumid := albumid s; description := description s;
     star := star s; id := id s; url := url s; thumb2xUrl := thumb2xUrl s;
     srcfullpath := srcfullpath s; destfullpath := destfullpath s;
     type_ := type_ s; size_ := size_ s; datetime_ := datetime_ s; exif := exif s;
     width := width s; height := height s;
     thumbnailfullpath := thumbnailfullpath s;
     thumbnailx2fullpath := thumbnailx2fullpath s;
     medium_path := medium_path s; big_path := Some v; checksum := checksum s |}.
Definition set_checksum (v : string) (s : t) : t :=
  {| originalname := originalname s; albumid := albumid s; description := description s;
     star := star s; id := id s; url := url s; thumb2xUrl := thumb2xUrl s;
     srcfullpath := srcfullpath s; destfullpath := destfullpath s;
     type_ := type_ s; size_ := size_ s; datetime_ := datetime_ s; exif := exif s;
     width := width s; height := height s;
     thumbnailfullpath := thumbnailfullpath s;
     thumbnailx2fullpath := thumbnailx2fullpath s;
     medium_path := medium_path s; big_path := big_path s; checksum := Some v |}.

(** [decode == name], for [decode = TAGS.get(tag, tag)]. *)
Definition is_tag (decode : option string) (name : string) : bool :=
  match decode with Some n => String.eqb n name | None => false end.

(** [v == n] for a tag value [v] and an integer [n]. *)
Definition eq_int (v : PIL.value) (n : Z) : bool :=
  match v with PIL.VInt m => m =? n | _ => false end.

(** The photo id, lines 84 to 86 of [__init__]: [str(now)] without its
    point, filled up with zeros on the right to 14 characters. *)
Definition generateId (now : Q) : string :=
  Py.ljust 14 "0" (Py.replace1 "." "" (Py.str_float now)).

(** ["Original size: {}x{}; New size: {}x{}".format(...)]. *)
Definition sizes_message (old new : Z * Z) : string :=
  "Original size: " +:+ pretty (fst old) +:+ "x" +:+ pretty (snd old)
  +:+ "; New size: " +:+ pretty (fst new) +:+ "x" +:+ pretty (snd new).

Section Methods.
Context {R : Runtime}.
Variable conf : Conf.

(** [resize]'s arithmetic: [int(ratio * d)] with [ratio = float(size) / max_dimension]. *)
Definition scaled (size max_dimension d : Z) : Z :=
  let ratio := Py.fdiv (Py.float_of_int size) (Py.float_of_int max_dimension) in
  Py.int (Py.fmul ratio (Py.float_of_int d)).

(** [resize(self, size)].  The temporary file is made on entering the
    [with] statement, before the size is looked at, and is not deleted on
    leaving it. *)
Definition resize (self : t) (size : Z) : M string :=
  let* temp_image := NamedTemporaryFile in
  let* img := Image_open (srcfullpath self) in
  let max_dimension := Z.max (fst (PIL.size img)) (snd (PIL.size img)) in
  if size <? max_dimension then
    let new_size := (scaled size max_dimension (fst (PIL.size img)),
                     scaled size max_dimension (snd (PIL.size img))) in
    let* _ := logger "debug" (sizes_message (PIL.size img) new_size) in
    let resized_img := PIL.resize new_size img in
    let* _ := Image_save resized_img temp_image (Some "JPEG") (quality conf) in
    ret temp_image
  else
    let* _ := logger "debug" "No resize needed. Image unchanged" in
    ret (srcfullpath self).

(** [generateThumbnail(self, res)].  The dimensions are integers, so that
    [int(delta / 2)] is the quotient rounded down. *)
Definition generateThumbnail (self : t) (res : Z * Z) : M string :=
  let* w := attr (width self) in
  let* h := attr (height self) in
  let '(left_, upper, right_, lower) :=
    if w >? h then
      let delta := w - h in
      let left_ := delta / 2 in
      (left_, 0, h + left_, h)
    else
      let delta := h - w in
      let upper := delta / 2 in
      (0, upper, w, w + upper) in
  let* destimage := NamedTemporaryFile in
  let* img := Image_open (srcfullpath self) in
  let img := PIL.crop (left_, upper, right_, lower) img in
  let img := PIL.thumbnail res img in
  let* _ := Image_save img destimage (Some "JPEG") (quality conf) in
  ret destimage.

(** [cleanup(self)]: one [try] around the three removals; [except
    Exception] catches whatever they raise. *)
Definition cleanup (self : t) : M unit :=
  try_except
    (let* p := attr (medium_path self) in
     let* _ := os_remove p in
     let* p := attr (thumbnailfullpath self) in
     let* _ := os_remove p in
     let* p := attr (thumbnailx2fullpath self) in
     os_remove p)
    (fun _ => true)
    (let* p := attr (thumbnailfullpath self) in
     logger "error" ("Cannot delete thumbnail " +:+ p)).

(** [rotatephoto(self, photo, rotation)]. *)
Definition rotatephoto (self photo : t) (rotation : Z) : M unit :=
  (* rotate main photo *)
  let* img := Image_open (destfullpath photo) in
  let img2 := PIL.rotate rotation img in
  let* _ := Image_save img2 (destfullpath photo) None 99 in
  (* rotate Thumbnails *)
  let* p := attr (thumbnailx2fullpath photo) in
  let* img := Image_open p in
  let img2 := PIL.rotate rotation img in
  let* p := attr (thumbnailx2fullpath photo) in
  let* _ := Image_save img2 p None 99 in
  let* p := attr (thumbnailfullpath photo) in
  let* img := Image_open p in
  (* [img2.rotate(rotation)]: the result is dropped *)
  let* p := attr (thumbnailfullpath photo) in
  Image_save img2 p None 99.

(** [adjustRotation(self, photo)]. *)
Definition adjustRotation (self photo : t) : M unit :=
  let o := ExifData.orientation (exif photo) in
  if negb (eq_int o 0 || eq_int o 1) then
    let* _ := if eq_int o 6 then rotatephoto self photo (-90) else ret tt in
    if eq_int o 8 then rotatephoto self photo 90 else ret tt
  else ret tt.

(** [generateHash(self, filePath)]. *)
Definition generateHash (filePath : string) : M string := read_sha1 filePath.

(** One turn of the loop over the tag dictionary. *)
Definition exif_item (self : t) (item : Z * PIL.value) : M t :=
  let '(tag, value) := item in
  let decode := PIL.TAGS_get tag in
  let upd (name : string) (f : PIL.value -> ExifData.t -> ExifData.t) (self : t) : t :=
    if is_tag decode name then set_exif (f value (exif self)) self else self in
  let self := upd "Orientation" ExifData.set_orientation self in
  let self := upd "Make" ExifData.set_make self in
  let self := upd "MaxApertureValue" ExifData.set_aperture self in
  let self := upd "FocalLength" ExifData.set_focal self in
  let self := upd "ISOSpeedRatings" ExifData.set_iso self in
  let self := upd "Model" ExifData.set_model self in
  let self := upd "ExposureTime" ExifData.set_shutter self in
  if is_tag decode "DateTime" then
    match value with
    | PIL.VStr s =>
        match strptime s with
        | Some f => ret (set_datetime (Fields f) self)
        | None => raise ValueError
        end
    | _ => raise TypeError
    end
  else ret self.

Fixpoint exif_items (self : t) (items : list (Z * PIL.value)) : M t :=
  match items with
  | [] => ret self
  | item :: items' =>
      let* self := exif_item self item in
      exif_items self items'
  end.

(** The [try] block of [__init__].  [Image.open], its first statement, is
    the only one that raises [IOError], so the handler finds [self] as it
    was before the block. *)
Definition parse_exif (self : t) : M t :=
  try_except
    (let* img := Image_open (srcfullpath self) in
     let self := set_width_height (PIL.size img) self in
     match PIL._getexif img with
     | Some (Some exifinfo) =>
         let* self := exif_items self exifinfo in
         ret (set_description (Stamp (datetime_ self)) self)
     | _ => ret self
     end)
    (fun e => match e with IOError => true | _ => false end)
    (let* _ := logger "error" "IOError" in
     ret self).

(** [__init__(self, full_path, album_id)]: the build.  What is returned
    is the object; when a step raises, there is none.  [logger.setLevel]
    does nothing to the outside and is left out; the calls of the logger
    are events whatever the level. *)
Definition __init__ (full_path : string) (album_id : Z) : M t :=
  let originalname := Py.basename full_path in
  let star :=
    if Py.contains "star" originalname || Py.contains "cover" originalname
    then 1 else 0 in
  (* Compute Photo ID *)
  let* now := time_time in
  let id := generateId now in
  (* Compute file storage url *)
  let crypted := md5_hex id in
  let ext := Py.splitext_ext originalname in
  let url := Py.lower (crypted +:+ ext) in
  let thumb2xUrl := Py.lower (crypted +:+ "@2x" +:+ ext) in
  let destfullpath := Py.join (path conf) ["uploads"; "big"; url] in
  (* Auto file some properties *)
  let type_ := guess_type originalname in
  let* size := os_path_getsize full_path in
  let size := pretty (size / 1024) +:+ " KB" in
  let* datetime := datetime_now in
  let self :=
    {| originalname := originalname; albumid := album_id; description := Text "";
       star := star; id := id; url := url; thumb2xUrl := thumb2xUrl;
       srcfullpath := full_path; destfullpath := destfullpath;
       type_ := type_; size_ := size; datetime_ := datetime; exif := ExifData.new;
       width := None; height := None;
       thumbnailfullpath := None; thumbnailx2fullpath := None;
       medium_path := None; big_path := None; checksum := None |} in
  (* Exif Data Parsing *)
  let* self := parse_exif self in
  let* p := generateThumbnail self SMALL_THUMB_SIZE in
  let self := set_thumbnailfullpath p self in
  let* p := generateThumbnail self BIG_THUMB_SIZE in
  let self := set_thumbnailx2fullpath p self in
  let* p := resize self (medium_size conf) in
  let self := set_medium_path p self in
  let* p := match big_size conf with
            | Some size => resize self size
            | None => ret (srcfullpath self)
            end in
  let self := set_big_path p self in
  (* Generate SHA1 hash *)
  let* sum := generateHash (srcfullpath self) in
  ret (set_checksum sum self).

End Methods.

(** [str(x)] for an attribute that holds a string or [None]. *)
Definition str_or_None (o : option string) : string :=
  match o with Some s => s | None => "None" end.

(** The attributes [__str__] reads that no method of the class assigns: an
    object has them only when a caller has set them. *)
Record outside := {
  title : option string;
  public : option string;
  thumbUrl : option string
}.

Section Str.
(** [str(d)] for a [datetime] object. *)
Variable str_datetime : datetime -> string.

Definition str_descr (d : descr) : string :=
  match d with Text s => s | Stamp t => str_datetime t end.

(** [s + d] for a string [s] and a [datetime] object [d]: neither type
    knows the sum. *)
Definition add_str_datetime (s : string) (d : datetime) : M string := raise TypeError.

(** [__str__(self)]. *)
Definition __str__ (self : t) (more : outside) : M string :=
  let res := "" in
  let res := res +:+ "originalname:" +:+ originalname self +:+ Py.nl in
  let res := res +:+ "id:" +:+ id self +:+ Py.nl in
  let res := res +:+ "albumid:" +:+ pretty (albumid self) +:+ Py.nl in
  let* v := attr (thumbnailfullpath self) in
  let res := res +:+ "thumbnailfullpath:" +:+ v +:+ Py.nl in
  let* v := attr (thumbnailx2fullpath self) in
  let res := res +:+ "thumbnailx2fullpath:" +:+ v +:+ Py.nl in
  let* v := attr (title more) in
  let res := res +:+ "title:" +:+ v +:+ Py.nl in
  let res := res +:+ "description:" +:+ str_descr (description self) +:+ Py.nl in
  let res := res +:+ "url:" +:+ url self +:+ Py.nl in
  let* v := attr (public more) in
  let res := res +:+ "public:" +:+ v +:+ Py.nl in
  let res := res +:+ "type:" +:+ str_or_None (type_ self) +:+ Py.nl in
  let* v := attr (width self) in
  let res := res +:+ "width:" +:+ pretty v +:+ Py.nl in
  let* v := attr (height self) in
  let res := res +:+ "height:" +:+ pretty v +:+ Py.nl in
  let res := res +:+ "size:" +:+ size_ self +:+ Py.nl in
  let res := res +:+ "star:" +:+ pretty (star self) +:+ Py.nl in
  let* v := attr (thumbUrl more) in
  let res := res +:+ "thumbUrl:" +:+ v +:+ Py.nl in
  let res := res +:+ "srcfullpath:" +:+ srcfullpath self +:+ Py.nl in
  let res := res +:+ "destfullpath:" +:+ destfullpath self +:+ Py.nl in
  let* v := add_str_datetime "datetime:" (datetime_ self) in
  let res := res +:+ v +:+ Py.nl in
  let res := res +:+ "Exif: " +:+ Py.nl +:+ ExifData.__str__ (exif self) +:+ Py.nl in
  ret res.

End Str.

End LycheePhoto.

(** ** A runtime to run the program on *)

Module Sample.

Definition digit_val (c : ascii) : Z := Z.of_nat (nat_of_ascii c) - 48.

(** The number a string of digits denotes, [None] for any other string. *)
Fixpoint number (acc : Z) (s : string) : option Z :=
  match s with
  | EmptyString => Some acc
  | String c s' =>
      if Py.is_digit c then number (10 * acc + digit_val c) s' else None
  end.

Definition days_in_month (y m : Z) : Z :=
  if m =? 2 then
    if (y mod 4 =? 0) && (negb (y mod 100 =? 0) || (y mod 400 =? 0)) then 29 else 28
  else if (m =? 4) || (m =? 6) || (m =? 9) || (m =? 11) then 30
  else 31.

(** A reading of [%Y:%m:%d %H:%M:%S] that takes the fields at their full
    widths only. *)
Definition strptime_fixed (s : string) : option timestamp :=
  match s with
  | String y1 (String y2 (String y3 (String y4 (String ":"
    (String m1 (String m2 (String ":"
    (String d1 (String d2 (String " "
    (String h1 (String h2 (String ":"
    (String i1 (String i2 (String ":"
    (String s1 (String s2 EmptyString)))))))))))))))))) =>
      let num2 a b := number 0 (String a (String b EmptyString)) in
      match number 0 (String y1 (String y2 (String y3 (String y4 EmptyString)))),
            num2 m1 m2, num2 d1 d2, num2 h1 h2, num2 i1 i2, num2 s1 s2 with
      | Some y, Some m, Some d, Some h, Some i, Some sec =>
          if (1 <=? y) && (1 <=? m) && (m <=? 12) && (1 <=? d) && (d <=? days_in_month y m)
             && (h <=? 23) && (i <=? 59) && (sec <=? 59)
          then Some {| year := y; month := m; day := d;
                       hour := h; minute := i; second := sec |}
          else None
      | _, _, _, _, _, _ => None
      end
  | _ => None
  end.

Definition jpeg_ext (e : string) : bool :=
  String.eqb e ".jpg" || String.eqb e ".jpeg".

#[global] Instance runtime : Runtime := {|
  clock n := ((1400000000 # 1) + (Z.of_nat n # 8))%Q;
  md5_hex s := "md5-" +:+ s;
  sha1_hex f := match f with
                | PIL.Raw data => "sha1-raw-" +:+ pretty (Z.of_nat (length data))
                | PIL.Encoded fmt _ => "sha1-" +:+ fmt
                end;
  st_size f := match f with
               | PIL.Raw data => Z.of_nat (length data)
               | PIL.Encoded _ img => fst (PIL.size img) * snd (PIL.size img) / 4
               end;
  guess_type name :=
    if jpeg_ext (Py.lower (Py.splitext_ext name)) then Some "image/jpeg" else None;
  strptime := strptime_fixed;
  EXTENSION e := if jpeg_ext e then Some "JPEG" else None;
  mkstemp := fresh_string "/tmp/tmp";
  mkstemp_fresh files := fresh_string_fresh files "/tmp/tmp"
|}.

Definition conf : Conf :=
  {| path := "/var/www/lychee"; quality := 70; medium_size := 1920;
     big_size := None; verbose := 40 |}.

(** A JPEG file of the given size and tags. *)
Definition jpeg (w h : Z) (tags : option (list (Z * PIL.value))) : PIL.file :=
  PIL.Encoded "JPEG" {| PIL.size := (w, h); PIL._getexif := Some tags; PIL.px := PIL.Scene 0 |}.

Definition disk (files : list (string * PIL.file)) : world :=
  {| fs := list_to_map files; ticks := 0; trace := [] |}.

Definition src : string := "/home/u/DSC_0001.JPG".

(** A photo object with the given source, dimensions, orientation and
    derivative paths, and nothing else of note. *)
Definition photo (full_path : string) (dims : option (Z * Z)) (orientation : Z)
    (dest : string) (thumb thumbx2 medium : option string) : LycheePhoto.t :=
  {| LycheePhoto.originalname := Py.basename full_path;
     LycheePhoto.albumid := 7;
     LycheePhoto.description := LycheePhoto.Text "";
     LycheePhoto.star := 0;
     LycheePhoto.id := "14000000000000";
     LycheePhoto.url := "md5-14000000000000.jpg";
     LycheePhoto.thumb2xUrl := "md5-14000000000000@2x.jpg";
     LycheePhoto.srcfullpath := full_path;
     LycheePhoto.destfullpath := dest;
     LycheePhoto.type_ := Some "image/jpeg";
     LycheePhoto.size_ := "2929 KB";
     LycheePhoto.datetime_ := At (1400000000 # 1);
     LycheePhoto.exif := ExifData.set_orientation (PIL.VInt orientation) ExifData.new;
     LycheePhoto.width := fst <$> dims;
     LycheePhoto.height := snd <$> dims;
     LycheePhoto.thumbnailfullpath := thumb;
     LycheePhoto.thumbnailx2fullpath := thumbx2;
     LycheePhoto.medium_path := medium;
     LycheePhoto.big_path := Some full_path;
     LycheePhoto.checksum := None |}.

End Sample.


(** ** The vocabulary of the properties *)

(** The world after one more event. *)
Definition logged (e : event) (w : world) : world :=
  {| fs := fs w; ticks := ticks w; trace := trace w ++ [e] |}.

(** The world with [f] written to [p]. *)
Definition stored (p : string) (f : PIL.file) (w : world) : world :=
  {| fs := <[p := f]> (fs w); ticks := ticks w; trace := trace w |}.

(** The world after the events [es], with the files [files]. *)
Definition after (es : list event) (files : gmap string PIL.file) (w : world) : world :=
  {| fs := files; ticks := ticks w; trace := trace w ++ es |}.

(** The crop box of the thumbnail: the square of the shorter side, moved
    along the longer axis by half of the excess, rounded down. *)
Definition center_box (w h : Z) : Z * Z * Z * Z :=
  let shorter := Z.min w h in
  let offset := (Z.max w h - shorter) / 2 in
  if w >? h then (offset, 0, offset + shorter, shorter)
  else (0, offset, shorter, offset + shorter).

(** What the loop over the tags leaves alone. *)
Definition same_photo (a b : LycheePhoto.t) : Prop :=
  LycheePhoto.srcfullpath b = LycheePhoto.srcfullpath a
  /\ LycheePhoto.destfullpath b = LycheePhoto.destfullpath a
  /\ LycheePhoto.width b = LycheePhoto.width a
  /\ LycheePhoto.height b = LycheePhoto.height a
  /\ LycheePhoto.description b = LycheePhoto.description a
  /\ LycheePhoto.id b = LycheePhoto.id a.

(** The events of one call of [resize] that returned [path]: a temporary
    file is made, the source opened, and either the resized image saved in
    the temporary file, which is returned, or nothing saved and the source
    path returned. *)
Definition resize_events (src temp path : string) (es : list event) : Prop :=
  (exists msg, es = [Mkstemp temp; Open src; Log "debug" msg; Save temp] /\ path = temp)
  \/ (es = [Mkstemp temp; Open src; Log "debug" "No resize needed. Image unchanged"]
      /\ path = src).





(** The Standard Library's binary64: [int(float(s) / m * d)] before [int],
    computed with its division and multiplication, as a rational. *)
Definition binary64_of_int (n : Z) : spec_float := binary_normalize 53 1024 n 0 false.

Definition binary64_value (f : spec_float) : Q :=
  match f with
  | S754_finite s m e => ((if s then -1 else 1) * inject_Z (Z.pos m) * (2 # 1) ^ e)%Q
  | _ => 0%Q
  end.

Definition binary64_scaled (s m d : Z) : Q :=
  binary64_value
    (SFmul 53 1024 (SFdiv 53 1024 (binary64_of_int s) (binary64_of_int m))
       (binary64_of_int d)).

Section Vocabulary.
Context {R : Runtime}.
Variable conf : Conf.

(** The object [__init__] has made when it comes to the [try] block, from
    the clock reading [now], the source's size in bytes and the date. *)
Definition new_photo (full_path : string) (album_id : Z) (now : Q) (bytes : Z)
    (date : datetime) : LycheePhoto.t :=
  let originalname := Py.basename full_path in
  let crypted := md5_hex (LycheePhoto.generateId now) in
  let ext := Py.splitext_ext originalname in
  {| LycheePhoto.originalname := originalname;
     LycheePhoto.albumid := album_id;
     LycheePhoto.description := LycheePhoto.Text "";
     LycheePhoto.star :=
       if Py.contains "star" originalname || Py.contains "cover" originalname
       then 1 else 0;
     LycheePhoto.id := LycheePhoto.generateId now;
     LycheePhoto.url := Py.lower (crypted +:+ ext);
     LycheePhoto.thumb2xUrl := Py.lower (crypted +:+ "@2x" +:+ ext);
     LycheePhoto.srcfullpath := full_path;
     LycheePhoto.destfullpath :=
       Py.join (path conf) ["uploads"; "big"; Py.lower (crypted +:+ ext)];
     LycheePhoto.type_ := guess_type originalname;
     LycheePhoto.size_ := pretty (bytes / 1024) +:+ " KB";
     LycheePhoto.datetime_ := date;
     LycheePhoto.exif := ExifData.new;
     LycheePhoto.width := None; LycheePhoto.height := None;
     LycheePhoto.thumbnailfullpath := None; LycheePhoto.thumbnailx2fullpath := None;
     LycheePhoto.medium_path := None; LycheePhoto.big_path := None;
     LycheePhoto.checksum := None |}.

(** What [__init__] does after the [try] block. *)
Definition derivatives (self : LycheePhoto.t) : M LycheePhoto.t :=
  let* p := LycheePhoto.generateThumbnail conf self LycheePhoto.SMALL_THUMB_SIZE in
  let self := LycheePhoto.set_thumbnailfullpath p self in
  let* p := LycheePhoto.generateThumbnail conf self LycheePhoto.BIG_THUMB_SIZE in
  let self := LycheePhoto.set_thumbnailx2fullpath p self in
  let* p := LycheePhoto.resize conf self (medium_size conf) in
  let self := LycheePhoto.set_medium_path p self in
  let* p := match big_size conf with
            | Some size => LycheePhoto.resize conf self size
            | None => ret (LycheePhoto.srcfullpath self)
            end in
  let self := LycheePhoto.set_big_path p self in
  let* sum := LycheePhoto.generateHash (LycheePhoto.srcfullpath self) in
  ret (LycheePhoto.set_checksum sum self).

(** The events of a whole build of [src] that returned the photo [p]. *)
Definition build_events (src : string) (t0 t1 : Q) (p : LycheePhoto.t)
    (es : list event) : Prop :=
  exists (small large medium_tmp medium big : string) (medium_es big_es : list event),
    es = [Clock t0]
           ++ [Getsize src; Clock t1; Open src]
           ++ [Mkstemp small; Open src; Save small]
           ++ [Mkstemp large; Open src; Save large]
           ++ medium_es ++ big_es ++ [Read src]
    /\ LycheePhoto.thumbnailfullpath p = Some small
    /\ LycheePhoto.thumbnailx2fullpath p = Some large
    /\ LycheePhoto.medium_path p = Some medium
    /\ LycheePhoto.big_path p = Some big
    /\ resize_events src medium_tmp medium medium_es
    /\ match big_size conf with
       | Some _ => exists big_tmp, resize_events src big_tmp big big_es
       | None => big_es = [] /\ big = src
       end.

(** The world when [__init__] comes to the [try] block. *)
Definition at_try (full_path : string) (w : world) : world :=
  {| fs := fs w; ticks := S (S (ticks w));
     trace := trace w ++ [Clock (clock (ticks w)); Getsize full_path;
                          Clock (clock (S (ticks w)))] |}.

End Vocabulary.


(** [n] zeros. *)
Definition zeros (n : nat) : string := string_of_list_ascii (repeat "0"%char n).

(** A character that is no slash. *)
Definition no_slash (c : ascii) : bool := negb (Ascii.eqb c "/").

(** The world with the file at [p] removed. *)
Definition removed (p : string) (w : world) : world :=
  {| fs := delete p (fs w); ticks := ticks w; trace := trace w |}.

(** What [generateThumbnail] writes for a source image [img] of a photo of
    width [w] and height [h]. *)
Definition thumbnail_file (conf : Conf) (img : PIL.image) (w h : Z) (res : Z * Z)
  : PIL.file :=
  PIL.encode "JPEG" (quality conf) (PIL.thumbnail res (PIL.crop (center_box w h) img)).

(** Whether [resize] has something to do. *)
Definition resize_needed (img : PIL.image) (size : Z) : bool :=
  size <? Z.max (fst (PIL.size img)) (snd (PIL.size img)).

(** What [resize] leaves in its temporary file. *)
Definition resized_file (conf : Conf) (img : PIL.image) (size : Z) : PIL.file :=
  let max_dimension := Z.max (fst (PIL.size img)) (snd (PIL.size img)) in
  if resize_needed img size then
    PIL.encode "JPEG" (quality conf)
      (PIL.resize (LycheePhoto.scaled size max_dimension (fst (PIL.size img)),
                   LycheePhoto.scaled size max_dimension (snd (PIL.size img))) img)
  else PIL.Raw [].

(** The events of one call of [resize]. *)
Definition resize_trace (src temp : string) (img : PIL.image) (size : Z) : list event :=
  let max_dimension := Z.max (fst (PIL.size img)) (snd (PIL.size img)) in
  if resize_needed img size then
    [Mkstemp temp; Open src;
     Log "debug" (LycheePhoto.sizes_message (PIL.size img)
                    (LycheePhoto.scaled size max_dimension (fst (PIL.size img)),
                     LycheePhoto.scaled size max_dimension (snd (PIL.size img))));
     Save temp]
  else [Mkstemp temp; Open src; Log "debug" "No resize needed. Image unchanged"].

(** What the steps after the [try] block make: the paths they return, the
    disk after each of them, and their events. *)
Module Derived.

Record t := {
  small : string;
  large : string;
  medium_tmp : string;
  medium : string;
  big : string;
  files1 : gmap string PIL.file;
  files2 : gmap string PIL.file;
  files3 : gmap string PIL.file;
  files4 : gmap string PIL.file;
  events : list event
}.

End Derived.

Section Derivatives.
Context {R : Runtime}.
Variable conf : Conf.

Definition derive (src : string) (img : PIL.image) (sw sh : Z)
    (files : gmap string PIL.file) : Derived.t :=
  let small := mkstemp files in
  let files1 := <[small := thumbnail_file conf img sw sh LycheePhoto.SMALL_THUMB_SIZE]> files in
  let large := mkstemp files1 in
  let files2 := <[large := thumbnail_file conf img sw sh LycheePhoto.BIG_THUMB_SIZE]> files1 in
  let temp := mkstemp files2 in
  let files3 := <[temp := resized_file conf img (medium_size conf)]> files2 in
  let big_temp := mkstemp files3 in
  {| Derived.small := small; Derived.large := large; Derived.medium_tmp := temp;
     Derived.medium := if resize_needed img (medium_size conf) then temp else src;
     Derived.big := match big_size conf with
                    | Some size => if resize_needed img size then big_temp else src
                    | None => src
                    end;
     Derived.files1 := files1; Derived.files2 := files2; Derived.files3 := files3;
     Derived.files4 := match big_size conf with
                       | Some size => <[big_temp := resized_file conf img size]> files3
                       | None => files3
                       end;
     Derived.events := [Mkstemp small; Open src; Save small]
                       ++ [Mkstemp large; Open src; Save large]
                       ++ resize_trace src temp img (medium_size conf)
                       ++ match big_size conf with
                          | Some size => resize_trace src big_temp img size
                          | None => []
                          end
                       ++ [Read src] |}.

(** The object [__init__] has made when it has opened the source. *)
Definition opened_photo (full_path : string) (album_id : Z) (w : world)
    (f : PIL.file) (img : PIL.image) : LycheePhoto.t :=
  LycheePhoto.set_width_height (PIL.size img)
    (new_photo conf full_path album_id (clock (ticks w)) (st_size f)
       (At (clock (S (ticks w))))).

End Derivatives.

(** [b] is [a] but for its tags and its date. *)
Definition only_tags (a b : LycheePhoto.t) : Prop :=
  b = LycheePhoto.set_datetime (LycheePhoto.datetime_ b)
        (LycheePhoto.set_exif (LycheePhoto.exif b) a).

(** The tags the loop stores, each with the field it goes to. *)
Definition stored_tags : list (Z * (ExifData.t -> PIL.value)) :=
  [(274, ExifData.orientation); (271, ExifData.make); (37381, ExifData.aperture);
   (37386, ExifData.focal); (34855, ExifData.iso); (272, ExifData.model);
   (33434, ExifData.shutter)].

(** * Properties *)

(** ** Strings *)

Lemma append_nil (s : string) : "" +:+ s = s.
Proof. reflexivity. Qed.

Lemma append_cons (c : ascii) (s t : string) : String c s +:+ t = String c (s +:+ t).
Proof. reflexivity. Qed.

Lemma append_nil_r (s : string) : s +:+ "" = s.
Proof. induction s as [|c s IH]; [reflexivity|]. now rewrite append_cons, IH. Qed.

Lemma append_assoc (s t u : string) : (s +:+ t) +:+ u = s +:+ (t +:+ u).
Proof. induction s as [|c s IH]; [reflexivity|]. now rewrite !append_cons, IH. Qed.

Lemma length_append (s t : string) :
  String.length (s +:+ t) = (String.length s + String.length t)%nat.
Proof. induction s as [|c s IH]; [reflexivity|]. rewrite append_cons. simpl. now rewrite IH. Qed.

Lemma all_chars_append (p : ascii -> bool) (s t : string) :
  Py.all_chars p (s +:+ t) = Py.all_chars p s && Py.all_chars p t.
Proof.
  induction s as [|c s IH]; [reflexivity|].
  rewrite append_cons. simpl. rewrite IH. now rewrite andb_assoc.
Qed.

(** A string without [old] is left as it is. *)
Lemma replace1_absent (old : ascii) (new s : string) :
  Py.all_chars (fun c => negb (Ascii.eqb c old)) s = true ->
  Py.replace1 old new s = s.
Proof.
  induction s as [|c s IH]; simpl; [reflexivity|].
  intros [Hc Hs]%andb_prop. apply negb_true_iff in Hc. rewrite Hc.
  now rewrite IH.
Qed.




(** ** The photo id *)

Lemma is_digit_digit_char (d : Z) : Py.is_digit (Py.digit_char d) = true.
Proof.
  unfold Py.is_digit, Py.digit_char.
  assert (H : 0 <= d mod 10 < 10) by (apply Z.mod_pos_bound; lia).
  rewrite nat_ascii_embedding by lia.
  apply andb_true_intro; split; [apply Nat.leb_le | apply Nat.leb_le]; lia.
Qed.

Lemma length_digits (k : nat) (n : Z) : String.length (Py.digits k n) = k.
Proof.
  revert n. induction k as [|k IH]; intros n; cbn [Py.digits]; [reflexivity|].
  rewrite length_append, IH. cbn [String.length]. lia.
Qed.

Lemma all_digits_digits (k : nat) (n : Z) : Py.all_chars Py.is_digit (Py.digits k n) = true.
Proof.
  revert n. induction k as [|k IH]; intros n; cbn [Py.digits]; [reflexivity|].
  rewrite all_chars_append, IH. cbn [Py.all_chars andb].
  now rewrite is_digit_digit_char.
Qed.

Lemma rstrip0_spec (p : ascii -> bool) (s : string) :
  (String.length (Py.rstrip0 s) <= String.length s)%nat
  /\ (Py.all_chars p s = true -> Py.all_chars p (Py.rstrip0 s) = true).
Proof.
  induction s as [|c s [IHl IHp]]; simpl; [split; [lia | reflexivity]|].
  destruct (Py.rstrip0 s) as [|c' r] eqn:Hr.
  - destruct (Ascii.eqb c "0"); simpl; split; try lia; try reflexivity.
    intros [Hc _]%andb_prop. now rewrite Hc.
  - simpl in *. split; [lia|].
    intros [Hc Hs]%andb_prop. rewrite Hc. simpl. now apply IHp.
Qed.

Lemma digit_is_no_point (s : string) :
  Py.all_chars Py.is_digit s = true ->
  Py.all_chars (fun c => negb (Ascii.eqb c ".")) s = true.
Proof.
  induction s as [|c s IH]; simpl; [reflexivity|].
  intros [Hc Hs]%andb_prop. rewrite IH by assumption.
  destruct (Ascii.eqb c ".") eqn:E; [|reflexivity].
  apply Ascii.eqb_eq in E. subst c. discriminate Hc.
Qed.

Lemma replace1_point (a b : string) :
  Py.all_chars Py.is_digit a = true ->
  Py.all_chars Py.is_digit b = true ->
  Py.replace1 "." "" (a +:+ "." +:+ b) = a +:+ b.
Proof.
  intros Ha Hb. induction a as [|c a IH].
  - rewrite !append_nil. change ("." +:+ b) with (String "." b).
    cbn [Py.replace1]. change (Ascii.eqb "." ".") with true. cbv iota.
    rewrite append_nil. apply replace1_absent. now apply digit_is_no_point.
  - cbn [Py.all_chars] in Ha. apply andb_prop in Ha as [Hc Ha].
    rewrite (append_cons c a ("." +:+ b)), (append_cons c a b). cbn [Py.replace1].
    destruct (Ascii.eqb c ".") eqn:E.
    + apply Ascii.eqb_eq in E. subst c. discriminate Hc.
    + now rewrite IH.
Qed.

Lemma length_repeat_string (c : ascii) (n : nat) :
  String.length (string_of_list_ascii (repeat c n)) = n.
Proof. induction n as [|n IH]; simpl; [reflexivity | now rewrite IH]. Qed.


Lemma ilog10_fuel_bounds (fuel : nat) (n k : Z) :
  0 <= k -> n < 10 ^ (k + 1) -> 0 <= Py.ilog10_fuel fuel n <= k.
Proof.
  revert n k. induction fuel as [|fuel IH]; intros n k Hk Hn; simpl; [lia|].
  destruct (n <? 10) eqn:E; [lia|].
  apply Z.ltb_ge in E.
  assert (1 <= k).
  { destruct (Z.eq_dec k 0) as [->|]; [simpl in Hn; lia | lia]. }
  assert (n / 10 < 10 ^ k).
  { apply Z.div_lt_upper_bound; [lia|].
    replace (10 * 10 ^ k) with (10 ^ (k + 1)); [assumption|].
    rewrite Z.pow_add_r by lia. lia. }
  specialize (IH (n / 10) (k - 1)).
  replace (k - 1 + 1) with k in IH by lia.
  lia.
Qed.

(** [ilog10] has fuel enough: it is the number of digits less one. *)
Lemma ilog10_fuel_spec (fuel : nat) (n : Z) :
  1 <= n < 2 ^ (Z.of_nat fuel + 1) ->
  10 ^ Py.ilog10_fuel fuel n <= n < 10 ^ (Py.ilog10_fuel fuel n + 1).
Proof.
  revert n. induction fuel as [|fuel IH]; intros n Hn.
  - cbn in Hn. cbn. lia.
  - cbn [Py.ilog10_fuel]. destruct (n <? 10) eqn:E.
    + apply Z.ltb_lt in E. cbn. lia.
    + apply Z.ltb_ge in E.
      assert (Hpow : 2 ^ (Z.of_nat (S fuel) + 1) = 2 * 2 ^ (Z.of_nat fuel + 1)).
      { rewrite <- Z.pow_succ_r by lia. f_equal. lia. }
      assert (Hq : 1 <= n / 10 < 2 ^ (Z.of_nat fuel + 1)).
      { split; [apply Z.div_le_lower_bound; lia|].
        apply Z.div_lt_upper_bound; lia. }
      specialize (IH _ Hq).
      pose proof (ilog10_fuel_bounds fuel (n / 10) (Z.of_nat fuel + 1)) as Hk.
      assert (0 <= Py.ilog10_fuel fuel (n / 10)).
      { clear. revert n. induction fuel as [|f IHf]; intros n; cbn; [lia|].
        destruct (n / 10 <? 10); [lia|]. specialize (IHf (n / 10)). lia. }
      set (k := Py.ilog10_fuel fuel (n / 10)) in *.
      replace (1 + k + 1) with (Z.succ (k + 1)) by lia.
      replace (1 + k) with (Z.succ k) by lia.
      rewrite !Z.pow_succ_r by lia.
      pose proof (Z.div_mod n 10 ltac:(lia)) as Hdm.
      pose proof (Z.mod_pos_bound n 10 ltac:(lia)). lia.
Qed.

Lemma ilog10_spec (n : Z) :
  1 <= n -> 10 ^ Py.ilog10 n <= n < 10 ^ (Py.ilog10 n + 1).
Proof.
  intros Hn. apply ilog10_fuel_spec. split; [exact Hn|].
  rewrite Z2Nat.id by apply Z.log2_nonneg.
  replace (Z.log2 n + 1) with (Z.succ (Z.log2 n)) by lia.
  apply Z.log2_spec. lia.
Qed.

Lemma Qabs_nonneg_eq (x : Q) : (0 <= x)%Q -> Qabs x = x.
Proof.
  destruct x as [n d]. unfold Qle, Qabs. simpl. intros H.
  f_equal. apply Z.abs_eq. lia.
Qed.

Lemma rne_le (x : Q) (N : Z) : (x < inject_Z N + (1 # 2))%Q -> Py.rne x <= N.
Proof.
  intros Hx. unfold Py.rne.
  pose proof (Qfloor_le x) as Hf.
  assert (Hfl : Qfloor x <= N).
  { apply Z.lt_succ_r. rewrite Zlt_Qlt.
    eapply Qle_lt_trans; [exact Hf|].
    eapply Qlt_le_trans; [exact Hx|].
    unfold Z.succ. rewrite inject_Z_plus. apply Qplus_le_r. discriminate. }
  destruct (Z.eq_dec (Qfloor x) N) as [E|NE].
  - assert (Hc : (x - inject_Z (Qfloor x) ?= 1 # 2)%Q = Lt).
    { rewrite E. apply (proj1 (Qlt_alt _ _)). lra. }
    rewrite Hc. lia.
  - destruct (x - inject_Z (Qfloor x) ?= 1 # 2)%Q; [destruct (Z.even _)|..]; lia.
Qed.

Lemma sig12_exponent (x : Q) (n k : Z) :
  (1 <= x)%Q -> (x < 9999999999995 # 10)%Q ->
  Py.sig12 x = (n, k) -> 0 <= k <= 11.
Proof.
  intros H1 H2. unfold Py.sig12, Py.decimal_exponent.
  assert (Hb : Qle_bool 1 x = true) by now apply Qle_bool_iff.
  rewrite Hb.
  assert (Hfl : Qfloor x < 10 ^ (11 + 1)).
  { rewrite Zlt_Qlt. eapply Qle_lt_trans; [apply Qfloor_le|].
    eapply Qlt_trans; [exact H2|]. reflexivity. }
  pose proof (ilog10_fuel_bounds (Z.to_nat (Z.log2 (Qfloor x))) (Qfloor x) 11
                ltac:(lia) Hfl) as Hk.
  fold (Py.ilog10 (Qfloor x)) in Hk.
  set (k0 := Py.ilog10 (Qfloor x)) in *.
  destruct (Py.rne (x * Py.pow10 (11 - k0)) =? 10 ^ 12) eqn:E; intros [= <- <-]; [|lia].
  apply Z.eqb_eq in E.
  destruct (Z.eq_dec k0 11) as [Ek|]; [|lia].
  exfalso. rewrite Ek in E. change (Py.pow10 (11 - 11)) with 1%Q in E.
  assert (Hr : Py.rne (x * 1) <= 999999999999).
  { apply rne_le. rewrite Qmult_1_r. eapply Qlt_le_trans; [exact H2|].
    unfold Qle. simpl. lia. }
  rewrite E in Hr. lia.
Qed.






(** ** Running the system calls *)

Section Run.
Context {R : Runtime}.

Lemma bind_ok {A B} (m : M A) (k : A -> M B) (w w' : world) (a : A) :
  m w = (Ok a, w') -> bind m k w = k a w'.
Proof. unfold bind. now intros ->. Qed.

Lemma bind_raise {A B} (m : M A) (k : A -> M B) (w w' : world) (e : exn) :
  m w = (Raise e, w') -> bind m k w = (Raise e, w').
Proof. unfold bind. now intros ->. Qed.

Lemma run_Image_open (p fmt : string) (img : PIL.image) (w : world) :
  fs w !! p = Some (PIL.Encoded fmt img) ->
  Image_open p w = (Ok img, logged (Open p) w).
Proof.
  intros H. unfold Image_open, bind, emit, stat. cbn [fs]. now rewrite H.
Qed.

Lemma run_Image_open_fails (p : string) (w : world) :
  (forall fmt img, fs w !! p <> Some (PIL.Encoded fmt img)) ->
  Image_open p w = (Raise IOError, logged (Open p) w).
Proof.
  intros H. unfold Image_open, bind, emit, stat. cbn [fs].
  destruct (fs w !! p) as [[data|fmt img]|] eqn:E; try reflexivity.
  now destruct (H fmt img).
Qed.

Lemma run_NamedTemporaryFile (w : world) :
  let name := mkstemp (fs w) in
  NamedTemporaryFile w = (Ok name, stored name (PIL.Raw []) (logged (Mkstemp name) w))
  /\ fs w !! name = None.
Proof. split; [reflexivity | apply mkstemp_fresh]. Qed.

Lemma run_Image_save (img : PIL.image) (p fmt : string) (q : Z) (w : world) :
  Image_save img p (Some fmt) q w
  = (Ok tt, stored p (PIL.encode fmt q img) (logged (Save p) w)).
Proof. reflexivity. Qed.

Lemma run_logger (level msg : string) (w : world) :
  logger level msg w = (Ok tt, logged (Log level msg) w).
Proof. reflexivity. Qed.

Lemma fresh_keeps (w : world) (p : string) (f f' : PIL.file) :
  fs w !! p = Some f ->
  <[mkstemp (fs w) := f']> (fs w) !! p = Some f.
Proof.
  intros H. rewrite lookup_insert_ne; [exact H|].
  intros E. rewrite <- E, mkstemp_fresh in H. discriminate.
Qed.

Variable conf : Conf.

(** [generateThumbnail] on a photo with its dimensions set and a source
    that decodes. *)
Lemma generateThumbnail_runs (self : LycheePhoto.t) (res : Z * Z) (w : world)
    (fmt : string) (img : PIL.image) (sw sh : Z) :
  fs w !! LycheePhoto.srcfullpath self = Some (PIL.Encoded fmt img) ->
  LycheePhoto.width self = Some sw -> LycheePhoto.height self = Some sh ->
  let d := mkstemp (fs w) in
  exists out : PIL.file,
    LycheePhoto.generateThumbnail conf self res w
    = (Ok d, after [Mkstemp d; Open (LycheePhoto.srcfullpath self); Save d]
               (<[d := out]> (fs w)) w).
Proof.
  intros Hsrc Hw Hh d.
  unfold LycheePhoto.generateThumbnail. rewrite Hw, Hh. cbn [attr].
  unfold bind at 1. cbn [ret]. unfold bind at 1. cbn [ret].
  destruct (if sw >? sh
            then ((sw - sh) / 2, 0, sh + (sw - sh) / 2, sh)
            else (0, (sh - sw) / 2, sw, sw + (sh - sw) / 2)) as [[[x0 y0] x1] y1].
  destruct (run_NamedTemporaryFile w) as [Htmp Hfresh]. fold d in Htmp, Hfresh.
  rewrite (bind_ok _ _ _ _ _ Htmp).
  erewrite (bind_ok (Image_open _));
    [|eapply run_Image_open; unfold stored, logged; cbn [fs]; apply fresh_keeps, Hsrc].
  rewrite (bind_ok _ _ _ _ _ (run_Image_save _ _ _ _ _)).
  eexists. unfold ret, after, stored, logged. cbn [fs ticks trace].
  rewrite insert_insert_eq, <- !app_assoc. reflexivity.
Qed.

(** Without its dimensions, it raises before it touches anything. *)
Lemma generateThumbnail_unset (self : LycheePhoto.t) (res : Z * Z) (w : world) :
  LycheePhoto.width self = None ->
  LycheePhoto.generateThumbnail conf self res w = (Raise AttributeError, w).
Proof. intros Hw. unfold LycheePhoto.generateThumbnail. now rewrite Hw. Qed.

(** [resize] on a source that decodes. *)
Lemma resize_runs (self : LycheePhoto.t) (size : Z) (w : world)
    (fmt : string) (img : PIL.image) :
  fs w !! LycheePhoto.srcfullpath self = Some (PIL.Encoded fmt img) ->
  let src := LycheePhoto.srcfullpath self in
  let temp := mkstemp (fs w) in
  let max_dimension := Z.max (fst (PIL.size img)) (snd (PIL.size img)) in
  let new_size := (LycheePhoto.scaled size max_dimension (fst (PIL.size img)),
                   LycheePhoto.scaled size max_dimension (snd (PIL.size img))) in
  LycheePhoto.resize conf self size w
  = if size <? max_dimension then
      (Ok temp,
       after [Mkstemp temp; Open src;
              Log "debug" (LycheePhoto.sizes_message (PIL.size img) new_size); Save temp]
         (<[temp := PIL.encode "JPEG" (quality conf) (PIL.resize new_size img)]> (fs w)) w)
    else
      (Ok src,
       after [Mkstemp temp; Open src; Log "debug" "No resize needed. Image unchanged"]
         (<[temp := PIL.Raw []]> (fs w)) w).
Proof.
  intros Hsrc src temp max_dimension new_size.
  unfold LycheePhoto.resize.
  destruct (run_NamedTemporaryFile w) as [Htmp Hfresh]. fold temp in Htmp, Hfresh.
  rewrite (bind_ok _ _ _ _ _ Htmp).
  erewrite (bind_ok (Image_open _));
    [|eapply run_Image_open; unfold stored, logged; cbn [fs]; apply fresh_keeps, Hsrc].
  fold max_dimension. fold new_size.
  destruct (size <? max_dimension).
  - rewrite (bind_ok _ _ _ _ _ (run_logger _ _ _)).
    rewrite (bind_ok _ _ _ _ _ (run_Image_save _ _ _ _ _)).
    unfold ret, after, stored, logged. cbn [fs ticks trace].
    rewrite insert_insert_eq, <- !app_assoc. reflexivity.
  - rewrite (bind_ok _ _ _ _ _ (run_logger _ _ _)).
    unfold ret, after, stored, logged. cbn [fs ticks trace].
    rewrite <- !app_assoc. reflexivity.
Qed.

End Run.

(** ** Thumbnails *)

(** A square image shrinks to the box when it is larger, and stays as it is
    when it is not. *)
Lemma thumbnail_of_square (s side : Z) (img : PIL.image) :
  PIL.size img = (s, s) -> 0 < s -> 0 < side ->
  PIL.thumbnail (side, side) img
  = if side <? s
    then {| PIL.size := (side, side); PIL._getexif := PIL._getexif img;
            PIL.px := PIL.Resample (side, side) (PIL.px img) |}
    else img.
Proof.
  intros Hs Hpos Hside. unfold PIL.thumbnail. rewrite Hs. cbn [fst snd].
  destruct (side <? s) eqn:E.
  - apply Z.ltb_lt in E.
    assert (E1 : (s >? side) = true) by (apply Z.gtb_lt; lia).
    rewrite E1. rewrite Z.mul_comm, Z.div_mul by lia.
    rewrite (Z.max_l side 1) by lia.
    assert (E2 : (side >? side) = false) by (rewrite Z.gtb_ltb; apply Z.ltb_ge; lia).
    rewrite E2. destruct (decide ((side, side) = (s, s))) as [[= ?]|]; [lia | reflexivity].
  - apply Z.ltb_ge in E.
    assert (E1 : (s >? side) = false) by (rewrite Z.gtb_ltb; apply Z.ltb_ge; lia).
    rewrite E1, E1. destruct (decide ((s, s) = (s, s))); [reflexivity | congruence].
Qed.



(** ** Reading the tags *)

Section Tags.
Context {R : Runtime}.

Lemma same_photo_refl (a : LycheePhoto.t) : same_photo a a.
Proof. repeat split. Qed.

Lemma same_photo_trans (a b c : LycheePhoto.t) :
  same_photo a b -> same_photo b c -> same_photo a c.
Proof.
  unfold same_photo. intros (?&?&?&?&?&?) (?&?&?&?&?&?).
  repeat split; congruence.
Qed.

(** Setting a field of [exif] on a match of the tag name. *)
Lemma same_photo_exif (decode : option string) (name : string)
    (f : PIL.value -> ExifData.t -> ExifData.t) (v : PIL.value) (a : LycheePhoto.t) :
  let b := if LycheePhoto.is_tag decode name
           then LycheePhoto.set_exif (f v (LycheePhoto.exif a)) a else a in
  same_photo a b /\ LycheePhoto.datetime_ b = LycheePhoto.datetime_ a.
Proof. cbv zeta. destruct (LycheePhoto.is_tag decode name); repeat split. Qed.

(** One tag: it leaves the world alone; it raises only on a [DateTime] tag,
    a [TypeError] when the value is no string and a [ValueError] when the
    string does not parse; any other tag leaves the date alone. *)
Lemma exif_item_runs (self : LycheePhoto.t) (tag : Z) (v : PIL.value) (w : world) :
  (exists self',
     LycheePhoto.exif_item self (tag, v) w = (Ok self', w)
     /\ same_photo self self'
     /\ (tag <> 306 -> LycheePhoto.datetime_ self' = LycheePhoto.datetime_ self)
     /\ (forall s f, tag = 306 -> v = PIL.VStr s -> strptime s = Some f ->
         LycheePhoto.datetime_ self' = Fields f))
  \/ (tag = 306
      /\ ((exists s, v = PIL.VStr s /\ strptime s = None
                     /\ LycheePhoto.exif_item self (tag, v) w = (Raise ValueError, w))
          \/ ((forall s, v <> PIL.VStr s)
              /\ LycheePhoto.exif_item self (tag, v) w = (Raise TypeError, w)))).
Proof.
  unfold LycheePhoto.exif_item.
  set (decode := PIL.TAGS_get tag).
  pose proof (same_photo_exif decode "Orientation" ExifData.set_orientation v self) as H1.
  cbv zeta in H1. destruct H1 as [S1 D1].
  set (s1 := if LycheePhoto.is_tag decode "Orientation" then _ else _) in *.
  pose proof (same_photo_exif decode "Make" ExifData.set_make v s1) as H2.
  cbv zeta in H2. destruct H2 as [S2 D2].
  set (s2 := if LycheePhoto.is_tag decode "Make" then _ else _) in *.
  pose proof (same_photo_exif decode "MaxApertureValue" ExifData.set_aperture v s2) as H3.
  cbv zeta in H3. destruct H3 as [S3 D3].
  set (s3 := if LycheePhoto.is_tag decode "MaxApertureValue" then _ else _) in *.
  pose proof (same_photo_exif decode "FocalLength" ExifData.set_focal v s3) as H4.
  cbv zeta in H4. destruct H4 as [S4 D4].
  set (s4 := if LycheePhoto.is_tag decode "FocalLength" then _ else _) in *.
  pose proof (same_photo_exif decode "ISOSpeedRatings" ExifData.set_iso v s4) as H5.
  cbv zeta in H5. destruct H5 as [S5 D5].
  set (s5 := if LycheePhoto.is_tag decode "ISOSpeedRatings" then _ else _) in *.
  pose proof (same_photo_exif decode "Model" ExifData.set_model v s5) as H6.
  cbv zeta in H6. destruct H6 as [S6 D6].
  set (s6 := if LycheePhoto.is_tag decode "Model" then _ else _) in *.
  pose proof (same_photo_exif decode "ExposureTime" ExifData.set_shutter v s6) as H7.
  cbv zeta in H7. destruct H7 as [S7 D7].
  set (s7 := if LycheePhoto.is_tag decode "ExposureTime" then _ else _) in *.
  assert (S : same_photo self s7).
  { repeat (eapply same_photo_trans; [eassumption|]). apply same_photo_refl. }
  assert (D : LycheePhoto.datetime_ s7 = LycheePhoto.datetime_ self) by congruence.
  assert (Htag : LycheePhoto.is_tag decode "DateTime" = true <-> tag = 306).
  { unfold decode, PIL.TAGS_get.
    repeat match goal with
           | |- context [?a =? ?b] => destruct (Z.eqb_spec a b)
           end; subst; cbn; split; intros; try lia; try discriminate; reflexivity. }
  destruct (LycheePhoto.is_tag decode "DateTime") eqn:E.
  - assert (tag = 306) by now apply Htag.
    destruct v as [n|s|num den].
    + right. split; [assumption|]. right. split; [discriminate | reflexivity].
    + destruct (strptime s) as [f|] eqn:Ep.
      * left. eexists. split; [reflexivity|]. split; [exact S|].
        split; [intros; contradiction|].
        intros s0 f0 _ [= <-] Hf. cbn. congruence.
      * right. split; [assumption|]. left. exists s. now rewrite Ep.
    + right. split; [assumption|]. right. split; [discriminate | reflexivity].
  - left. exists s7. split; [reflexivity|]. split; [exact S|].
    split; [intros _; exact D|].
    intros s f Ht. apply Htag in Ht. discriminate.
Qed.

Lemma exif_item_malformed (self : LycheePhoto.t) (s : string) (w : world) :
  strptime s = None ->
  LycheePhoto.exif_item self (306, PIL.VStr s) w = (Raise ValueError, w).
Proof. intros Hs. unfold LycheePhoto.exif_item. cbn. now rewrite Hs. Qed.

(** The loop: it leaves the world alone, and raises only on a [DateTime]
    tag. *)
Lemma exif_items_runs (self : LycheePhoto.t) (items : list (Z * PIL.value)) (w : world) :
  (exists self',
     LycheePhoto.exif_items self items w = (Ok self', w)
     /\ same_photo self self'
     /\ (~ In 306 (map fst items) ->
         LycheePhoto.datetime_ self' = LycheePhoto.datetime_ self))
  \/ (exists e,
        LycheePhoto.exif_items self items w = (Raise e, w)
        /\ (e = ValueError \/ e = TypeError)
        /\ In 306 (map fst items)).
Proof.
  revert self. induction items as [|[tag v] items IH]; intros self.
  - left. exists self. repeat split.
  - cbn [LycheePhoto.exif_items map fst In].
    destruct (exif_item_runs self tag v w)
      as [(s1 & Hrun & S1 & D1 & _) | (Htag & [(s & _ & _ & Hrun) | (_ & Hrun)])].
    + rewrite (bind_ok _ _ _ _ _ Hrun).
      destruct (IH s1) as [(s2 & Hrun2 & S2 & D2) | (e & Hrun2 & He & Hin)].
      * left. exists s2. split; [exact Hrun2|].
        split; [eapply same_photo_trans; eassumption|].
        intros Hno. rewrite D2, D1; [reflexivity | |]; intros ?; apply Hno; auto.
      * right. exists e. repeat split; auto.
    + right. exists ValueError. rewrite (bind_raise _ _ _ _ _ Hrun). auto.
    + right. exists TypeError. rewrite (bind_raise _ _ _ _ _ Hrun). auto.
Qed.

(** A [DateTime] tag that does not parse makes the loop raise
    [ValueError]; the keys of a dictionary are distinct. *)
Lemma exif_items_malformed (self : LycheePhoto.t) (items : list (Z * PIL.value))
    (s : string) (w : world) :
  List.NoDup (map fst items) -> In (306, PIL.VStr s) items -> strptime s = None ->
  LycheePhoto.exif_items self items w = (Raise ValueError, w).
Proof.
  intros Hnd Hin Hs. revert self.
  induction items as [|[tag v] items IH]; intros self; [destruct Hin|].
  cbn [map fst] in Hnd. apply NoDup_cons_iff in Hnd as [Hhead Hnd].
  cbn [LycheePhoto.exif_items].
  destruct Hin as [[= -> ->] | Hin].
  - now rewrite (bind_raise _ _ _ _ _ (exif_item_malformed self s w Hs)).
  - assert (Htag : tag <> 306).
    { intros ->. apply Hhead. change 306 with (fst (306, PIL.VStr s)).
      now apply in_map. }
    destruct (exif_item_runs self tag v w)
      as [(s1 & Hrun & _) | (Htag' & _)]; [|contradiction].
    rewrite (bind_ok _ _ _ _ _ Hrun). now apply IH.
Qed.

(** The [try] block on a source that decodes. *)
Lemma parse_exif_runs (self : LycheePhoto.t) (w : world) (fmt : string)
    (img : PIL.image) :
  fs w !! LycheePhoto.srcfullpath self = Some (PIL.Encoded fmt img) ->
  let w1 := logged (Open (LycheePhoto.srcfullpath self)) w in
  let self1 := LycheePhoto.set_width_height (PIL.size img) self in
  LycheePhoto.parse_exif self w
  = match PIL._getexif img with
    | Some (Some items) =>
        match fst (LycheePhoto.exif_items self1 items w1) with
        | Ok self' =>
            (Ok (LycheePhoto.set_description
                   (LycheePhoto.Stamp (LycheePhoto.datetime_ self')) self'), w1)
        | Raise e => (Raise e, w1)
        end
    | _ => (Ok self1, w1)
    end.
Proof.
  intros Hsrc w1 self1. unfold LycheePhoto.parse_exif, try_except.
  rewrite (bind_ok _ _ _ _ _ (run_Image_open _ _ _ _ Hsrc)).
  fold w1. fold self1.
  destruct (PIL._getexif img) as [[items|]|]; try reflexivity.
  destruct (exif_items_runs self1 items w1)
    as [(s' & Hrun & _) | (e & Hrun & He & _)].
  - rewrite (bind_ok _ _ _ _ _ Hrun), Hrun. reflexivity.
  - rewrite (bind_raise _ _ _ _ _ Hrun), Hrun. cbn [fst].
    destruct He as [-> | ->]; reflexivity.
Qed.

(** The [try] block on a file that is no image: the error is logged and
    the object is left without its dimensions. *)
Lemma parse_exif_undecodable (self : LycheePhoto.t) (w : world) :
  (forall fmt img,
     fs w !! LycheePhoto.srcfullpath self <> Some (PIL.Encoded fmt img)) ->
  LycheePhoto.parse_exif self w
  = (Ok self,
     logged (Log "error" "IOError") (logged (Open (LycheePhoto.srcfullpath self)) w)).
Proof.
  intros Hsrc. unfold LycheePhoto.parse_exif, try_except.
  rewrite (bind_raise _ _ _ _ _ (run_Image_open_fails _ _ Hsrc)).
  reflexivity.
Qed.

End Tags.

(** ** The build *)

Section Build.
Context {R : Runtime}.
Variable conf : Conf.

Lemma init_unfold (full_path : string) (album_id : Z) :
  LycheePhoto.__init__ conf full_path album_id
  = (let* now := time_time in
     let* bytes := os_path_getsize full_path in
     let* date := datetime_now in
     let* self := LycheePhoto.parse_exif (new_photo conf full_path album_id now bytes date) in
     derivatives conf self).
Proof. reflexivity. Qed.

Lemma after_keeps (es : list event) (w : world) (p : string) (f f' : PIL.file) :
  fs w !! p = Some f ->
  fs (after es (<[mkstemp (fs w) := f']> (fs w)) w) !! p = Some f.
Proof. intros H. unfold after. cbn [fs]. now apply fresh_keeps. Qed.

(** The steps after the [try] block, on a photo with its dimensions set and
    a source that decodes: they all succeed. *)
Lemma derivatives_run (self : LycheePhoto.t) (w : world) (fmt : string)
    (img : PIL.image) (sw sh : Z) :
  fs w !! LycheePhoto.srcfullpath self = Some (PIL.Encoded fmt img) ->
  LycheePhoto.width self = Some sw -> LycheePhoto.height self = Some sh ->
  let src := LycheePhoto.srcfullpath self in
  exists (small large medium_tmp medium big : string) (medium_es big_es : list event)
         (w' : world),
    derivatives conf self w
    = (Ok (LycheePhoto.set_checksum (sha1_hex (PIL.Encoded fmt img))
             (LycheePhoto.set_big_path big
                (LycheePhoto.set_medium_path medium
                   (LycheePhoto.set_thumbnailx2fullpath large
                      (LycheePhoto.set_thumbnailfullpath small self))))), w')
    /\ trace w' = trace w ++ [Mkstemp small; Open src; Save small]
                          ++ [Mkstemp large; Open src; Save large]
                          ++ medium_es ++ big_es ++ [Read src]
    /\ resize_events src medium_tmp medium medium_es
    /\ match big_size conf with
       | Some _ => exists big_tmp, resize_events src big_tmp big big_es
       | None => big_es = [] /\ big = src
       end
    /\ fs w' !! src = Some (PIL.Encoded fmt img)
    /\ fs w !! small = None /\ fs w !! large = None
    /\ ticks w' = ticks w.
Proof.
  intros Hsrc Hw Hh src. unfold derivatives.
  (* small thumbnail *)
  destruct (generateThumbnail_runs conf self LycheePhoto.SMALL_THUMB_SIZE w
              fmt img sw sh Hsrc Hw Hh) as [out1 Hrun1].
  cbv zeta in Hrun1. set (small := mkstemp (fs w)) in *.
  rewrite (bind_ok _ _ _ _ _ Hrun1).
  match type of Hrun1 with _ = pair _ ?x => set (w1 := x) in * end.
  assert (Hsrc1 : fs w1 !! src = Some (PIL.Encoded fmt img)) by now apply after_keeps.
  (* large thumbnail *)
  set (self1 := LycheePhoto.set_thumbnailfullpath small self).
  destruct (generateThumbnail_runs conf self1 LycheePhoto.BIG_THUMB_SIZE w1
              fmt img sw sh Hsrc1 Hw Hh) as [out2 Hrun2].
  cbv zeta in Hrun2. set (large := mkstemp (fs w1)) in *.
  rewrite (bind_ok _ _ _ _ _ Hrun2).
  match type of Hrun2 with _ = pair _ ?x => set (w2 := x) in * end.
  assert (Hsrc2 : fs w2 !! src = Some (PIL.Encoded fmt img)) by now apply after_keeps.
  (* medium *)
  set (self2 := LycheePhoto.set_thumbnailx2fullpath large self1).
  pose proof (resize_runs conf self2 (medium_size conf) w2 fmt img Hsrc2) as Hrun3.
  cbv zeta in Hrun3. set (tmp3 := mkstemp (fs w2)) in *.
  assert (Hmed : exists medium es3 w3,
            LycheePhoto.resize conf self2 (medium_size conf) w2 = (Ok medium, w3)
            /\ trace w3 = trace w2 ++ es3 /\ ticks w3 = ticks w2
            /\ resize_events src tmp3 medium es3
            /\ fs w3 !! src = Some (PIL.Encoded fmt img)).
  { rewrite Hrun3. destruct (medium_size conf <? _).
    - do 3 eexists. split; [reflexivity|]. split; [reflexivity|].
      split; [reflexivity|]. split; [left; eauto | now apply after_keeps].
    - do 3 eexists. split; [reflexivity|]. split; [reflexivity|].
      split; [reflexivity|]. split; [right; eauto | now apply after_keeps]. }
  destruct Hmed as (medium & es3 & w3 & Hrun3' & Htr3 & Htk3 & Hev3 & Hsrc3).
  rewrite (bind_ok _ _ _ _ _ Hrun3').
  (* big *)
  set (self3 := LycheePhoto.set_medium_path medium self2).
  assert (Hbig : exists big es4 w4,
            match big_size conf with
            | Some size => LycheePhoto.resize conf self3 size
            | None => ret (LycheePhoto.srcfullpath self3)
            end w3 = (Ok big, w4)
            /\ trace w4 = trace w3 ++ es4 /\ ticks w4 = ticks w3
            /\ match big_size conf with
               | Some _ => exists big_tmp, resize_events src big_tmp big es4
               | None => es4 = [] /\ big = src
               end
            /\ fs w4 !! src = Some (PIL.Encoded fmt img)).
  { destruct (big_size conf) as [size|].
    - pose proof (resize_runs conf self3 size w3 fmt img Hsrc3) as Hrun4.
      cbv zeta in Hrun4. rewrite Hrun4. destruct (size <? _).
      + do 3 eexists. split; [reflexivity|]. split; [reflexivity|].
        split; [reflexivity|]. split; [eexists; left; eauto | now apply after_keeps].
      + do 3 eexists. split; [reflexivity|]. split; [reflexivity|].
        split; [reflexivity|]. split; [eexists; right; eauto | now apply after_keeps].
    - exists src, [], w3. rewrite app_nil_r. repeat split; auto. }
  destruct Hbig as (big & es4 & w4 & Hrun4 & Htr4 & Htk4 & Hev4 & Hsrc4).
  rewrite (bind_ok _ _ _ _ _ Hrun4).
  (* checksum *)
  unfold LycheePhoto.generateHash, read_sha1.
  exists small, large, tmp3, medium, big, es3, es4, (logged (Read src) w4).
  split.
  { unfold bind, emit, stat, ret. cbn [fs].
    change (LycheePhoto.srcfullpath (LycheePhoto.set_big_path big self3)) with src.
    now rewrite Hsrc4. }
  split.
  { cbn [logged trace]. rewrite Htr4, Htr3. unfold w2, w1, after. cbn [trace].
    rewrite <- !app_assoc. reflexivity. }
  split; [exact Hev3|]. split; [exact Hev4|].
  split; [exact Hsrc4|].
  split; [apply mkstemp_fresh|].
  split.
  { destruct (fs w !! large) eqn:E; [|reflexivity].
    pose proof (mkstemp_fresh (fs w1)) as Hf. fold large in Hf.
    unfold w1, after in Hf. cbn [fs] in Hf.
    destruct (decide (small = large)) as [Eq|Ne].
    - rewrite <- Eq in E. unfold small in E. now rewrite mkstemp_fresh in E.
    - rewrite lookup_insert_ne in Hf by exact Ne. congruence. }
  cbn [logged ticks]. rewrite Htk4, Htk3. reflexivity.
Qed.

Lemma init_prefix (full_path : string) (album_id : Z) (w : world) (f : PIL.file) :
  fs w !! full_path = Some f ->
  LycheePhoto.__init__ conf full_path album_id w
  = bind (LycheePhoto.parse_exif
            (new_photo conf full_path album_id (clock (ticks w)) (st_size f)
               (At (clock (S (ticks w))))))
      (derivatives conf) (at_try full_path w).
Proof.
  intros Hf. rewrite init_unfold.
  unfold bind at 1, time_time at 1. cbv zeta.
  unfold bind at 1, os_path_getsize at 1, bind at 1, emit at 1, bind at 1, stat at 1.
  cbn [fs ticks trace]. rewrite Hf. unfold ret at 1.
  unfold bind at 1, datetime_now at 1, bind at 1, time_time at 1.
  cbn [fs ticks trace]. unfold ret at 1. unfold at_try.
  rewrite <- !app_assoc. reflexivity.
Qed.

Lemma init_missing (full_path : string) (album_id : Z) (w : world) :
  fs w !! full_path = None ->
  LycheePhoto.__init__ conf full_path album_id w
  = (Raise OSError,
     {| fs := fs w; ticks := S (ticks w);
        trace := trace w ++ [Clock (clock (ticks w)); Getsize full_path] |}).
Proof.
  intros Hf. rewrite init_unfold.
  unfold bind at 1, time_time at 1. cbv zeta.
  unfold bind at 1, os_path_getsize at 1, bind at 1, emit at 1, bind at 1, stat at 1.
  cbn [fs ticks trace]. rewrite Hf. unfold raise.
  rewrite <- !app_assoc. reflexivity.
Qed.

(** A source that is no image: the error of [Image.open] is logged, and
    the first thumbnail raises, with the disk as it was. *)
Lemma init_undecodable (full_path : string) (album_id : Z) (w : world) (f : PIL.file) :
  fs w !! full_path = Some f ->
  (forall fmt img, f <> PIL.Encoded fmt img) ->
  LycheePhoto.__init__ conf full_path album_id w
  = (Raise AttributeError,
     logged (Log "error" "IOError") (logged (Open full_path) (at_try full_path w))).
Proof.
  intros Hf Hno. rewrite (init_prefix _ _ _ _ Hf).
  erewrite bind_ok; [|apply parse_exif_undecodable].
  - unfold derivatives. erewrite bind_raise; [reflexivity|].
    now apply generateThumbnail_unset.
  - intros fmt img. cbn [new_photo LycheePhoto.srcfullpath at_try fs].
    rewrite Hf. intros [= E]. now apply (Hno fmt img).
Qed.

(** A source that decodes: the build stops at a tag that raises, and
    otherwise returns a photo. *)
Lemma init_decodable (full_path : string) (album_id : Z) (w : world) (fmt : string)
    (img : PIL.image) :
  fs w !! full_path = Some (PIL.Encoded fmt img) ->
  let t0 := clock (ticks w) in
  let t1 := clock (S (ticks w)) in
  let w1 := logged (Open full_path) (at_try full_path w) in
  let self1 := LycheePhoto.set_width_height (PIL.size img)
                 (new_photo conf full_path album_id t0 (st_size (PIL.Encoded fmt img)) (At t1)) in
  let go (self : LycheePhoto.t) :=
    exists p w' es,
      LycheePhoto.__init__ conf full_path album_id w = (Ok p, w')
      /\ trace w' = trace w ++ es /\ build_events conf full_path t0 t1 p es
      /\ LycheePhoto.datetime_ p = LycheePhoto.datetime_ self
      /\ LycheePhoto.description p = LycheePhoto.description self
      /\ LycheePhoto.exif p = LycheePhoto.exif self
      /\ fs w' !! full_path = Some (PIL.Encoded fmt img) in
  match PIL._getexif img with
  | Some (Some items) =>
      match fst (LycheePhoto.exif_items self1 items w1) with
      | Ok self' =>
          go (LycheePhoto.set_description
                (LycheePhoto.Stamp (LycheePhoto.datetime_ self')) self')
      | Raise e => LycheePhoto.__init__ conf full_path album_id w = (Raise e, w1)
      end
  | _ => go self1
  end.
Proof.
  intros Hf t0 t1 w1 self1 go.
  assert (Hgo : forall self,
            LycheePhoto.parse_exif
              (new_photo conf full_path album_id t0 (st_size (PIL.Encoded fmt img)) (At t1))
              (at_try full_path w) = (Ok self, w1) ->
            LycheePhoto.srcfullpath self = full_path ->
            LycheePhoto.width self = Some (fst (PIL.size img)) ->
            LycheePhoto.height self = Some (snd (PIL.size img)) ->
            go self).
  { intros self Hparse Hsrc Hw Hh.
    assert (Hf1 : fs w1 !! LycheePhoto.srcfullpath self = Some (PIL.Encoded fmt img))
      by (rewrite Hsrc; exact Hf).
    destruct (derivatives_run self w1 fmt img _ _ Hf1 Hw Hh)
      as (small & large & mtmp & medium & big & mes & bes & w' & Hrun & Htr & Hm & Hb
          & Hsrc' & _ & _ & _).
    rewrite Hsrc in Htr, Hm, Hb, Hsrc'.
    eexists _, w', _. split.
    { rewrite (init_prefix _ _ _ _ Hf). fold t0 t1.
      rewrite (bind_ok _ _ _ _ _ Hparse). exact Hrun. }
    split.
    { rewrite Htr. unfold w1, logged, at_try. cbn [trace].
      rewrite <- !app_assoc. reflexivity. }
    split.
    { exists small, large, mtmp, medium, big, mes, bes. repeat split; auto. }
    repeat split; auto. }
  assert (Hparse :
    LycheePhoto.parse_exif
      (new_photo conf full_path album_id t0 (st_size (PIL.Encoded fmt img)) (At t1))
      (at_try full_path w)
    = match PIL._getexif img with
      | Some (Some items) =>
          match fst (LycheePhoto.exif_items self1 items w1) with
          | Ok self' =>
              (Ok (LycheePhoto.set_description
                     (LycheePhoto.Stamp (LycheePhoto.datetime_ self')) self'), w1)
          | Raise e => (Raise e, w1)
          end
      | _ => (Ok self1, w1)
      end)
    by exact (parse_exif_runs
                (new_photo conf full_path album_id t0 (st_size (PIL.Encoded fmt img)) (At t1))
                (at_try full_path w) fmt img Hf).
  destruct (PIL._getexif img) as [[items|]|].
  - destruct (exif_items_runs self1 items w1)
      as [(s' & Hrun & (S1 & _ & S3 & S4 & _) & _) | (e & Hrun & _)];
      rewrite Hrun in Hparse |- *; cbn [fst] in Hparse |- *.
    + apply Hgo; [exact Hparse | exact S1 | exact S3 | exact S4].
    + rewrite (init_prefix _ _ _ _ Hf). fold t0 t1.
      now rewrite (bind_raise _ _ _ _ _ Hparse).
  - now apply Hgo.
  - now apply Hgo.
Qed.

End Build.

(** C2, amended: every build that returns a photo has done, in this order
    and nothing else: the id from the clock; the size, the date and the
    tags of the source; the small thumbnail; the large thumbnail; the medium
    resize; the big resize when one is configured (else the big path is the
    source path); the checksum of the source.  No pass over the orientation
    is part of it: after the last resize the build only reads the source
    for the checksum, and no file is written twice. *)
Theorem build_order {R : Runtime} (conf : Conf) (full_path : string) (album_id : Z)
    (w w' : world) (p : LycheePhoto.t) :
  LycheePhoto.__init__ conf full_path album_id w = (Ok p, w') ->
  exists es : list event,
    trace w' = trace w ++ es
    /\ build_events conf full_path (clock (ticks w)) (clock (S (ticks w))) p es.
Proof.
  intros Hrun.
  destruct (fs w !! full_path) as [[data|fmt img]|] eqn:Hf.
  - rewrite (init_undecodable conf _ _ _ _ Hf) in Hrun by discriminate.
    discriminate Hrun.
  - pose proof (init_decodable conf full_path album_id w fmt img Hf) as H.
    cbv zeta in H.
    destruct (PIL._getexif img) as [[items|]|];
      [destruct (fst (LycheePhoto.exif_items _ items _))|..];
      try (rewrite H in Hrun; discriminate Hrun);
      destruct H as (p0 & w0 & es & Hrun0 & Htr & Hev & _);
      rewrite Hrun0 in Hrun; injection Hrun as <- <-; eauto.
  - rewrite (init_missing conf _ _ _ Hf) in Hrun. discriminate Hrun.
Qed.

Lemma build_order_witness :
  exists (p : LycheePhoto.t) (w' : world) (es : list event),
    LycheePhoto.__init__ Sample.conf Sample.src 7
      (Sample.disk [(Sample.src, Sample.jpeg 4000 3000 None)]) = (Ok p, w')
    /\ trace w' = es
    /\ build_events Sample.conf Sample.src (clock 0) (clock 1) p es.
Proof.
  destruct (LycheePhoto.__init__ Sample.conf Sample.src 7
              (Sample.disk [(Sample.src, Sample.jpeg 4000 3000 None)]))
    as [[p|e] w'] eqn:Hrun.
  - destruct (build_order Sample.conf Sample.src 7 _ w' p Hrun) as (es & Htr & Hev).
    exists p, w', es. auto.
  - vm_compute in Hrun. discriminate Hrun.
Defined.

(** C2 as stated fails: the build of a photo with orientation 6 ends with
    the checksum right after the medium resize, and its thumbnail is the
    cut and shrunk source, not turned. *)
Lemma build_without_rotation :
  exists (p : LycheePhoto.t) (w' : world),
    LycheePhoto.__init__ Sample.conf Sample.src 7
      (Sample.disk [(Sample.src, Sample.jpeg 4000 3000 (Some [(274, PIL.VInt 6)]))])
    = (Ok p, w')
    /\ ExifData.orientation (LycheePhoto.exif p) = PIL.VInt 6
    /\ trace w'
       = [Clock (clock 0); Getsize Sample.src; Clock (clock 1); Open Sample.src;
          Mkstemp "/tmp/tmp"; Open Sample.src; Save "/tmp/tmp";
          Mkstemp "/tmp/tmp0"; Open Sample.src; Save "/tmp/tmp0";
          Mkstemp "/tmp/tmp1"; Open Sample.src;
          Log "debug" "Original size: 4000x3000; New size: 1920x1440";
          Save "/tmp/tmp1";
          Read Sample.src]
    /\ LycheePhoto.thumbnailfullpath p = Some "/tmp/tmp"
    /\ fs w' !! "/tmp/tmp"
       = Some (PIL.Encoded "JPEG"
                 {| PIL.size := (200, 200); PIL._getexif := Some None;
                    PIL.px := PIL.Encode 70 (PIL.Resample (200, 200)
                                (PIL.Crop (500, 0, 3500, 3000) (PIL.Scene 0))) |}).
Proof. eexists _, _. split; [vm_compute; reflexivity|]. vm_compute. repeat split. Qed.

(** C4, amended: when the source is a file that is no image, the error of
    [Image.open] is caught and logged, not raised; the build still fails,
    with the [AttributeError] of the first thumbnail on the width that was
    never set; no file is made or changed and no photo is returned. *)
Theorem undecodable_source {R : Runtime} (conf : Conf) (full_path : string)
    (album_id : Z) (w : world) (data : list Z) :
  fs w !! full_path = Some (PIL.Raw data) ->
  exists w' : world,
    LycheePhoto.__init__ conf full_path album_id w = (Raise AttributeError, w')
    /\ fs w' = fs w
    /\ trace w'
       = trace w ++ [Clock (clock (ticks w)); Getsize full_path;
                     Clock (clock (S (ticks w))); Open full_path;
                     Log "error" "IOError"].
Proof.
  intros Hf. eexists. split.
  - apply (init_undecodable conf _ _ _ _ Hf). discriminate.
  - split; [reflexivity|]. cbn [logged at_try trace].
    rewrite <- !app_assoc. reflexivity.
Qed.

Lemma undecodable_source_witness :
  exists w' : world,
    LycheePhoto.__init__ Sample.conf Sample.src 7
      (Sample.disk [(Sample.src, PIL.Raw [71; 73; 70])]) = (Raise AttributeError, w')
    /\ fs w' = fs (Sample.disk [(Sample.src, PIL.Raw [71; 73; 70])])
    /\ trace w' = [Clock (clock 0); Getsize Sample.src; Clock (clock 1);
                   Open Sample.src; Log "error" "IOError"].
Proof.
  exact (undecodable_source Sample.conf Sample.src 7
           (Sample.disk [(Sample.src, PIL.Raw [71; 73; 70])]) [71; 73; 70] eq_refl).
Defined.

(** C4 as stated fails: what the caller gets is not the [IOError] of the
    decoder. *)
Lemma decode_error_not_surfaced :
  fst (LycheePhoto.__init__ Sample.conf Sample.src 7
         (Sample.disk [(Sample.src, PIL.Raw [71; 73; 70])])) = Raise AttributeError
  /\ fst (LycheePhoto.__init__ Sample.conf Sample.src 7
            (Sample.disk [(Sample.src, PIL.Raw [71; 73; 70])])) <> Raise IOError.
Proof. split; [vm_compute; reflexivity | vm_compute; discriminate]. Qed.




(** ** Rotation, cleanup and resize on sample inputs *)

(** C1: the pass on a photo with orientation 6 whose three files hold three
    different pictures.  The main file and the large thumbnail are each
    turned by -90 degrees; the small thumbnail is overwritten with the
    turned large thumbnail, not with its own picture turned. *)
Theorem rotatephoto_small_thumbnail :
  let big := Sample.jpeg 4000 3000 None in
  let small := PIL.Encoded "JPEG" {| PIL.size := (200, 200); PIL._getexif := Some None;
                                     PIL.px := PIL.Scene 1 |} in
  let large := PIL.Encoded "JPEG" {| PIL.size := (400, 400); PIL._getexif := Some None;
                                     PIL.px := PIL.Scene 2 |} in
  let turned (sz : Z * Z) (n : nat) :=
    PIL.Encoded "JPEG" {| PIL.size := sz; PIL._getexif := Some None;
                          PIL.px := PIL.Encode 99 (PIL.Rotate (-90) (PIL.Scene n)) |} in
  let p := Sample.photo Sample.src (Some (4000, 3000)) 6 "/www/big/a.jpg"
             (Some "/www/thumb/a.jpg") (Some "/www/thumb/a@2x.jpg") (Some Sample.src) in
  let w := Sample.disk [("/www/big/a.jpg", big); ("/www/thumb/a.jpg", small);
                        ("/www/thumb/a@2x.jpg", large)] in
  exists w',
    LycheePhoto.adjustRotation p p w = (Ok tt, w')
    /\ fs w' !! "/www/big/a.jpg" = Some (turned (4000, 3000) 0%nat)
    /\ fs w' !! "/www/thumb/a@2x.jpg" = Some (turned (400, 400) 2%nat)
    /\ fs w' !! "/www/thumb/a.jpg" = Some (turned (400, 400) 2%nat)
    /\ fs w' !! "/www/thumb/a.jpg" <> Some (turned (200, 200) 1%nat).
Proof.
  cbv zeta. eexists. split; [vm_compute; reflexivity|].
  vm_compute. repeat split. discriminate.
Qed.

(** The same pass on a photo as [__init__] leaves it, with the source
    copied to the destination: the thumbnails are temporary files, whose
    names have no extension, so that after the main file is turned the
    second [save] raises and both thumbnails stay as they were. *)
Example rotation_of_a_built_photo :
  let dest := "/var/www/lychee/uploads/big/md5-14000000000000.jpg" in
  let w := Sample.disk [(Sample.src, Sample.jpeg 4000 3000 (Some [(274, PIL.VInt 6)]));
                        (dest, Sample.jpeg 4000 3000 (Some [(274, PIL.VInt 6)]))] in
  exists p w1 w2,
    LycheePhoto.__init__ Sample.conf Sample.src 7 w = (Ok p, w1)
    /\ LycheePhoto.destfullpath p = dest
    /\ LycheePhoto.thumbnailfullpath p = Some "/tmp/tmp"
    /\ LycheePhoto.thumbnailx2fullpath p = Some "/tmp/tmp0"
    /\ LycheePhoto.adjustRotation p p w1 = (Raise KeyError, w2)
    /\ fs w2 !! "/tmp/tmp" = fs w1 !! "/tmp/tmp"
    /\ fs w2 !! "/tmp/tmp0" = fs w1 !! "/tmp/tmp0".
Proof.
  cbv zeta. eexists _, _, _. split; [vm_compute; reflexivity|].
  split; [vm_compute; reflexivity|]. split; [reflexivity|]. split; [reflexivity|].
  split; [vm_compute; reflexivity|]. split; vm_compute; reflexivity.
Qed.

(** C5: a 1000x800 source, smaller than the medium size, is built and then
    cleaned up.  The medium path is the source path, and [cleanup] removes
    the source.  And when the medium file is already gone, the first
    [os.remove] raises, the error is logged, and both thumbnails stay. *)
Theorem cleanup_removes_source :
  let w := Sample.disk [(Sample.src, Sample.jpeg 1000 800 None)] in
  (exists p w1 w2,
     LycheePhoto.__init__ Sample.conf Sample.src 7 w = (Ok p, w1)
     /\ LycheePhoto.medium_path p = Some Sample.src
     /\ LycheePhoto.cleanup p w1 = (Ok tt, w2)
     /\ fs w1 !! Sample.src = Some (Sample.jpeg 1000 800 None)
     /\ fs w2 !! Sample.src = None)
  /\ (let q := Sample.photo Sample.src (Some (4000, 3000)) 1 "/www/big/a.jpg"
                 (Some "/tmp/a") (Some "/tmp/b") (Some "/tmp/gone") in
      let v := Sample.disk [(Sample.src, Sample.jpeg 4000 3000 None);
                            ("/tmp/a", Sample.jpeg 200 200 None);
                            ("/tmp/b", Sample.jpeg 400 400 None)] in
      exists v',
        LycheePhoto.cleanup q v = (Ok tt, v')
        /\ trace v' = [Remove "/tmp/gone"; Log "error" "Cannot delete thumbnail /tmp/a"]
        /\ fs v' !! "/tmp/a" = Some (Sample.jpeg 200 200 None)
        /\ fs v' !! "/tmp/b" = Some (Sample.jpeg 400 400 None)).
Proof.
  cbv zeta. split.
  - eexists _, _, _. split; [vm_compute; reflexivity|].
    split; [reflexivity|]. split; [vm_compute; reflexivity|].
    split; vm_compute; reflexivity.
  - eexists. split; [vm_compute; reflexivity|]. vm_compute. repeat split.
Qed.

(** C6: [resize] of a 100x100 source to at most 1920 returns the source
    path, and has made a new, empty file that no one removes. *)
Theorem resize_leaves_temporary_file :
  let w := Sample.disk [(Sample.src, Sample.jpeg 100 100 None)] in
  let p := Sample.photo Sample.src (Some (100, 100)) 1 "/www/big/a.jpg" None None None in
  exists w',
    LycheePhoto.resize Sample.conf p 1920 w = (Ok Sample.src, w')
    /\ fs w !! "/tmp/tmp" = None
    /\ fs w' !! "/tmp/tmp" = Some (PIL.Raw [])
    /\ trace w' = [Mkstemp "/tmp/tmp"; Open Sample.src;
                   Log "debug" "No resize needed. Image unchanged"].
Proof.
  cbv zeta. eexists. split; [vm_compute; reflexivity|]. vm_compute. repeat split.
Qed.

(** ** The arithmetic of resize *)

(** The rounding of [Py.float] is that of binary64: on these sizes the
    product that [scaled] cuts down is the one the Standard Library's
    floats give. *)
Example scaled_agrees_with_binary64 :
  forallb
    (fun '(s, m, d) =>
       Qeq_bool (binary64_scaled s m d)
         (Py.fmul (Py.fdiv (Py.float_of_int s) (Py.float_of_int m)) (Py.float_of_int d)))
    [(1920, 4000, 4000); (1920, 4000, 3000); (1920, 4912, 4912); (1920, 4912, 3264);
     (1, 49, 49); (3, 5, 5); (3, 5, 3); (1080, 5184, 3456); (2048, 6000, 4000);
     (1920, 33554432, 1); (33554431, 33554432, 33554432)]
  = true.
Proof. vm_compute. reflexivity. Qed.




Tactic Notation "qreplace" constr(a) constr(b) "by" tactic3(t) :=
  let E := fresh "E" in assert (E : Qeq a b) by t; rewrite E; clear E.

















(** * Further properties

    What follows covers the rest of photo.py: the whole of [__init__] and
    what it leaves on the disk, the ways its steps fail, [cleanup], the
    rotation and the two [__str__] methods. *)

(** ** The date of the tags and the id *)




Lemma zeros_S (n : nat) : zeros (S n) = String "0" (zeros n).
Proof. reflexivity. Qed.

Lemma zeros_add (a b : nat) : zeros (a + b) = zeros a +:+ zeros b.
Proof. induction a as [|a IH]; [reflexivity|]. cbn [Nat.add]. now rewrite !zeros_S, append_cons, IH. Qed.

Lemma length_zeros (n : nat) : String.length (zeros n) = n.
Proof. apply length_repeat_string. Qed.

(** What [rstrip0] drops is zeros. *)
Lemma rstrip0_zeros (s : string) :
  s = Py.rstrip0 s +:+ zeros (String.length s - String.length (Py.rstrip0 s)).
Proof.
  induction s as [|c s IH]; [reflexivity|]. cbn [Py.rstrip0].
  pose proof (proj1 (rstrip0_spec (fun _ => true) s)) as Hlen.
  destruct (Py.rstrip0 s) as [|c' r] eqn:Hr.
  - rewrite append_nil in IH. cbn [String.length] in IH. rewrite Nat.sub_0_r in IH.
    destruct (Ascii.eqb_spec c "0") as [->|Hc].
    + rewrite append_nil. cbn [String.length]. rewrite Nat.sub_0_r, zeros_S. now f_equal.
    + rewrite append_cons, append_nil. cbn [String.length].
      replace (S (String.length s) - 1)%nat with (String.length s) by lia. now f_equal.
  - rewrite append_cons. cbn [String.length] in *.
    replace (S (String.length s) - S (S (String.length r)))%nat
      with (String.length s - S (String.length r))%nat by lia.
    now f_equal.
Qed.

Lemma digits_add (a b : nat) (n : Z) :
  Py.digits (a + b) n = Py.digits a (n / 10 ^ Z.of_nat b) +:+ Py.digits b n.
Proof.
  revert n. induction b as [|b IH]; intros n.
  - rewrite Nat.add_0_r. cbn [Py.digits]. rewrite append_nil_r.
    change (10 ^ Z.of_nat 0) with 1. now rewrite Z.div_1_r.
  - rewrite Nat.add_succ_r. cbn [Py.digits]. rewrite IH, append_assoc.
    rewrite Z.div_div by lia. do 3 f_equal.
    rewrite Nat2Z.inj_succ, Z.pow_succ_r by lia. reflexivity.
Qed.

(** In the range, the id is the twelve significant digits of the clock,
    and two zeros. *)
Lemma generateId_sig12 (now : Q) :
  (1 <= now)%Q -> (now < 9999999999995 # 10)%Q ->
  LycheePhoto.generateId now = Py.digits 12 (fst (Py.sig12 now)) +:+ "00".
Proof.
  intros H1 H2. unfold LycheePhoto.generateId, Py.str_float.
  assert (H0 : (0 <= now)%Q) by lra.
  assert (Hz : Qeq_bool now 0 = false).
  { destruct (Qeq_bool now 0) eqn:E; [|reflexivity]. apply Qeq_bool_eq in E. lra. }
  rewrite Hz, (Qabs_nonneg_eq now H0).
  assert (Hs : Qle_bool 0 now = true) by now apply Qle_bool_iff.
  rewrite Hs.
  destruct (Py.sig12 now) as [n k] eqn:Esig. rewrite append_nil. cbn [fst].
  pose proof (sig12_exponent now n k H1 H2 Esig) as Hk.
  assert (E1 : (k <? -4) || (12 <=? k) = false).
  { apply orb_false_intro; [apply Z.ltb_ge | apply Z.leb_gt]; lia. }
  assert (E2 : (0 <=? k) = true) by (apply Z.leb_le; lia).
  rewrite E1, E2. cbv zeta.
  set (L := Z.to_nat (11 - k)).
  set (frac := Py.rstrip0 (Py.digits L n)).
  set (a := Py.digits (Z.to_nat (k + 1)) (n / 10 ^ (11 - k))).
  set (b := match frac with EmptyString => "0" | _ => frac end).
  assert (Ha : Py.all_chars Py.is_digit a = true) by apply all_digits_digits.
  assert (Hfrac : Py.all_chars Py.is_digit frac = true).
  { apply (proj2 (rstrip0_spec Py.is_digit (Py.digits L n))), all_digits_digits. }
  assert (Hb : Py.all_chars Py.is_digit b = true).
  { unfold b. destruct frac; [reflexivity | exact Hfrac]. }
  rewrite (replace1_point a b Ha Hb).
  assert (Hla : String.length a = Z.to_nat (k + 1)) by apply length_digits.
  pose proof (rstrip0_zeros (Py.digits L n)) as Hpad. fold frac in Hpad.
  rewrite length_digits in Hpad.
  assert (Hlf : (String.length frac <= L)%nat).
  { pose proof (proj1 (rstrip0_spec Py.is_digit (Py.digits L n))) as H.
    now rewrite length_digits in H. }
  assert (Hsplit : Py.digits 12 n = a +:+ Py.digits L n).
  { replace 12%nat with (Z.to_nat (k + 1) + L)%nat by (unfold L; lia).
    rewrite digits_add. unfold a.
    replace (Z.of_nat L) with (11 - k) by (unfold L; lia). reflexivity. }
  unfold Py.ljust. fold (zeros (14 - String.length (a +:+ b))).
  rewrite length_append, Hla, Hsplit, !append_assoc. f_equal.
  change "00" with (zeros 2).
  rewrite Hpad. rewrite append_assoc, <- zeros_add.
  unfold b. destruct frac as [|c r] eqn:Ef.
  - rewrite append_nil. cbn [String.length].
    change "0" with (zeros 1). rewrite <- zeros_add. f_equal. unfold L. lia.
  - f_equal. f_equal. cbn [String.length] in *. unfold L in *. lia.
Qed.

(** In the years 2001 to 2286 the twelve digits are the seconds and their
    hundredths. *)
Lemma sig12_epoch (now : Q) :
  (1000000000 # 1 <= now)%Q -> (now < 9999999999995 # 1000)%Q ->
  Py.sig12 now = (Py.rne (now * (100 # 1)), 9).
Proof.
  intros H1 H2. unfold Py.sig12, Py.decimal_exponent.
  assert (Hb : Qle_bool 1 now = true) by (apply Qle_bool_iff; lra).
  rewrite Hb.
  assert (Hlo : 10 ^ 9 <= Qfloor now).
  { change (10 ^ 9) with (Qfloor (inject_Z (10 ^ 9))). apply Qfloor_resp_le. exact H1. }
  assert (Hhi : Qfloor now < 10 ^ (9 + 1)).
  { rewrite Zlt_Qlt. eapply Qle_lt_trans; [apply Qfloor_le|].
    eapply Qlt_trans; [exact H2|]. reflexivity. }
  pose proof (ilog10_fuel_bounds (Z.to_nat (Z.log2 (Qfloor now))) (Qfloor now) 9
                ltac:(lia) Hhi) as Hk.
  fold (Py.ilog10 (Qfloor now)) in Hk.
  pose proof (ilog10_spec (Qfloor now) ltac:(lia)) as Hspec.
  assert (Ek : Py.ilog10 (Qfloor now) = 9).
  { assert (9 < Py.ilog10 (Qfloor now) + 1); [|lia].
    apply (Z.pow_lt_mono_r_iff 10); lia. }
  rewrite Ek. change (Py.pow10 (11 - 9)) with (100 # 1)%Q.
  assert (Hr : Py.rne (now * (100 # 1)) <= 999999999999).
  { apply rne_le. change (inject_Z 999999999999 + (1 # 2))%Q with (1999999999999 # 2)%Q. lra. }
  destruct (Z.eqb_spec (Py.rne (now * (100 # 1))) (10 ^ 12)) as [E|_]; [lia | reflexivity].
Qed.

(** X3: in the years 2001 to 2286 the id is the clock in hundredths of a
    second, rounded to the nearest (ties to the even one) and written with
    twelve digits, followed by two zeros: the last two characters carry
    nothing, and the id tells two moments apart only when they differ by
    a hundredth of a second. *)
Theorem generateId_centiseconds (now : Q) :
  (1000000000 # 1 <= now)%Q -> (now < 9999999999995 # 1000)%Q ->
  LycheePhoto.generateId now = Py.digits 12 (Py.rne (now * (100 # 1))) +:+ "00"
  /\ forall other : Q,
       (1000000000 # 1 <= other)%Q -> (other < 9999999999995 # 1000)%Q ->
       Py.rne (other * (100 # 1)) = Py.rne (now * (100 # 1)) ->
       LycheePhoto.generateId other = LycheePhoto.generateId now.
Proof.
  intros H1 H2.
  assert (Hid : forall t : Q,
            (1000000000 # 1 <= t)%Q -> (t < 9999999999995 # 1000)%Q ->
            LycheePhoto.generateId t = Py.digits 12 (Py.rne (t * (100 # 1))) +:+ "00").
  { intros t T1 T2. rewrite generateId_sig12 by lra. now rewrite sig12_epoch. }
  split; [now apply Hid|].
  intros other O1 O2 E. rewrite !Hid by assumption. now rewrite E.
Qed.

Lemma generateId_centiseconds_witness :
  LycheePhoto.generateId (1400000000123456 # 1000000) = "14000000001200"
  /\ LycheePhoto.generateId (1400000000119 # 1000)
     = LycheePhoto.generateId (1400000000123456 # 1000000).
Proof.
  assert (H1 : (1000000000 # 1 <= 1400000000123456 # 1000000)%Q) by discriminate.
  assert (H2 : (1400000000123456 # 1000000 < 9999999999995 # 1000)%Q) by reflexivity.
  destruct (generateId_centiseconds (1400000000123456 # 1000000) H1 H2) as [Hid Hsame].
  split.
  - rewrite Hid. vm_compute. reflexivity.
  - apply Hsame; [discriminate | reflexivity | vm_compute; reflexivity].
Defined.

(** ** Names and paths *)

Lemma lower_char_nat (c : ascii) :
  let n := nat_of_ascii c in
  nat_of_ascii (Py.lower_char c)
  = if (65 <=? n)%nat && (n <=? 90)%nat then (n + 32)%nat else n.
Proof.
  cbv zeta. unfold Py.lower_char.
  destruct ((65 <=? nat_of_ascii c)%nat && (nat_of_ascii c <=? 90)%nat) eqn:E;
    [|reflexivity].
  apply andb_prop in E as [E1 E2]. apply Nat.leb_le in E1, E2.
  apply nat_ascii_embedding. lia.
Qed.

Lemma lower_char_idempotent (c : ascii) :
  Py.lower_char (Py.lower_char c) = Py.lower_char c.
Proof.
  pose proof (lower_char_nat c) as H. cbv zeta in H.
  unfold Py.lower_char at 1. rewrite H.
  destruct ((65 <=? nat_of_ascii c)%nat && (nat_of_ascii c <=? 90)%nat) eqn:E.
  - apply andb_prop in E as [E1 E2]. apply Nat.leb_le in E1, E2.
    replace ((nat_of_ascii c + 32 <=? 90)%nat) with false
      by (symmetry; apply Nat.leb_gt; lia).
    now rewrite andb_false_r.
  - now rewrite E.
Qed.

Lemma lower_char_no_slash (c : ascii) : no_slash (Py.lower_char c) = no_slash c.
Proof.
  unfold no_slash. f_equal.
  destruct (Ascii.eqb_spec c "/") as [->|Hc]; [reflexivity|].
  apply Ascii.eqb_neq. intros E.
  pose proof (lower_char_nat c) as H. cbv zeta in H. rewrite E in H.
  change (nat_of_ascii "/") with 47%nat in H.
  destruct ((65 <=? nat_of_ascii c)%nat && (nat_of_ascii c <=? 90)%nat) eqn:E'.
  - apply andb_prop in E' as [E1 E2]. apply Nat.leb_le in E1, E2. lia.
  - apply Hc. rewrite <- (ascii_nat_embedding c), <- H. reflexivity.
Qed.

Lemma lower_append (s t : string) : Py.lower (s +:+ t) = Py.lower s +:+ Py.lower t.
Proof.
  induction s as [|c s IH]; [reflexivity|].
  rewrite append_cons. cbn [Py.lower]. now rewrite append_cons, IH.
Qed.

Lemma lower_idempotent (s : string) : Py.lower (Py.lower s) = Py.lower s.
Proof.
  induction s as [|c s IH]; [reflexivity|]. cbn [Py.lower].
  now rewrite lower_char_idempotent, IH.
Qed.

Lemma lower_no_slash (s : string) :
  Py.all_chars no_slash (Py.lower s) = Py.all_chars no_slash s.
Proof.
  induction s as [|c s IH]; [reflexivity|]. cbn [Py.lower Py.all_chars].
  now rewrite lower_char_no_slash, IH.
Qed.

Lemma all_chars_rev_app (p : ascii -> bool) (s t : string) :
  Py.all_chars p (String.rev_app s t) = Py.all_chars p s && Py.all_chars p t.
Proof.
  revert t. induction s as [|c s IH]; intros t; [reflexivity|].
  cbn [String.rev_app Py.all_chars]. rewrite IH. cbn [Py.all_chars].
  destruct (p c), (Py.all_chars p s); reflexivity.
Qed.

(** A base name has no slash. *)
Lemma basename_go_no_slash (cur p : string) :
  Py.all_chars no_slash cur = true ->
  Py.all_chars no_slash (Py.basename_go cur p) = true.
Proof.
  revert cur. induction p as [|c p IH]; intros cur Hcur; cbn [Py.basename_go].
  - unfold String.rev. now rewrite all_chars_rev_app, Hcur.
  - destruct (Ascii.eqb c "/") eqn:E; [now apply IH|].
    apply IH. cbn [Py.all_chars]. unfold no_slash at 1. now rewrite E, Hcur.
Qed.

Lemma basename_no_slash (p : string) : Py.all_chars no_slash (Py.basename p) = true.
Proof. now apply basename_go_no_slash. Qed.

(** The extension is an end of the name. *)
Lemma ext_go_suffix (seen : bool) (s e : string) :
  Py.ext_go seen s = Some e -> exists pre, s = pre +:+ e.
Proof.
  revert seen. induction s as [|c s IH]; intros seen; cbn [Py.ext_go]; [discriminate|].
  destruct (Py.ext_go (seen || negb (Ascii.eqb c ".")) s) as [e'|] eqn:E.
  - intros [= ->]. destruct (IH _ E) as [pre ->]. now exists (String c pre).
  - destruct (Ascii.eqb c "." && seen); [|discriminate].
    intros [= <-]. now exists "".
Qed.

Lemma splitext_ext_no_slash (p : string) :
  Py.all_chars no_slash (Py.splitext_ext p) = true.
Proof.
  unfold Py.splitext_ext.
  destruct (Py.ext_go false (Py.basename p)) as [e|] eqn:E; [|reflexivity].
  destruct (ext_go_suffix _ _ _ E) as [pre Hpre].
  pose proof (basename_no_slash p) as H. rewrite Hpre, all_chars_append in H.
  now apply andb_prop in H.
Qed.

Lemma rev_app_append (a b acc : string) :
  String.rev_app (a +:+ b) acc = String.rev_app b (String.rev_app a acc).
Proof.
  revert acc. induction a as [|c a IH]; intros acc; [reflexivity|].
  rewrite append_cons. cbn [String.rev_app]. apply IH.
Qed.

Lemma starts_with_slash_rev_app (b : string) (c : ascii) (x y : string) :
  Py.starts_with_slash (String.rev_app b (String c x))
  = Py.starts_with_slash (String.rev_app b (String c y)).
Proof.
  revert c x y. induction b as [|d b IH]; intros c x y; [reflexivity|].
  cbn [String.rev_app]. apply IH.
Qed.

(** Whether a path ends in a slash is a matter of its end. *)
Lemma ends_with_slash_append (a : string) (c : ascii) (b : string) :
  Py.ends_with_slash (a +:+ String c b) = Py.ends_with_slash (String c b).
Proof.
  unfold Py.ends_with_slash, String.rev. rewrite rev_app_append.
  cbn [String.rev_app]. apply starts_with_slash_rev_app.
Qed.

Lemma starts_with_slash_no_slash (s : string) :
  Py.all_chars no_slash s = true -> Py.starts_with_slash s = false.
Proof.
  destruct s as [|c s]; [reflexivity|]. cbn [Py.all_chars Py.starts_with_slash].
  intros [H _]%andb_prop. unfold no_slash in H. now apply negb_true_iff in H.
Qed.

Lemma eqb_append_nonempty (a : string) (c : ascii) (b : string) :
  String.eqb (a +:+ String c b) "" = false.
Proof. destruct a; reflexivity. Qed.

(** [os.path.join] of a directory, two plain names and a name without a
    slash. *)
Lemma join_uploads_big (dir url : string) :
  dir <> "" -> Py.ends_with_slash dir = false ->
  Py.all_chars no_slash url = true ->
  Py.join dir ["uploads"; "big"; url] = dir +:+ "/uploads/big/" +:+ url.
Proof.
  intros Hdir Hend Hurl. unfold Py.join. cbn [fold_left].
  change (Py.starts_with_slash "uploads") with false.
  change (Py.starts_with_slash "big") with false.
  rewrite (starts_with_slash_no_slash url Hurl). cbv iota.
  assert (E0 : String.eqb dir "" = false) by now apply String.eqb_neq.
  rewrite E0, Hend. cbn [orb].
  change ("/" +:+ "uploads") with "/uploads".
  rewrite eqb_append_nonempty, (ends_with_slash_append dir "/" "uploads").
  change (Py.ends_with_slash "/uploads") with false. cbn [orb].
  change ("/" +:+ "big") with "/big".
  rewrite eqb_append_nonempty, (ends_with_slash_append (dir +:+ "/uploads") "/" "big").
  change (Py.ends_with_slash "/big") with false. cbn [orb].
  rewrite !append_assoc. reflexivity.
Qed.

(** ** The steps of the build, in full *)

Lemma center_box_eq (sw sh : Z) :
  center_box sw sh
  = if sw >? sh then ((sw - sh) / 2, 0, sh + (sw - sh) / 2, sh)
    else (0, (sh - sw) / 2, sw, sw + (sh - sw) / 2).
Proof.
  unfold center_box. destruct (sw >? sh) eqn:E.
  - apply Z.gtb_lt in E. rewrite Z.min_r, Z.max_l by lia. now rewrite (Z.add_comm sh).
  - rewrite Z.gtb_ltb in E. apply Z.ltb_ge in E.
    rewrite Z.min_l, Z.max_r by lia. now rewrite (Z.add_comm sw).
Qed.

Section Outputs.
Context {R : Runtime}.
Variable conf : Conf.

Lemma generateThumbnail_output (self : LycheePhoto.t) (res : Z * Z) (w : world)
    (fmt : string) (img : PIL.image) (sw sh : Z) :
  fs w !! LycheePhoto.srcfullpath self = Some (PIL.Encoded fmt img) ->
  LycheePhoto.width self = Some sw -> LycheePhoto.height self = Some sh ->
  let d := mkstemp (fs w) in
  LycheePhoto.generateThumbnail conf self res w
  = (Ok d, after [Mkstemp d; Open (LycheePhoto.srcfullpath self); Save d]
             (<[d := thumbnail_file conf img sw sh res]> (fs w)) w).
Proof.
  intros Hsrc Hw Hh d.
  unfold LycheePhoto.generateThumbnail. rewrite Hw, Hh. cbn [attr].
  unfold bind at 1. cbn [ret]. unfold bind at 1. cbn [ret].
  unfold thumbnail_file. rewrite center_box_eq.
  destruct (if sw >? sh
            then ((sw - sh) / 2, 0, sh + (sw - sh) / 2, sh)
            else (0, (sh - sw) / 2, sw, sw + (sh - sw) / 2)) as [[[x0 y0] x1] y1].
  destruct (run_NamedTemporaryFile w) as [Htmp Hfresh]. fold d in Htmp, Hfresh.
  rewrite (bind_ok _ _ _ _ _ Htmp).
  erewrite (bind_ok (Image_open _));
    [|eapply run_Image_open; unfold stored, logged; cbn [fs]; apply fresh_keeps, Hsrc].
  rewrite (bind_ok _ _ _ _ _ (run_Image_save _ _ _ _ _)).
  unfold ret, after, stored, logged. cbn [fs ticks trace].
  rewrite insert_insert_eq, <- !app_assoc. reflexivity.
Qed.

Lemma resize_output (self : LycheePhoto.t) (size : Z) (w : world)
    (fmt : string) (img : PIL.image) :
  fs w !! LycheePhoto.srcfullpath self = Some (PIL.Encoded fmt img) ->
  let src := LycheePhoto.srcfullpath self in
  let temp := mkstemp (fs w) in
  LycheePhoto.resize conf self size w
  = (Ok (if resize_needed img size then temp else src),
     after (resize_trace src temp img size)
       (<[temp := resized_file conf img size]> (fs w)) w).
Proof.
  intros Hsrc src temp.
  pose proof (resize_runs conf self size w fmt img Hsrc) as H. cbv zeta in H.
  rewrite H. unfold resized_file, resize_trace, resize_needed.
  destruct (size <? _); reflexivity.
Qed.

End Outputs.

Section Derived.
Context {R : Runtime}.
Variable conf : Conf.

Lemma derivatives_full (self : LycheePhoto.t) (w : world) (fmt : string)
    (img : PIL.image) (sw sh : Z) :
  fs w !! LycheePhoto.srcfullpath self = Some (PIL.Encoded fmt img) ->
  LycheePhoto.width self = Some sw -> LycheePhoto.height self = Some sh ->
  let d := derive conf (LycheePhoto.srcfullpath self) img sw sh (fs w) in
  derivatives conf self w
  = (Ok (LycheePhoto.set_checksum (sha1_hex (PIL.Encoded fmt img))
           (LycheePhoto.set_big_path (Derived.big d)
              (LycheePhoto.set_medium_path (Derived.medium d)
                 (LycheePhoto.set_thumbnailx2fullpath (Derived.large d)
                    (LycheePhoto.set_thumbnailfullpath (Derived.small d) self))))),
     after (Derived.events d) (Derived.files4 d) w).
Proof.
  intros Hsrc Hw Hh d. unfold derivatives.
  set (src := LycheePhoto.srcfullpath self) in *.
  rewrite (bind_ok _ _ _ _ _
             (generateThumbnail_output conf self LycheePhoto.SMALL_THUMB_SIZE w
                fmt img sw sh Hsrc Hw Hh)).
  fold src.
  set (w1 := after _ _ w).
  assert (Hsrc1 : fs w1 !! src = Some (PIL.Encoded fmt img)) by now apply after_keeps.
  set (self1 := LycheePhoto.set_thumbnailfullpath _ self).
  rewrite (bind_ok _ _ _ _ _
             (generateThumbnail_output conf self1 LycheePhoto.BIG_THUMB_SIZE w1
                fmt img sw sh Hsrc1 Hw Hh)).
  change (LycheePhoto.srcfullpath self1) with src.
  set (w2 := after _ _ w1).
  assert (Hsrc2 : fs w2 !! src = Some (PIL.Encoded fmt img)) by now apply after_keeps.
  set (self2 := LycheePhoto.set_thumbnailx2fullpath _ self1).
  rewrite (bind_ok _ _ _ _ _ (resize_output conf self2 (medium_size conf) w2 fmt img Hsrc2)).
  change (LycheePhoto.srcfullpath self2) with src.
  set (w3 := after _ _ w2).
  assert (Hsrc3 : fs w3 !! src = Some (PIL.Encoded fmt img)) by now apply after_keeps.
  set (self3 := LycheePhoto.set_medium_path _ self2).
  unfold LycheePhoto.generateHash, read_sha1.
  destruct (big_size conf) as [size|] eqn:Ebig.
  - rewrite (bind_ok _ _ _ _ _ (resize_output conf self3 size w3 fmt img Hsrc3)).
    change (LycheePhoto.srcfullpath self3) with src.
    set (w4 := after _ _ w3).
    assert (Hsrc4 : fs w4 !! src = Some (PIL.Encoded fmt img)) by now apply after_keeps.
    unfold bind, emit, stat, ret. cbn [fs].
    change (LycheePhoto.srcfullpath (LycheePhoto.set_big_path _ self3)) with src.
    change (fs w4 !! src) with (fs w4 !! src) in *.
    rewrite Hsrc4. unfold d, derive. rewrite Ebig. cbn [Derived.small Derived.large Derived.medium Derived.big Derived.files4 Derived.events].
    f_equal. unfold w4, w3, w2, w1, after. cbn [fs ticks trace].
    rewrite <- !app_assoc. reflexivity.
  - unfold bind at 1, ret at 1.
    unfold bind, emit, stat, ret. cbn [fs].
    change (LycheePhoto.srcfullpath (LycheePhoto.set_big_path _ self3)) with src.
    rewrite Hsrc3. unfold d, derive. rewrite Ebig. cbn [Derived.small Derived.large Derived.medium Derived.big Derived.files4 Derived.events].
    f_equal. unfold w3, w2, w1, after. cbn [fs ticks trace].
    rewrite <- !app_assoc. reflexivity.
Qed.

(** The object and the world when [__init__] comes out of the [try] block
    on a source that decodes. *)
Lemma init_decodable_eq (full_path : string) (album_id : Z) (w : world) (fmt : string)
    (img : PIL.image) :
  fs w !! full_path = Some (PIL.Encoded fmt img) ->
  let w1 := logged (Open full_path) (at_try full_path w) in
  let self1 := LycheePhoto.set_width_height (PIL.size img)
                 (new_photo conf full_path album_id (clock (ticks w))
                    (st_size (PIL.Encoded fmt img)) (At (clock (S (ticks w))))) in
  LycheePhoto.__init__ conf full_path album_id w
  = match PIL._getexif img with
    | Some (Some items) =>
        match fst (LycheePhoto.exif_items self1 items w1) with
        | Ok self' =>
            derivatives conf
              (LycheePhoto.set_description
                 (LycheePhoto.Stamp (LycheePhoto.datetime_ self')) self') w1
        | Raise e => (Raise e, w1)
        end
    | _ => derivatives conf self1 w1
    end.
Proof.
  intros Hf w1 self1. rewrite (init_prefix conf _ _ _ _ Hf).
  assert (Hparse :
    LycheePhoto.parse_exif
      (new_photo conf full_path album_id (clock (ticks w))
         (st_size (PIL.Encoded fmt img)) (At (clock (S (ticks w)))))
      (at_try full_path w)
    = match PIL._getexif img with
      | Some (Some items) =>
          match fst (LycheePhoto.exif_items self1 items w1) with
          | Ok self' =>
              (Ok (LycheePhoto.set_description
                     (LycheePhoto.Stamp (LycheePhoto.datetime_ self')) self'), w1)
          | Raise e => (Raise e, w1)
          end
      | _ => (Ok self1, w1)
      end)
    by exact (parse_exif_runs
                (new_photo conf full_path album_id (clock (ticks w))
                   (st_size (PIL.Encoded fmt img)) (At (clock (S (ticks w)))))
                (at_try full_path w) fmt img Hf).
  unfold bind at 1. rewrite Hparse.
  destruct (PIL._getexif img) as [[items|]|]; try reflexivity.
  destruct (fst (LycheePhoto.exif_items self1 items w1)); reflexivity.
Qed.

End Derived.

(** ** The tags, in full *)

Section Fields.
Context {R : Runtime}.

Lemma only_tags_refl (a : LycheePhoto.t) : only_tags a a.
Proof. now destruct a. Qed.

Lemma only_tags_trans (a b c : LycheePhoto.t) :
  only_tags a b -> only_tags b c -> only_tags a c.
Proof. unfold only_tags. intros Hb Hc. rewrite Hc, Hb. now destruct a. Qed.

Lemma only_tags_exif (decode : option string) (name : string)
    (f : PIL.value -> ExifData.t -> ExifData.t) (v : PIL.value) (a : LycheePhoto.t) :
  only_tags a (if LycheePhoto.is_tag decode name
               then LycheePhoto.set_exif (f v (LycheePhoto.exif a)) a else a).
Proof. destruct (LycheePhoto.is_tag decode name); now destruct a. Qed.

Lemma TAGS_get_spec (tag : Z) :
  (tag = 274 /\ PIL.TAGS_get tag = Some "Orientation")
  \/ (tag = 271 /\ PIL.TAGS_get tag = Some "Make")
  \/ (tag = 272 /\ PIL.TAGS_get tag = Some "Model")
  \/ (tag = 306 /\ PIL.TAGS_get tag = Some "DateTime")
  \/ (tag = 33434 /\ PIL.TAGS_get tag = Some "ExposureTime")
  \/ (tag = 34855 /\ PIL.TAGS_get tag = Some "ISOSpeedRatings")
  \/ (tag = 37381 /\ PIL.TAGS_get tag = Some "MaxApertureValue")
  \/ (tag = 37386 /\ PIL.TAGS_get tag = Some "FocalLength")
  \/ (~ In tag [274; 271; 272; 306; 33434; 34855; 37381; 37386]
      /\ PIL.TAGS_get tag = None).
Proof.
  unfold PIL.TAGS_get.
  repeat match goal with
         | |- context [tag =? ?b] => destruct (Z.eqb_spec tag b); [subst tag; tauto|]
         end.
  do 8 right. split; [|reflexivity]. cbn. intuition congruence.
Qed.

(** One tag that does not raise: the field of its name, if it has one, takes
    the value; the other fields stay. *)
Lemma exif_item_fields (self self' : LycheePhoto.t) (tag : Z) (v : PIL.value)
    (w w' : world) :
  LycheePhoto.exif_item self (tag, v) w = (Ok self', w') ->
  only_tags self self'
  /\ ExifData._takedate (LycheePhoto.exif self') = ExifData._takedate (LycheePhoto.exif self)
  /\ ExifData.taketime (LycheePhoto.exif self') = ExifData.taketime (LycheePhoto.exif self)
  /\ forall t get, In (t, get) stored_tags ->
       get (LycheePhoto.exif self')
       = if tag =? t then v else get (LycheePhoto.exif self).
Proof.
  unfold LycheePhoto.exif_item.
  destruct (TAGS_get_spec tag)
    as [[-> Hd]|[[-> Hd]|[[-> Hd]|[[-> Hd]|[[-> Hd]|[[-> Hd]|[[-> Hd]|[[-> Hd]|[Hno Hd]]]]]]]]];
    rewrite Hd; cbn [LycheePhoto.is_tag String.eqb Ascii.eqb Bool.eqb];
    try (destruct v as [n|s|nu de]; try discriminate;
         destruct (strptime s) as [f|]; try discriminate);
    intros [= <- <-];
    (split; [now destruct self|]); (split; [reflexivity|]); (split; [reflexivity|]);
    intros t get Hin; cbn in Hin;
    repeat (destruct Hin as [[= <- <-] | Hin]); try destruct Hin; try reflexivity;
    match goal with
    | |- context [tag =? ?b] =>
        destruct (Z.eqb_spec tag b); [exfalso; apply Hno; subst tag; cbn; tauto | reflexivity]
    end.
Qed.

(** The loop, when it does not raise, leaves the world as it is and changes
    nothing of the photo but its tags and its date; the two date strings of
    the tags stay as they were. *)
Lemma exif_items_only_tags (self self' : LycheePhoto.t) (items : list (Z * PIL.value))
    (w w' : world) :
  LycheePhoto.exif_items self items w = (Ok self', w') ->
  w' = w
  /\ only_tags self self'
  /\ ExifData._takedate (LycheePhoto.exif self') = ExifData._takedate (LycheePhoto.exif self)
  /\ ExifData.taketime (LycheePhoto.exif self') = ExifData.taketime (LycheePhoto.exif self).
Proof.
  revert self. induction items as [|[tag v] items IH]; intros self Hrun.
  - injection Hrun as <- <-. split; [reflexivity|]. split; [apply only_tags_refl|].
    split; reflexivity.
  - cbn [LycheePhoto.exif_items] in Hrun.
    destruct (exif_item_runs self tag v w)
      as [(s1 & Hrun1 & _) | (_ & [(s & _ & _ & Hr) | (_ & Hr)])];
      [|rewrite (bind_raise _ _ _ _ _ Hr) in Hrun; discriminate Hrun..].
    rewrite (bind_ok _ _ _ _ _ Hrun1) in Hrun.
    destruct (exif_item_fields _ _ _ _ _ _ Hrun1) as (O1 & T1 & K1 & _).
    destruct (IH s1 Hrun) as (-> & O2 & T2 & K2).
    split; [reflexivity|]. split; [eapply only_tags_trans; eassumption|].
    split; congruence.
Qed.

(** The loop, when it does not raise and the keys are distinct, as a
    dictionary's are: each field holds the value of its tag, and the class
    default (what it held before) when the tag is absent; the date is the
    parsed [DateTime] tag. *)
Lemma exif_items_fields (self self' : LycheePhoto.t) (items : list (Z * PIL.value))
    (w w' : world) :
  LycheePhoto.exif_items self items w = (Ok self', w') ->
  List.NoDup (map fst items) ->
  w' = w
  /\ only_tags self self'
  /\ ExifData._takedate (LycheePhoto.exif self') = ExifData._takedate (LycheePhoto.exif self)
  /\ ExifData.taketime (LycheePhoto.exif self') = ExifData.taketime (LycheePhoto.exif self)
  /\ (forall t get, In (t, get) stored_tags ->
        (forall v, In (t, v) items -> get (LycheePhoto.exif self') = v)
        /\ (~ In t (map fst items) ->
            get (LycheePhoto.exif self') = get (LycheePhoto.exif self)))
  /\ (forall s f, In (306, PIL.VStr s) items -> strptime s = Some f ->
        LycheePhoto.datetime_ self' = Fields f)
  /\ (~ In 306 (map fst items) ->
      LycheePhoto.datetime_ self' = LycheePhoto.datetime_ self).
Proof.
  revert self. induction items as [|[tag v] items IH]; intros self Hrun Hnd.
  - injection Hrun as <- <-. split; [reflexivity|]. split; [apply only_tags_refl|].
    repeat split; try reflexivity; intros; contradiction.
  - cbn [LycheePhoto.exif_items] in Hrun. cbn [map fst] in Hnd.
    apply NoDup_cons_iff in Hnd as [Hhead Hnd].
    destruct (exif_item_runs self tag v w)
      as [(s1 & Hrun1 & _ & D1 & D2) | (_ & [(s & _ & _ & Hr) | (_ & Hr)])];
      [|rewrite (bind_raise _ _ _ _ _ Hr) in Hrun; discriminate Hrun..].
    rewrite (bind_ok _ _ _ _ _ Hrun1) in Hrun.
    destruct (exif_item_fields _ _ _ _ _ _ Hrun1) as (O1 & T1 & K1 & F1).
    destruct (IH s1 Hrun Hnd) as (-> & O2 & T2 & K2 & F2 & P2 & A2).
    split; [reflexivity|]. split; [eapply only_tags_trans; eassumption|].
    split; [congruence|]. split; [congruence|].
    assert (Hkey : forall t (x : PIL.value), In (t, x) items -> In t (map fst items)).
    { intros t x Hin. change t with (fst (t, x)). now apply in_map. }
    split; [|split].
    + intros t get Hin. destruct (F2 t get Hin) as [Fa Fb].
      specialize (F1 t get Hin). split.
      * intros x [[= -> ->] | Hx]; [|now apply Fa].
        rewrite (Fb Hhead), F1, Z.eqb_refl. reflexivity.
      * intros Hno. cbn [map fst In] in Hno.
        rewrite Fb by tauto. rewrite F1.
        destruct (Z.eqb_spec tag t); [tauto | reflexivity].
    + intros s f [[= -> ->] | Hin] Hs; [|now apply (P2 s f)].
      rewrite (A2 Hhead). now apply (D2 s f).
    + intros Hno. cbn [map fst In] in Hno.
      rewrite A2 by tauto. apply D1. tauto.
Qed.

(** A [DateTime] tag that parses, among distinct keys: the loop does not
    raise. *)
Lemma exif_items_parsed (self : LycheePhoto.t) (items : list (Z * PIL.value))
    (w : world) :
  List.NoDup (map fst items) ->
  (forall v, In (306, v) items -> exists s f, v = PIL.VStr s /\ strptime s = Some f) ->
  exists self', LycheePhoto.exif_items self items w = (Ok self', w).
Proof.
  revert self. induction items as [|[tag v] items IH]; intros self Hnd Hdate.
  - now exists self.
  - cbn [map fst] in Hnd. apply NoDup_cons_iff in Hnd as [_ Hnd].
    cbn [LycheePhoto.exif_items].
    destruct (exif_item_runs self tag v w)
      as [(s1 & Hrun1 & _) | (-> & [(s & -> & Hs & _) | (Hv & _)])].
    + rewrite (bind_ok _ _ _ _ _ Hrun1). apply IH; [exact Hnd|].
      intros x Hx. apply Hdate. now right.
    + destruct (Hdate (PIL.VStr s)) as (s0 & f & [= <-] & Hf); [now left|]. congruence.
    + destruct (Hdate v) as (s0 & f & -> & _); [now left|]. now destruct (Hv s0).
Qed.

(** A [DateTime] tag whose value is no string makes the loop raise
    [TypeError]. *)
Lemma exif_items_bad_type (self : LycheePhoto.t) (items : list (Z * PIL.value))
    (v : PIL.value) (w : world) :
  List.NoDup (map fst items) -> In (306, v) items -> (forall s, v <> PIL.VStr s) ->
  LycheePhoto.exif_items self items w = (Raise TypeError, w).
Proof.
  intros Hnd Hin Hv. revert self.
  induction items as [|[tag x] items IH]; intros self; [destruct Hin|].
  cbn [map fst] in Hnd. apply NoDup_cons_iff in Hnd as [Hhead Hnd].
  cbn [LycheePhoto.exif_items].
  destruct Hin as [[= -> ->] | Hin].
  - destruct (exif_item_runs self 306 v w)
      as [(s1 & Hrun & _ & _ & _) | (_ & [(s & -> & _) | (_ & Hrun)])].
    + exfalso. revert Hrun. unfold LycheePhoto.exif_item. cbn.
      destruct v as [n|s|a b]; [discriminate | now destruct (Hv s) | discriminate].
    + now destruct (Hv s).
    + now rewrite (bind_raise _ _ _ _ _ Hrun).
  - assert (Htag : tag <> 306).
    { intros ->. apply Hhead. change 306 with (fst (306, v)). now apply in_map. }
    destruct (exif_item_runs self tag x w)
      as [(s1 & Hrun & _) | (Htag' & _)]; [|contradiction].
    rewrite (bind_ok _ _ _ _ _ Hrun). now apply IH.
Qed.

End Fields.

Lemma NoDup_keys_functional {A B} (l : list (A * B)) (k : A) (a b : B) :
  List.NoDup (map fst l) -> In (k, a) l -> In (k, b) l -> a = b.
Proof.
  induction l as [|[k0 x] l IH]; intros Hnd Ha Hb; [destruct Ha|].
  cbn [map fst] in Hnd. apply NoDup_cons_iff in Hnd as [Hhead Hnd].
  assert (Hkey : forall y, In (k0, y) l -> False).
  { intros y Hy. apply Hhead. change k0 with (fst (k0, y)). now apply in_map. }
  destruct Ha as [Ha | Ha], Hb as [Hb | Hb].
  - congruence.
  - injection Ha as -> ->. now destruct (Hkey b).
  - injection Hb as -> ->. now destruct (Hkey a).
  - now apply IH.
Qed.


(** X4: the tag loop does not depend on the order in which the dictionary
    lists its items (an order Python does not fix): two listings of the same
    items, with distinct keys, give the same photo, or raise the same
    error. *)
Theorem tags_order_irrelevant {R : Runtime} (self : LycheePhoto.t)
    (items items' : list (Z * PIL.value)) (w : world) :
  List.NoDup (map fst items) -> Permutation items items' ->
  LycheePhoto.exif_items self items w = LycheePhoto.exif_items self items' w.
Proof.
  intros Hnd Hperm.
  assert (Hnd' : List.NoDup (map fst items')).
  { eapply Permutation_NoDup; [|exact Hnd]. now apply Permutation_map. }
  assert (Hin : forall x, In x items <-> In x items').
  { intros x. split; apply Permutation_in; [exact Hperm | now apply Permutation_sym]. }
  assert (Hkey : forall t, In t (map fst items) <-> In t (map fst items')).
  { intros t. split; apply Permutation_in;
      [now apply Permutation_map | now apply Permutation_sym, Permutation_map]. }
  destruct (LycheePhoto.exif_items self items w) as [[a|e] wa] eqn:Ha.
  - (* the first listing gives a photo: so does the second, and the same *)
    destruct (exif_items_fields _ _ _ _ _ Ha Hnd) as (-> & Oa & Ta & Ka & Fa & Pa & Aa).
    assert (Hdate : forall v, In (306, v) items' ->
                      exists s f, v = PIL.VStr s /\ strptime s = Some f).
    { intros v Hv. apply Hin in Hv.
      destruct v as [n|s|x y].
      - rewrite (exif_items_bad_type self items _ w Hnd Hv) in Ha by discriminate.
        discriminate Ha.
      - destruct (strptime s) as [f|] eqn:Es; [eauto|].
        rewrite (exif_items_malformed self items s w Hnd Hv Es) in Ha. discriminate Ha.
      - rewrite (exif_items_bad_type self items _ w Hnd Hv) in Ha by discriminate.
        discriminate Ha. }
    destruct (exif_items_parsed self items' w Hnd' Hdate) as [b Hb]. rewrite Hb.
    destruct (exif_items_fields _ _ _ _ _ Hb Hnd') as (_ & Ob & Tb & Kb & Fb & Pb & Ab).
    f_equal. f_equal.
    assert (Hfield : forall t get, In (t, get) stored_tags ->
                       get (LycheePhoto.exif a) = get (LycheePhoto.exif b)).
    { intros t get Ht. destruct (Fa t get Ht) as [Fa1 Fa2], (Fb t get Ht) as [Fb1 Fb2].
      destruct (in_dec Z.eq_dec t (map fst items)) as [Hi|Hn].
      - apply in_map_iff in Hi as ([t' v] & Et & Hv). cbn in Et. subst t'.
        rewrite (Fa1 v Hv). symmetry. apply Fb1. now apply Hin.
      - rewrite (Fa2 Hn). symmetry. apply Fb2. now rewrite <- Hkey. }
    assert (Hexif : LycheePhoto.exif a = LycheePhoto.exif b).
    { pose proof (Hfield 274 ExifData.orientation (or_introl eq_refl)) as H1.
      pose proof (Hfield 271 ExifData.make (or_intror (or_introl eq_refl))) as H2.
      pose proof (Hfield 37381 ExifData.aperture
                    (or_intror (or_intror (or_introl eq_refl)))) as H3.
      pose proof (Hfield 37386 ExifData.focal
                    (or_intror (or_intror (or_intror (or_introl eq_refl))))) as H4.
      pose proof (Hfield 34855 ExifData.iso
                    (or_intror (or_intror (or_intror (or_intror (or_introl eq_refl))))))
        as H5.
      pose proof (Hfield 272 ExifData.model
                    (or_intror (or_intror (or_intror (or_intror (or_intror
                       (or_introl eq_refl))))))) as H6.
      pose proof (Hfield 33434 ExifData.shutter
                    (or_intror (or_intror (or_intror (or_intror (or_intror (or_intror
                       (or_introl eq_refl)))))))) as H7.
      destruct (LycheePhoto.exif a), (LycheePhoto.exif b).
      cbn [ExifData.orientation ExifData.make ExifData.aperture ExifData.focal
           ExifData.iso ExifData.model ExifData.shutter ExifData._takedate
           ExifData.taketime] in *.
      congruence. }
    assert (Hdt : LycheePhoto.datetime_ a = LycheePhoto.datetime_ b).
    { destruct (in_dec Z.eq_dec 306 (map fst items)) as [Hi|Hn].
      - apply in_map_iff in Hi as ([t' v] & Et & Hv). cbn in Et. subst t'.
        destruct (Hdate v (proj1 (Hin _) Hv)) as (s & f & -> & Hs).
        rewrite (Pa s f Hv Hs). symmetry. apply (Pb s f); [now apply Hin | exact Hs].
      - rewrite (Aa Hn). symmetry. apply Ab. now rewrite <- Hkey. }
    unfold only_tags in Oa, Ob. rewrite Oa, Ob, Hexif, Hdt. reflexivity.
  - (* the first listing raises: at the [DateTime] tag, and so does the second *)
    destruct (exif_items_runs self items w) as [(s' & Hr & _) | (e' & Hr & He & Hi)];
      [congruence|].
    rewrite Ha in Hr. injection Hr as -> ->.
    apply in_map_iff in Hi as ([t' v] & Et & Hv). cbn in Et. subst t'.
    assert (Hv' : In (306, v) items') by now apply Hin.
    destruct v as [n|s|x y].
    + rewrite (exif_items_bad_type self items _ w Hnd Hv) in Ha by discriminate.
      rewrite (exif_items_bad_type self items' _ w Hnd' Hv') by discriminate.
      now symmetry.
    + destruct (strptime s) as [f|] eqn:Es.
      * destruct (exif_items_parsed self items w Hnd) as [b Hb]; [|congruence].
        intros v Hvv. exists s, f. split; [|exact Es].
        exact (NoDup_keys_functional items 306 v (PIL.VStr s) Hnd Hvv Hv).
      * rewrite (exif_items_malformed self items s w Hnd Hv Es) in Ha.
        rewrite (exif_items_malformed self items' s w Hnd' Hv' Es). now symmetry.
    + rewrite (exif_items_bad_type self items _ w Hnd Hv) in Ha by discriminate.
      rewrite (exif_items_bad_type self items' _ w Hnd' Hv') by discriminate.
      now symmetry.
Qed.

Lemma tags_order_irrelevant_witness :
  LycheePhoto.exif_items
    (Sample.photo Sample.src (Some (4000, 3000)) 0 "" None None None)
    [(271, PIL.VStr "NIKON"); (306, PIL.VStr "2014:06:01 12:30:05"); (274, PIL.VInt 6)]
    (Sample.disk [])
  = LycheePhoto.exif_items
      (Sample.photo Sample.src (Some (4000, 3000)) 0 "" None None None)
      [(274, PIL.VInt 6); (271, PIL.VStr "NIKON"); (306, PIL.VStr "2014:06:01 12:30:05")]
      (Sample.disk []).
Proof.
  apply tags_order_irrelevant.
  - cbn. repeat constructor; cbn; intuition discriminate.
  - apply Permutation_sym, (Permutation_cons_app [_; _] []). reflexivity.
Defined.

(** ** What a build does *)

Section Built.
Context {R : Runtime}.
Variable conf : Conf.

(** What a build that returns a photo has done. *)
Lemma init_ok (full_path : string) (album_id : Z) (w w' : world) (p : LycheePhoto.t) :
  LycheePhoto.__init__ conf full_path album_id w = (Ok p, w') ->
  exists (fmt : string) (img : PIL.image) (self' : LycheePhoto.t) (de : LycheePhoto.descr),
    let self1 := opened_photo conf full_path album_id w (PIL.Encoded fmt img) img in
    let w1 := logged (Open full_path) (at_try full_path w) in
    let d := derive conf full_path img (fst (PIL.size img)) (snd (PIL.size img)) (fs w) in
    fs w !! full_path = Some (PIL.Encoded fmt img)
    /\ only_tags self1 self'
    /\ match PIL._getexif img with
       | Some (Some items) =>
           LycheePhoto.exif_items self1 items w1 = (Ok self', w1)
           /\ de = LycheePhoto.Stamp (LycheePhoto.datetime_ self')
       | _ => self' = self1 /\ de = LycheePhoto.Text ""
       end
    /\ p = LycheePhoto.set_checksum (sha1_hex (PIL.Encoded fmt img))
             (LycheePhoto.set_big_path (Derived.big d)
                (LycheePhoto.set_medium_path (Derived.medium d)
                   (LycheePhoto.set_thumbnailx2fullpath (Derived.large d)
                      (LycheePhoto.set_thumbnailfullpath (Derived.small d)
                         (LycheePhoto.set_description de self')))))
    /\ w' = after (Derived.events d) (Derived.files4 d) w1.
Proof.
  intros Hrun.
  destruct (fs w !! full_path) as [[data|fmt img]|] eqn:Hf.
  - rewrite (init_undecodable conf _ _ _ _ Hf) in Hrun by discriminate.
    discriminate Hrun.
  - exists fmt, img.
    rewrite (init_decodable_eq conf full_path album_id w fmt img Hf) in Hrun.
    fold (opened_photo conf full_path album_id w (PIL.Encoded fmt img) img) in Hrun.
    set (self1 := opened_photo conf full_path album_id w (PIL.Encoded fmt img) img) in *.
    set (w1 := logged (Open full_path) (at_try full_path w)) in *.
    assert (Hder : forall self de,
              only_tags self1 self ->
              derivatives conf (LycheePhoto.set_description de self) w1 = (Ok p, w') ->
              let d := derive conf full_path img (fst (PIL.size img)) (snd (PIL.size img))
                         (fs w) in
              p = LycheePhoto.set_checksum (sha1_hex (PIL.Encoded fmt img))
                    (LycheePhoto.set_big_path (Derived.big d)
                       (LycheePhoto.set_medium_path (Derived.medium d)
                          (LycheePhoto.set_thumbnailx2fullpath (Derived.large d)
                             (LycheePhoto.set_thumbnailfullpath (Derived.small d)
                                (LycheePhoto.set_description de self)))))
              /\ w' = after (Derived.events d) (Derived.files4 d) w1).
    { intros self de Ho Hd. cbv zeta.
      assert (Es : LycheePhoto.srcfullpath (LycheePhoto.set_description de self) = full_path)
        by (rewrite Ho; reflexivity).
      rewrite (derivatives_full conf (LycheePhoto.set_description de self) w1 fmt img
                 (fst (PIL.size img)) (snd (PIL.size img))) in Hd.
      - rewrite Es in Hd. injection Hd as <- <-. split; reflexivity.
      - rewrite Es. exact Hf.
      - rewrite Ho. reflexivity.
      - rewrite Ho. reflexivity. }
    destruct (PIL._getexif img) as [[items|]|].
    + destruct (exif_items_runs self1 items w1)
        as [(s' & Hr & _) | (e & Hr & _)]; rewrite Hr in Hrun; cbn [fst] in Hrun;
        [|discriminate Hrun].
      exists s', (LycheePhoto.Stamp (LycheePhoto.datetime_ s')).
      assert (Ho : only_tags self1 s') by apply (exif_items_only_tags _ _ _ _ _ Hr).
      cbv zeta. split; [reflexivity|]. split; [exact Ho|]. split; [now split|].
      now apply Hder.
    + exists self1, (LycheePhoto.Text ""). cbv zeta.
      split; [reflexivity|]. split; [apply only_tags_refl|]. split; [now split|].
      apply (Hder self1 (LycheePhoto.Text "")); [apply only_tags_refl | exact Hrun].
    + exists self1, (LycheePhoto.Text ""). cbv zeta.
      split; [reflexivity|]. split; [apply only_tags_refl|]. split; [now split|].
      apply (Hder self1 (LycheePhoto.Text "")); [apply only_tags_refl | exact Hrun].
  - rewrite (init_missing conf _ _ _ Hf) in Hrun. discriminate Hrun.
Qed.

End Built.

Section NewFiles.
Context {R : Runtime}.
Variable conf : Conf.

(** A file written under a new name leaves every other file as it was. *)
Lemma mkstemp_insert_lookup (files : gmap string PIL.file) (x : PIL.file) (q : string)
    (f : PIL.file) :
  files !! q = Some f -> <[mkstemp files := x]> files !! q = Some f.
Proof.
  intros H. rewrite lookup_insert_ne; [exact H|].
  intros E. rewrite <- E, mkstemp_fresh in H. discriminate.
Qed.

Lemma mkstemp_insert_fresh (files : gmap string PIL.file) (x : PIL.file) (q : string) :
  <[mkstemp files := x]> files !! q = None -> files !! q = None /\ q <> mkstemp files.
Proof.
  intros H. destruct (decide (q = mkstemp files)) as [->|Ne].
  - rewrite lookup_insert_eq in H. discriminate.
  - rewrite lookup_insert_ne in H by congruence. now split.
Qed.

(** The names of the derivatives are new and differ from one another; the
    files that were there stay; the thumbnails are in place at the end. *)
Lemma derive_files (src : string) (img : PIL.image) (sw sh : Z)
    (files : gmap string PIL.file) :
  let d := derive conf src img sw sh files in
  (files !! Derived.small d = None /\ files !! Derived.large d = None /\ files !! Derived.medium_tmp d = None)
  /\ (Derived.small d <> Derived.large d /\ Derived.small d <> Derived.medium_tmp d /\ Derived.large d <> Derived.medium_tmp d)
  /\ (forall q f, files !! q = Some f -> Derived.files4 d !! q = Some f)
  /\ Derived.files4 d !! Derived.small d
     = Some (thumbnail_file conf img sw sh LycheePhoto.SMALL_THUMB_SIZE)
  /\ Derived.files4 d !! Derived.large d
     = Some (thumbnail_file conf img sw sh LycheePhoto.BIG_THUMB_SIZE)
  /\ Derived.files4 d !! Derived.medium_tmp d = Some (resized_file conf img (medium_size conf)).
Proof.
  intros d. unfold d, derive. cbn [Derived.small Derived.large Derived.medium_tmp Derived.files4].
  set (s := mkstemp files).
  set (f1 := <[s := thumbnail_file conf img sw sh LycheePhoto.SMALL_THUMB_SIZE]> files).
  set (l := mkstemp f1).
  set (f2 := <[l := thumbnail_file conf img sw sh LycheePhoto.BIG_THUMB_SIZE]> f1).
  set (m := mkstemp f2).
  set (f3 := <[m := resized_file conf img (medium_size conf)]> f2).
  set (f4 := match big_size conf with
             | Some size => <[mkstemp f3 := resized_file conf img size]> f3
             | None => f3
             end).
  pose proof (mkstemp_fresh files) as H1. fold s in H1.
  pose proof (mkstemp_fresh f1) as H2. fold l in H2.
  pose proof (mkstemp_fresh f2) as H3. fold m in H3.
  unfold f1 in H2. apply lookup_insert_None in H2 as [H2 N21].
  unfold f2, f1 in H3. rewrite !lookup_insert_None in H3. destruct H3 as [[H3 N31] N32].
  assert (F3 : forall q f, f3 !! q = Some f -> f4 !! q = Some f).
  { intros q f Hq. unfold f4. destruct (big_size conf); [|exact Hq].
    now apply mkstemp_insert_lookup. }
  split; [auto|]. split; [auto|].
  split; [|split; [|split]].
  - intros q f Hq. apply F3. unfold f3, f2, f1.
    rewrite !lookup_insert_ne; [exact Hq|congruence..].
  - apply F3. unfold f3, f2, f1.
    rewrite !lookup_insert_ne by congruence. apply lookup_insert_eq.
  - apply F3. unfold f3, f2.
    rewrite lookup_insert_ne by congruence. apply lookup_insert_eq.
  - apply F3. apply lookup_insert_eq.
Qed.

End NewFiles.

Section Outcome.
Context {R : Runtime}.
Variable conf : Conf.

(** How a build ends, by what the source path holds. *)
Lemma init_outcome (full_path : string) (album_id : Z) (w : world) :
  let w1 := logged (Open full_path) (at_try full_path w) in
  match fs w !! full_path with
  | None =>
      LycheePhoto.__init__ conf full_path album_id w
      = (Raise OSError,
         {| fs := fs w; ticks := S (ticks w);
            trace := trace w ++ [Clock (clock (ticks w)); Getsize full_path] |})
  | Some (PIL.Raw data) =>
      LycheePhoto.__init__ conf full_path album_id w
      = (Raise AttributeError, logged (Log "error" "IOError") w1)
  | Some (PIL.Encoded fmt img) =>
      let d := derive conf full_path img (fst (PIL.size img)) (snd (PIL.size img)) (fs w) in
      (exists p,
         LycheePhoto.__init__ conf full_path album_id w
         = (Ok p, after (Derived.events d) (Derived.files4 d) w1))
      \/ (exists e items,
            LycheePhoto.__init__ conf full_path album_id w = (Raise e, w1)
            /\ (e = ValueError \/ e = TypeError)
            /\ PIL._getexif img = Some (Some items)
            /\ In 306 (map fst items))
  end.
Proof.
  intros w1. destruct (fs w !! full_path) as [[data|fmt img]|] eqn:Hf.
  - apply (init_undecodable conf _ _ _ _ Hf). discriminate.
  - cbv zeta. rewrite (init_decodable_eq conf full_path album_id w fmt img Hf).
    fold w1. fold (opened_photo conf full_path album_id w (PIL.Encoded fmt img) img).
    set (self1 := opened_photo conf full_path album_id w (PIL.Encoded fmt img) img).
    assert (Hder : forall self de,
              only_tags self1 self ->
              exists p, derivatives conf (LycheePhoto.set_description de self) w1
                        = (Ok p, after (Derived.events (derive conf full_path img (fst (PIL.size img))
                                                  (snd (PIL.size img)) (fs w)))
                                   (Derived.files4 (derive conf full_path img (fst (PIL.size img))
                                              (snd (PIL.size img)) (fs w))) w1)).
    { intros self de Ho.
      rewrite (derivatives_full conf _ _ fmt img (fst (PIL.size img)) (snd (PIL.size img)));
        [|rewrite Ho; exact Hf | rewrite Ho; reflexivity..].
      replace (LycheePhoto.srcfullpath (LycheePhoto.set_description de self))
        with full_path by (rewrite Ho; reflexivity).
      eexists. reflexivity. }
    destruct (PIL._getexif img) as [[items|]|] eqn:Hexif.
    + destruct (exif_items_runs self1 items w1) as [(s' & Hr & _) | (e' & Hr & He & Hin)];
        rewrite Hr; cbn [fst].
      * left. apply Hder. apply (exif_items_only_tags _ _ _ _ _ Hr).
      * right. exists e', items. auto.
    + left. apply (Hder _ (LycheePhoto.Text "") (only_tags_refl _)).
    + left. apply (Hder _ (LycheePhoto.Text "") (only_tags_refl _)).
  - apply (init_missing conf _ _ _ Hf).
Qed.

End Outcome.

Section Undone.
Context {R : Runtime}.
Variable conf : Conf.

(** Removing the medium file and the two thumbnails from the disk a build
    leaves gives back the disk it found, but for the file of the big
    resize, when one is configured. *)
Lemma derive_undone (src : string) (img : PIL.image) (sw sh : Z)
    (files : gmap string PIL.file) :
  let d := derive conf src img sw sh files in
  delete (Derived.large d) (delete (Derived.small d) (delete (Derived.medium_tmp d) (Derived.files4 d)))
  = match big_size conf with
    | Some size => <[mkstemp (Derived.files3 d) := resized_file conf img size]> files
    | None => files
    end
  /\ files !! mkstemp (Derived.files3 d) = None.
Proof.
  intros d. unfold d, derive. cbn [Derived.small Derived.large Derived.medium_tmp Derived.files3 Derived.files4].
  set (s := mkstemp files).
  set (f1 := <[s := thumbnail_file conf img sw sh LycheePhoto.SMALL_THUMB_SIZE]> files).
  set (l := mkstemp f1).
  set (f2 := <[l := thumbnail_file conf img sw sh LycheePhoto.BIG_THUMB_SIZE]> f1).
  set (m := mkstemp f2).
  set (f3 := <[m := resized_file conf img (medium_size conf)]> f2).
  set (b := mkstemp f3).
  pose proof (mkstemp_fresh files) as H1. fold s in H1.
  pose proof (mkstemp_fresh f1) as H2. fold l in H2.
  pose proof (mkstemp_fresh f2) as H3. fold m in H3.
  pose proof (mkstemp_fresh f3) as H4. fold b in H4.
  assert (H2' := H2). unfold f1 in H2'. apply lookup_insert_None in H2' as [H2' N21].
  assert (H3' := H3). unfold f2, f1 in H3'. rewrite !lookup_insert_None in H3'.
  destruct H3' as [[H3' N31] N32].
  assert (H4' := H4). unfold f3, f2, f1 in H4'. rewrite !lookup_insert_None in H4'.
  destruct H4' as [[[H4' N41] N42] N43].
  assert (E : delete l (delete s (delete m f3)) = files).
  { unfold f3. rewrite (delete_insert_id f2 m _ H3).
    unfold f2. rewrite delete_insert_ne by congruence.
    unfold f1. rewrite (delete_insert_id files s _ H1).
    apply delete_insert_id. exact H2'. }
  split; [|exact H4'].
  destruct (big_size conf) as [size|]; [|exact E].
  rewrite !(delete_insert_ne _ _ b) by congruence. now rewrite E.
Qed.

(** The file of the big resize: a new name, none of the other three. *)
Lemma derive_big (src : string) (img : PIL.image) (sw sh : Z)
    (files : gmap string PIL.file) (size : Z) :
  big_size conf = Some size ->
  let d := derive conf src img sw sh files in
  let b := mkstemp (Derived.files3 d) in
  Derived.files4 d !! b = Some (resized_file conf img size)
  /\ files !! b = None
  /\ b <> Derived.small d /\ b <> Derived.large d /\ b <> Derived.medium_tmp d.
Proof.
  intros Hsize d b. unfold b, d, derive. cbn [Derived.small Derived.large Derived.medium_tmp Derived.files3 Derived.files4].
  rewrite Hsize.
  set (s := mkstemp files).
  set (f1 := <[s := thumbnail_file conf img sw sh LycheePhoto.SMALL_THUMB_SIZE]> files).
  set (l := mkstemp f1).
  set (f2 := <[l := thumbnail_file conf img sw sh LycheePhoto.BIG_THUMB_SIZE]> f1).
  set (m := mkstemp f2).
  set (f3 := <[m := resized_file conf img (medium_size conf)]> f2).
  pose proof (mkstemp_fresh f3) as H4. set (b0 := mkstemp f3) in *.
  unfold f3, f2, f1 in H4. rewrite !lookup_insert_None in H4.
  destruct H4 as [[[H4 N41] N42] N43].
  split; [apply lookup_insert_eq|]. split; [exact H4|]. repeat split; congruence.
Qed.

End Undone.

Section Names.
Context {R : Runtime}.
Variable conf : Conf.

(** The names of a built photo are those [__init__] gave it at first. *)
Lemma init_names (full_path : string) (album_id : Z) (w w' : world) (p : LycheePhoto.t) :
  LycheePhoto.__init__ conf full_path album_id w = (Ok p, w') ->
  let id := LycheePhoto.generateId (clock (ticks w)) in
  let ext := Py.splitext_ext (Py.basename full_path) in
  LycheePhoto.originalname p = Py.basename full_path
  /\ LycheePhoto.albumid p = album_id
  /\ LycheePhoto.id p = id
  /\ LycheePhoto.url p = Py.lower (md5_hex id +:+ ext)
  /\ LycheePhoto.thumb2xUrl p = Py.lower (md5_hex id +:+ "@2x" +:+ ext)
  /\ LycheePhoto.destfullpath p
     = Py.join (path conf) ["uploads"; "big"; Py.lower (md5_hex id +:+ ext)].
Proof.
  intros Hrun.
  destruct (init_ok conf _ _ _ _ _ Hrun) as (fmt & img & self' & de & H).
  cbv zeta in H. destruct H as (_ & Ho & _ & -> & _).
  cbn [LycheePhoto.set_checksum LycheePhoto.set_big_path LycheePhoto.set_medium_path
       LycheePhoto.set_thumbnailx2fullpath LycheePhoto.set_thumbnailfullpath
       LycheePhoto.set_description LycheePhoto.originalname LycheePhoto.albumid
       LycheePhoto.id LycheePhoto.url LycheePhoto.thumb2xUrl LycheePhoto.destfullpath].
  rewrite Ho. repeat split.
Qed.

End Names.

(** The thumbnail of a source with sides [sw] and [sh] is a square of side
    [min side (min sw sh)]. *)
Lemma thumbnail_file_square (conf : Conf) (img : PIL.image) (sw sh side : Z) :
  PIL.size img = (sw, sh) -> 0 < sw -> 0 < sh -> 0 < side ->
  exists out : PIL.image,
    thumbnail_file conf img sw sh (side, side) = PIL.Encoded "JPEG" out
    /\ PIL._getexif out = Some None
    /\ PIL.size out = (Z.min side (Z.min sw sh), Z.min side (Z.min sw sh)).
Proof.
  intros Hsize Hsw Hsh Hside. unfold thumbnail_file, PIL.encode.
  eexists. split; [reflexivity|]. split; [reflexivity|]. cbn [PIL.size].
  set (cropped := PIL.crop (center_box sw sh) img).
  assert (Hcs : PIL.size cropped = (Z.min sw sh, Z.min sw sh)).
  { unfold cropped. rewrite center_box_eq. destruct (sw >? sh) eqn:E; cbn.
    - apply Z.gtb_lt in E. rewrite Z.min_r by lia. f_equal; lia.
    - rewrite Z.gtb_ltb in E. apply Z.ltb_ge in E. rewrite Z.min_l by lia. f_equal; lia. }
  rewrite (thumbnail_of_square (Z.min sw sh) side cropped Hcs) by lia.
  destruct (side <? Z.min sw sh) eqn:E.
  - apply Z.ltb_lt in E. cbn [PIL.size]. now rewrite Z.min_l by lia.
  - apply Z.ltb_ge in E. rewrite Hcs. now rewrite (Z.min_r side) by lia.
Qed.



(** X6: a build whose source path names no file raises the [OSError] of
    [os.path.getsize]: the clock has been read once, for the id, and
    nothing else has happened. *)
Theorem build_missing_source {R : Runtime} (conf : Conf) (full_path : string)
    (album_id : Z) (w : world) :
  fs w !! full_path = None ->
  exists w',
    LycheePhoto.__init__ conf full_path album_id w = (Raise OSError, w')
    /\ fs w' = fs w
    /\ ticks w' = S (ticks w)
    /\ trace w' = trace w ++ [Clock (clock (ticks w)); Getsize full_path].
Proof.
  intros Hf. pose proof (init_outcome conf full_path album_id w) as H. cbv zeta in H.
  rewrite Hf in H. eexists. split; [exact H|]. repeat split.
Qed.

Lemma build_missing_source_witness :
  exists w',
    LycheePhoto.__init__ Sample.conf "/home/u/none.jpg" 7
      (Sample.disk [(Sample.src, Sample.jpeg 4000 3000 None)]) = (Raise OSError, w')
    /\ fs w' = fs (Sample.disk [(Sample.src, Sample.jpeg 4000 3000 None)])
    /\ ticks w' = 1%nat
    /\ trace w' = [Clock (clock 0); Getsize "/home/u/none.jpg"].
Proof.
  apply (build_missing_source Sample.conf "/home/u/none.jpg" 7
           (Sample.disk [(Sample.src, Sample.jpeg 4000 3000 None)])).
  vm_compute. reflexivity.
Defined.

(** X7: whatever its outcome, a build leaves every file that was on the
    disk as it was: it writes under new names only, and removes nothing. *)
Theorem build_keeps_files {R : Runtime} (conf : Conf) (full_path : string)
    (album_id : Z) (w w' : world) (r : result LycheePhoto.t) :
  LycheePhoto.__init__ conf full_path album_id w = (r, w') ->
  forall (q : string) (f : PIL.file), fs w !! q = Some f -> fs w' !! q = Some f.
Proof.
  intros Hrun q f Hq.
  pose proof (init_outcome conf full_path album_id w) as H. cbv zeta in H.
  destruct (fs w !! full_path) as [[data|fmt img]|] eqn:Hf.
  - rewrite H in Hrun. injection Hrun as <- <-. exact Hq.
  - destruct H as [(p & H) | (e' & items & H & _)]; rewrite H in Hrun;
      injection Hrun as <- <-; [|exact Hq].
    destruct (derive_files conf full_path img (fst (PIL.size img)) (snd (PIL.size img))
                (fs w)) as (_ & _ & Hkeep & _).
    exact (Hkeep q f Hq).
  - rewrite H in Hrun. injection Hrun as <- <-. exact Hq.
Qed.

Lemma build_keeps_files_witness :
  exists p w',
    LycheePhoto.__init__ Sample.conf Sample.src 7
      (Sample.disk [(Sample.src, Sample.jpeg 4000 3000 None);
                    ("/tmp/tmp", PIL.Raw [1; 2; 3])]) = (Ok p, w')
    /\ fs w' !! "/tmp/tmp" = Some (PIL.Raw [1; 2; 3])
    /\ fs w' !! Sample.src = Some (Sample.jpeg 4000 3000 None).
Proof.
  destruct (LycheePhoto.__init__ Sample.conf Sample.src 7
              (Sample.disk [(Sample.src, Sample.jpeg 4000 3000 None);
                            ("/tmp/tmp", PIL.Raw [1; 2; 3])]))
    as [[p|e] w'] eqn:Hrun; [|vm_compute in Hrun; discriminate Hrun].
  exists p, w'. split; [reflexivity|].
  split; apply (build_keeps_files _ _ _ _ _ _ Hrun); reflexivity.
Defined.

(** X8: what a built photo says of its source is true of the file: the
    width and height are those of the image, the checksum is that of the
    file, which the build has left as it was, so that hashing it again
    gives the checksum of the record. *)
Theorem build_reads_source {R : Runtime} (conf : Conf) (full_path : string)
    (album_id : Z) (w w' : world) (p : LycheePhoto.t) :
  LycheePhoto.__init__ conf full_path album_id w = (Ok p, w') ->
  exists (fmt : string) (img : PIL.image),
    fs w !! full_path = Some (PIL.Encoded fmt img)
    /\ fs w' !! full_path = Some (PIL.Encoded fmt img)
    /\ LycheePhoto.srcfullpath p = full_path
    /\ LycheePhoto.width p = Some (fst (PIL.size img))
    /\ LycheePhoto.height p = Some (snd (PIL.size img))
    /\ LycheePhoto.size_ p = pretty (st_size (PIL.Encoded fmt img) / 1024) +:+ " KB"
    /\ LycheePhoto.checksum p = Some (sha1_hex (PIL.Encoded fmt img))
    /\ fst (LycheePhoto.generateHash (LycheePhoto.srcfullpath p) w')
       = Ok (sha1_hex (PIL.Encoded fmt img)).
Proof.
  intros Hrun.
  destruct (init_ok conf _ _ _ _ _ Hrun) as (fmt & img & self' & de & H).
  cbv zeta in H. destruct H as (Hf & Ho & _ & -> & ->).
  exists fmt, img.
  assert (Hkept : fs (after (Derived.events (derive conf full_path img (fst (PIL.size img))
                                       (snd (PIL.size img)) (fs w)))
                        (Derived.files4 (derive conf full_path img (fst (PIL.size img))
                                   (snd (PIL.size img)) (fs w)))
                        (logged (Open full_path) (at_try full_path w))) !! full_path
                  = Some (PIL.Encoded fmt img)).
  { destruct (derive_files conf full_path img (fst (PIL.size img)) (snd (PIL.size img))
                (fs w)) as (_ & _ & Hkeep & _).
    exact (Hkeep _ _ Hf). }
  split; [exact Hf|]. split; [exact Hkept|].
  cbn [LycheePhoto.set_checksum LycheePhoto.set_big_path LycheePhoto.set_medium_path
       LycheePhoto.set_thumbnailx2fullpath LycheePhoto.set_thumbnailfullpath
       LycheePhoto.set_description LycheePhoto.srcfullpath LycheePhoto.width
       LycheePhoto.height LycheePhoto.size_ LycheePhoto.checksum].
  rewrite Ho. repeat (split; [reflexivity|]).
  cbn [LycheePhoto.set_datetime LycheePhoto.set_exif LycheePhoto.srcfullpath].
  change (LycheePhoto.srcfullpath (opened_photo conf full_path album_id w
            (PIL.Encoded fmt img) img)) with full_path.
  unfold LycheePhoto.generateHash, read_sha1, bind, emit, stat.
  cbn [fs] in Hkept |- *. now rewrite Hkept.
Qed.

Lemma build_reads_source_witness :
  exists p w',
    LycheePhoto.__init__ Sample.conf Sample.src 7
      (Sample.disk [(Sample.src, Sample.jpeg 4000 3000 None)]) = (Ok p, w')
    /\ LycheePhoto.width p = Some 4000
    /\ LycheePhoto.height p = Some 3000
    /\ LycheePhoto.size_ p = "2929 KB"
    /\ LycheePhoto.checksum p = Some "sha1-JPEG".
Proof.
  destruct (LycheePhoto.__init__ Sample.conf Sample.src 7
              (Sample.disk [(Sample.src, Sample.jpeg 4000 3000 None)]))
    as [[p|e] w'] eqn:Hrun; [|vm_compute in Hrun; discriminate Hrun].
  exists p, w'. split; [reflexivity|].
  destruct (build_reads_source _ _ _ _ _ _ Hrun)
    as (fmt & img & Hf & _ & _ & Hw & Hh & Hs & Hc & _).
  vm_compute in Hf. injection Hf as <- <-.
  repeat split; assumption.
Defined.

(** X9: the two thumbnails of a built photo are two different new files,
    neither of them the source, and hold JPEG squares: of side 200 and 400,
    or of the shorter side of the source when that is smaller.  They carry
    none of the tags of the source. *)
Theorem build_thumbnails {R : Runtime} (conf : Conf) (full_path : string)
    (album_id : Z) (w w' : world) (p : LycheePhoto.t) (fmt : string)
    (img : PIL.image) (sw sh : Z) :
  LycheePhoto.__init__ conf full_path album_id w = (Ok p, w') ->
  fs w !! full_path = Some (PIL.Encoded fmt img) ->
  PIL.size img = (sw, sh) -> 0 < sw -> 0 < sh ->
  exists (small large : string) (small_img large_img : PIL.image),
    LycheePhoto.thumbnailfullpath p = Some small
    /\ LycheePhoto.thumbnailx2fullpath p = Some large
    /\ small <> large /\ small <> full_path /\ large <> full_path
    /\ fs w !! small = None /\ fs w !! large = None
    /\ fs w' !! small = Some (PIL.Encoded "JPEG" small_img)
    /\ PIL.size small_img = (Z.min 200 (Z.min sw sh), Z.min 200 (Z.min sw sh))
    /\ fs w' !! large = Some (PIL.Encoded "JPEG" large_img)
    /\ PIL.size large_img = (Z.min 400 (Z.min sw sh), Z.min 400 (Z.min sw sh))
    /\ PIL._getexif small_img = Some None /\ PIL._getexif large_img = Some None.
Proof.
  intros Hrun Hf Hsize Hsw Hsh.
  destruct (init_ok conf _ _ _ _ _ Hrun) as (fmt' & img' & self' & de & H).
  cbv zeta in H. destruct H as (Hf' & _ & _ & -> & ->).
  rewrite Hf in Hf'. injection Hf' as <- <-.
  rewrite Hsize. cbn [fst snd].
  set (d := derive conf full_path img sw sh (fs w)).
  destruct (derive_files conf full_path img sw sh (fs w))
    as ((N1 & N2 & _) & (D12 & _) & _ & F1 & F2 & _).
  fold d in N1, N2, D12, F1, F2.
  destruct (thumbnail_file_square conf img sw sh 200 Hsize Hsw Hsh ltac:(lia))
    as (small_img & E1 & T1 & S1).
  destruct (thumbnail_file_square conf img sw sh 400 Hsize Hsw Hsh ltac:(lia))
    as (large_img & E2 & T2 & S2).
  exists (Derived.small d), (Derived.large d), small_img, large_img.
  split; [reflexivity|]. split; [reflexivity|]. split; [exact D12|].
  split; [intros E; rewrite E, Hf in N1; discriminate|].
  split; [intros E; rewrite E, Hf in N2; discriminate|].
  split; [exact N1|]. split; [exact N2|].
  split; [rewrite <- E1; exact F1|]. split; [exact S1|].
  split; [rewrite <- E2; exact F2|]. split; [exact S2|]. split; assumption.
Qed.

Lemma build_thumbnails_witness :
  exists (p : LycheePhoto.t) (w' : world) (small large : string)
         (small_img large_img : PIL.image),
    LycheePhoto.__init__ Sample.conf Sample.src 7
      (Sample.disk [(Sample.src, Sample.jpeg 4000 300 None)]) = (Ok p, w')
    /\ LycheePhoto.thumbnailfullpath p = Some small
    /\ LycheePhoto.thumbnailx2fullpath p = Some large
    /\ small <> large
    /\ fs w' !! small = Some (PIL.Encoded "JPEG" small_img)
    /\ PIL.size small_img = (200, 200)
    /\ fs w' !! large = Some (PIL.Encoded "JPEG" large_img)
    /\ PIL.size large_img = (300, 300).
Proof.
  destruct (LycheePhoto.__init__ Sample.conf Sample.src 7
              (Sample.disk [(Sample.src, Sample.jpeg 4000 300 None)]))
    as [[p|e] w'] eqn:Hrun; [|vm_compute in Hrun; discriminate Hrun].
  destruct (build_thumbnails Sample.conf Sample.src 7 _ w' p "JPEG" _ 4000 300 Hrun
              eq_refl eq_refl eq_refl eq_refl)
    as (small & large & si & li & H1 & H2 & H3 & _ & _ & _ & _ & H4 & H5 & H6 & H7 & _).
  exists p, w', small, large, si, li. repeat split; assumption.
Defined.

(** X10: the tags of a built photo.  With a tag dictionary (its keys are
    distinct), each of the seven fields holds the value of its tag, and the
    class default when the dictionary has no such tag; without a
    dictionary all fields are the defaults.  No build fills in the two date
    strings of the tags: [takedate] and [taketime] are always empty. *)
Theorem build_exif {R : Runtime} (conf : Conf) (full_path : string)
    (album_id : Z) (w w' : world) (p : LycheePhoto.t) (fmt : string) (img : PIL.image) :
  LycheePhoto.__init__ conf full_path album_id w = (Ok p, w') ->
  fs w !! full_path = Some (PIL.Encoded fmt img) ->
  (forall items,
     PIL._getexif img = Some (Some items) -> List.NoDup (map fst items) ->
     forall t get, In (t, get) stored_tags ->
       (forall v, In (t, v) items -> get (LycheePhoto.exif p) = v)
       /\ (~ In t (map fst items) -> get (LycheePhoto.exif p) = get ExifData.new))
  /\ (PIL._getexif img = None \/ PIL._getexif img = Some None ->
      LycheePhoto.exif p = ExifData.new)
  /\ ExifData.takedate (LycheePhoto.exif p) = ""
  /\ ExifData.taketime (LycheePhoto.exif p) = "".
Proof.
  intros Hrun Hf.
  destruct (init_ok conf _ _ _ _ _ Hrun) as (fmt' & img' & self' & de & H).
  cbv zeta in H. destruct H as (Hf' & _ & Htags & -> & _).
  rewrite Hf in Hf'. injection Hf' as <- <-.
  change (LycheePhoto.exif (LycheePhoto.set_checksum _ _)) with (LycheePhoto.exif self').
  split; [|split].
  - intros items Hexif Hnd t get Hin. rewrite Hexif in Htags. destruct Htags as [Hr _].
    destruct (exif_items_fields _ _ _ _ _ Hr Hnd) as (_ & _ & _ & _ & F & _).
    exact (F t get Hin).
  - intros [Hexif | Hexif]; rewrite Hexif in Htags; destruct Htags as [-> _]; reflexivity.
  - destruct (PIL._getexif img) as [[items|]|].
    + destruct Htags as [Hr _].
      destruct (exif_items_only_tags _ _ _ _ _ Hr) as (_ & _ & T & K).
      unfold ExifData.takedate. rewrite T, K. split; reflexivity.
    + destruct Htags as [-> _]. split; reflexivity.
    + destruct Htags as [-> _]. split; reflexivity.
Qed.

Lemma build_exif_witness :
  exists p w',
    LycheePhoto.__init__ Sample.conf Sample.src 7
      (Sample.disk [(Sample.src,
                     Sample.jpeg 4000 3000
                       (Some [(271, PIL.VStr "NIKON"); (274, PIL.VInt 6);
                              (37386, PIL.VRational 50 1); (40962, PIL.VInt 4000)]))])
    = (Ok p, w')
    /\ ExifData.orientation (LycheePhoto.exif p) = PIL.VInt 6
    /\ ExifData.make (LycheePhoto.exif p) = PIL.VStr "NIKON"
    /\ ExifData.focal (LycheePhoto.exif p) = PIL.VRational 50 1
    /\ ExifData.iso (LycheePhoto.exif p) = PIL.VStr ""
    /\ ExifData.takedate (LycheePhoto.exif p) = "".
Proof.
  destruct (LycheePhoto.__init__ Sample.conf Sample.src 7
              (Sample.disk [(Sample.src,
                     Sample.jpeg 4000 3000
                       (Some [(271, PIL.VStr "NIKON"); (274, PIL.VInt 6);
                              (37386, PIL.VRational 50 1); (40962, PIL.VInt 4000)]))]))
    as [[p|e] w'] eqn:Hrun; [|vm_compute in Hrun; discriminate Hrun].
  exists p, w'. split; [reflexivity|].
  destruct (build_exif Sample.conf Sample.src 7 _ w' p "JPEG" _ Hrun eq_refl)
    as (F & _ & T & _).
  assert (Hnd : List.NoDup (map fst [(271, PIL.VStr "NIKON"); (274, PIL.VInt 6);
                                     (37386, PIL.VRational 50 1); (40962, PIL.VInt 4000)])).
  { cbn. repeat constructor; cbn; intuition discriminate. }
  specialize (F _ eq_refl Hnd).
  split; [apply (F 274 ExifData.orientation); cbn; auto 10|].
  split; [apply (F 271 ExifData.make); cbn; auto 10|].
  split; [apply (F 37386 ExifData.focal); cbn; auto 10|].
  split; [|exact T].
  apply (F 34855 ExifData.iso); cbn; [auto 10|]. intuition discriminate.
Defined.



(** X12: the medium and the big file of a built photo.  Each of the two
    paths is the source path itself when there is nothing to scale down
    (and, for the big one, when no big size is configured); otherwise it
    names a new file, which holds the source scaled to [int(ratio * side)]
    for each side, as a JPEG.  The two files, when both are made, are
    different files. *)
Theorem build_resized {R : Runtime} (conf : Conf) (full_path : string)
    (album_id : Z) (w w' : world) (p : LycheePhoto.t) (fmt : string) (img : PIL.image) :
  LycheePhoto.__init__ conf full_path album_id w = (Ok p, w') ->
  fs w !! full_path = Some (PIL.Encoded fmt img) ->
  let longer := Z.max (fst (PIL.size img)) (snd (PIL.size img)) in
  let scaled_to (size : Z) :=
    PIL.encode "JPEG" (quality conf)
      (PIL.resize (LycheePhoto.scaled size longer (fst (PIL.size img)),
                   LycheePhoto.scaled size longer (snd (PIL.size img))) img) in
  exists m b : string,
    LycheePhoto.medium_path p = Some m
    /\ LycheePhoto.big_path p = Some b
    /\ (if medium_size conf <? longer
        then fs w !! m = None /\ fs w' !! m = Some (scaled_to (medium_size conf))
        else m = full_path)
    /\ match big_size conf with
       | Some size =>
           if size <? longer
           then fs w !! b = None /\ fs w' !! b = Some (scaled_to size)
                /\ ((medium_size conf <? longer) = true -> b <> m)
           else b = full_path
       | None => b = full_path
       end.
Proof.
  intros Hrun Hf longer scaled_to.
  destruct (init_ok conf _ _ _ _ _ Hrun) as (fmt' & img' & self' & de & H).
  cbv zeta in H. destruct H as (Hf' & _ & _ & -> & ->).
  rewrite Hf in Hf'. injection Hf' as <- <-.
  set (d := derive conf full_path img (fst (PIL.size img)) (snd (PIL.size img)) (fs w)).
  destruct (derive_files conf full_path img (fst (PIL.size img)) (snd (PIL.size img)) (fs w))
    as ((_ & _ & N3) & _ & _ & _ & _ & F3).
  fold d in N3, F3.
  exists (Derived.medium d), (Derived.big d). split; [reflexivity|]. split; [reflexivity|].
  assert (Hmed : Derived.medium d
                 = if medium_size conf <? longer then Derived.medium_tmp d else full_path)
    by reflexivity.
  assert (Hres : forall size, (size <? longer) = true ->
                   resized_file conf img size = scaled_to size).
  { intros size E. unfold resized_file, resize_needed. fold longer. now rewrite E. }
  split.
  - rewrite Hmed. destruct (medium_size conf <? longer) eqn:E; [|reflexivity].
    split; [exact N3|]. cbn [after fs]. rewrite <- (Hres _ E). exact F3.
  - destruct (big_size conf) as [size|] eqn:Ebig.
    + destruct (derive_big conf full_path img (fst (PIL.size img)) (snd (PIL.size img))
                  (fs w) size Ebig) as (Hb4 & Nb & _ & _ & Nbm).
      fold d in Hb4, Nb, Nbm.
      assert (Hbig : Derived.big d = if size <? longer then mkstemp (Derived.files3 d) else full_path).
      { unfold d, derive. cbn [Derived.big Derived.files3]. now rewrite Ebig. }
      rewrite Hbig. destruct (size <? longer) eqn:E; [|reflexivity].
      split; [exact Nb|]. split; [cbn [after fs]; rewrite <- (Hres _ E); exact Hb4|].
      intros Em. rewrite Hmed, Em. exact Nbm.
    + unfold d, derive. cbn [Derived.big]. now rewrite Ebig.
Qed.

Lemma build_resized_witness :
  exists (p : LycheePhoto.t) (w' : world) (m : string),
    LycheePhoto.__init__ Sample.conf Sample.src 7
      (Sample.disk [(Sample.src, Sample.jpeg 4000 3000 None)]) = (Ok p, w')
    /\ LycheePhoto.medium_path p = Some m
    /\ LycheePhoto.big_path p = Some Sample.src
    /\ fs w' !! m
       = Some (PIL.Encoded "JPEG"
                 {| PIL.size := (1920, 1440); PIL._getexif := Some None;
                    PIL.px := PIL.Encode 70 (PIL.Resample (1920, 1440) (PIL.Scene 0)) |}).
Proof.
  destruct (LycheePhoto.__init__ Sample.conf Sample.src 7
              (Sample.disk [(Sample.src, Sample.jpeg 4000 3000 None)]))
    as [[p|e] w'] eqn:Hrun; [|vm_compute in Hrun; discriminate Hrun].
  destruct (build_resized Sample.conf Sample.src 7 _ w' p "JPEG" _ Hrun eq_refl)
    as (m & b & Hm & Hb & Hmed & Hbig).
  cbn in Hbig. subst b.
  change (medium_size Sample.conf <? _) with true in Hmed. destruct Hmed as [_ Hfile].
  exists p, w', m. split; [reflexivity|]. split; [exact Hm|]. split; [exact Hb|].
  rewrite Hfile. vm_compute. reflexivity.
Defined.


(** X13: the names of a built photo.  The url is the hash of the id followed
    by the extension of the source's name, the 2x url is the same with
    [@2x] before the extension, and both are in lower case, the extension
    included; no slash comes with the extension. *)
Theorem build_names {R : Runtime} (conf : Conf) (full_path : string) (album_id : Z)
    (w w' : world) (p : LycheePhoto.t) :
  LycheePhoto.__init__ conf full_path album_id w = (Ok p, w') ->
  let stem := Py.lower (md5_hex (LycheePhoto.id p)) in
  let ext := Py.lower (Py.splitext_ext (LycheePhoto.originalname p)) in
  LycheePhoto.originalname p = Py.basename full_path
  /\ LycheePhoto.id p = LycheePhoto.generateId (clock (ticks w))
  /\ LycheePhoto.url p = stem +:+ ext
  /\ LycheePhoto.thumb2xUrl p = stem +:+ "@2x" +:+ ext
  /\ Py.lower (LycheePhoto.url p) = LycheePhoto.url p
  /\ Py.lower (LycheePhoto.thumb2xUrl p) = LycheePhoto.thumb2xUrl p
  /\ Py.all_chars no_slash ext = true.
Proof.
  intros Hrun stem ext.
  destruct (init_names conf _ _ _ _ _ Hrun) as (Hname & _ & Hid & Hurl & Hurl2 & _).
  unfold stem, ext. rewrite Hurl, Hurl2, Hid, Hname.
  split; [reflexivity|]. split; [reflexivity|].
  split; [apply lower_append|].
  split; [now rewrite !lower_append|].
  split; [apply lower_idempotent|]. split; [apply lower_idempotent|].
  rewrite lower_no_slash. apply splitext_ext_no_slash.
Qed.

Lemma build_names_witness :
  exists p w',
    LycheePhoto.__init__ Sample.conf "/home/u/Holiday.Cover.JPG" 7
      (Sample.disk [("/home/u/Holiday.Cover.JPG", Sample.jpeg 4000 3000 None)]) = (Ok p, w')
    /\ LycheePhoto.url p = "md5-14000000000000.jpg"
    /\ LycheePhoto.thumb2xUrl p = "md5-14000000000000@2x.jpg".
Proof.
  destruct (LycheePhoto.__init__ Sample.conf "/home/u/Holiday.Cover.JPG" 7
              (Sample.disk [("/home/u/Holiday.Cover.JPG", Sample.jpeg 4000 3000 None)]))
    as [[p|e] w'] eqn:Hrun; [|vm_compute in Hrun; discriminate Hrun].
  exists p, w'. split; [reflexivity|].
  destruct (build_names _ _ _ _ _ _ Hrun) as (Hname & Hid & Hurl & Hurl2 & _).
  rewrite Hurl, Hurl2, Hid, Hname. split; vm_compute; reflexivity.
Defined.

(** X14: the destination of a built photo is a file directly in the
    directory [uploads/big] of the configured path, whatever the name of
    the source: its name is the url, which has no slash.  (The hash is
    text without a slash, as a digest in hexadecimal is; the configured
    path is not empty and does not end in a slash.) *)
Theorem build_destination {R : Runtime} (conf : Conf) (full_path : string)
    (album_id : Z) (w w' : world) (p : LycheePhoto.t) :
  LycheePhoto.__init__ conf full_path album_id w = (Ok p, w') ->
  path conf <> "" -> Py.ends_with_slash (path conf) = false ->
  Py.all_chars no_slash (md5_hex (LycheePhoto.id p)) = true ->
  LycheePhoto.destfullpath p = path conf +:+ "/uploads/big/" +:+ LycheePhoto.url p
  /\ Py.all_chars no_slash (LycheePhoto.url p) = true.
Proof.
  intros Hrun Hdir Hend Hmd5.
  destruct (init_names conf _ _ _ _ _ Hrun) as (_ & _ & Hid & Hurl & _ & Hdest).
  rewrite Hid in Hmd5. rewrite Hdest, Hurl.
  assert (Hno : Py.all_chars no_slash
                  (Py.lower (md5_hex (LycheePhoto.generateId (clock (ticks w)))
                             +:+ Py.splitext_ext (Py.basename full_path))) = true).
  { rewrite lower_no_slash, all_chars_append, Hmd5. apply splitext_ext_no_slash. }
  split; [now apply join_uploads_big | exact Hno].
Qed.

Lemma build_destination_witness :
  exists p w',
    LycheePhoto.__init__ Sample.conf "/home/u/../../etc/x.PNG" 7
      (Sample.disk [("/home/u/../../etc/x.PNG", Sample.jpeg 4000 3000 None)]) = (Ok p, w')
    /\ LycheePhoto.destfullpath p = "/var/www/lychee/uploads/big/md5-14000000000000.png".
Proof.
  destruct (LycheePhoto.__init__ Sample.conf "/home/u/../../etc/x.PNG" 7
              (Sample.disk [("/home/u/../../etc/x.PNG", Sample.jpeg 4000 3000 None)]))
    as [[p|e] w'] eqn:Hrun; [|vm_compute in Hrun; discriminate Hrun].
  exists p, w'. split; [reflexivity|].
  destruct (build_destination _ _ _ _ _ _ Hrun) as [Hdest _].
  - discriminate.
  - reflexivity.
  - destruct (init_names _ _ _ _ _ _ Hrun) as (_ & _ & Hid & _). rewrite Hid.
    vm_compute. reflexivity.
  - rewrite Hdest.
    destruct (init_names _ _ _ _ _ _ Hrun) as (_ & _ & _ & Hurl & _). rewrite Hurl.
    vm_compute. reflexivity.
Defined.

(** X15: two builds that read the clock within the same hundredth of a
    second (in the years 2001 to 2286) give their photos the same id; when
    the two sources have the same extension, the photos also get the same
    url and the same destination path. *)
Theorem build_id_collision {R : Runtime} (conf : Conf)
    (path_a path_b : string) (album_a album_b : Z)
    (wa wa' wb wb' : world) (pa pb : LycheePhoto.t) :
  LycheePhoto.__init__ conf path_a album_a wa = (Ok pa, wa') ->
  LycheePhoto.__init__ conf path_b album_b wb = (Ok pb, wb') ->
  let ta := clock (ticks wa) in
  let tb := clock (ticks wb) in
  (1000000000 # 1 <= ta)%Q -> (ta < 9999999999995 # 1000)%Q ->
  (1000000000 # 1 <= tb)%Q -> (tb < 9999999999995 # 1000)%Q ->
  Py.rne (ta * (100 # 1)) = Py.rne (tb * (100 # 1)) ->
  LycheePhoto.id pa = LycheePhoto.id pb
  /\ (Py.splitext_ext (Py.basename path_a) = Py.splitext_ext (Py.basename path_b) ->
      LycheePhoto.url pa = LycheePhoto.url pb
      /\ LycheePhoto.thumb2xUrl pa = LycheePhoto.thumb2xUrl pb
      /\ LycheePhoto.destfullpath pa = LycheePhoto.destfullpath pb).
Proof.
  intros Ha Hb ta tb A1 A2 B1 B2 Hsame.
  destruct (init_names conf _ _ _ _ _ Ha) as (_ & _ & Ia & Ua & Ta & Da).
  destruct (init_names conf _ _ _ _ _ Hb) as (_ & _ & Ib & Ub & Tb & Db).
  fold ta in Ia, Ua, Ta, Da. fold tb in Ib, Ub, Tb, Db.
  assert (E : LycheePhoto.generateId ta = LycheePhoto.generateId tb).
  { rewrite !generateId_sig12 by lra. rewrite !sig12_epoch by assumption.
    cbn [fst]. now rewrite Hsame. }
  split; [congruence|].
  intros Hext. rewrite Ua, Ub, Ta, Tb, Da, Db, E, Hext. repeat split.
Qed.

Lemma build_id_collision_witness :
  exists pa wa' pb wb',
    LycheePhoto.__init__ Sample.conf "/home/u/a.jpg" 7
      (Sample.disk [("/home/u/a.jpg", Sample.jpeg 4000 3000 None)]) = (Ok pa, wa')
    /\ LycheePhoto.__init__ Sample.conf "/home/v/b.jpg" 8
         (Sample.disk [("/home/v/b.jpg", Sample.jpeg 800 600 None)]) = (Ok pb, wb')
    /\ LycheePhoto.id pa = LycheePhoto.id pb
    /\ LycheePhoto.destfullpath pa = LycheePhoto.destfullpath pb.
Proof.
  destruct (LycheePhoto.__init__ Sample.conf "/home/u/a.jpg" 7
              (Sample.disk [("/home/u/a.jpg", Sample.jpeg 4000 3000 None)]))
    as [[pa|e] wa'] eqn:Ha; [|vm_compute in Ha; discriminate Ha].
  destruct (LycheePhoto.__init__ Sample.conf "/home/v/b.jpg" 8
              (Sample.disk [("/home/v/b.jpg", Sample.jpeg 800 600 None)]))
    as [[pb|e] wb'] eqn:Hb; [|vm_compute in Hb; discriminate Hb].
  exists pa, wa', pb, wb'. split; [reflexivity|]. split; [reflexivity|].
  destruct (build_id_collision _ _ _ _ _ _ _ _ _ _ _ Ha Hb) as [Hid Hrest];
    [discriminate | reflexivity | discriminate | reflexivity | reflexivity |].
  split; [exact Hid|]. apply Hrest. reflexivity.
Defined.

(** ** The ends of resize and generateThumbnail *)

Section Undecodable.
Context {R : Runtime}.

(** [Image.open] right after a temporary file was made, on a source that is
    no image. *)
Lemma run_Image_open_after_mkstemp (p : string) (w : world) :
  (forall fmt img, fs w !! p <> Some (PIL.Encoded fmt img)) ->
  let t := mkstemp (fs w) in
  let w1 := stored t (PIL.Raw []) (logged (Mkstemp t) w) in
  Image_open p w1 = (Raise IOError, logged (Open p) w1).
Proof.
  intros H t w1. apply run_Image_open_fails. intros fmt img.
  unfold w1, stored, logged. cbn [fs].
  destruct (decide (t = p)) as [<-|Ne].
  - rewrite lookup_insert_eq. discriminate.
  - rewrite lookup_insert_ne by exact Ne. apply H.
Qed.

End Undecodable.

(** X16: [resize] when there is nothing to do.  On a source whose longer
    side is at most the size asked for (equal included), it returns the
    source path and leaves the source as it is; what it has done is to make
    one new, empty file, which stays on the disk. *)
Theorem resize_noop {R : Runtime} (conf : Conf) (self : LycheePhoto.t) (size : Z)
    (w : world) (fmt : string) (img : PIL.image) :
  fs w !! LycheePhoto.srcfullpath self = Some (PIL.Encoded fmt img) ->
  Z.max (fst (PIL.size img)) (snd (PIL.size img)) <= size ->
  let src := LycheePhoto.srcfullpath self in
  exists (temp : string) (w' : world),
    LycheePhoto.resize conf self size w = (Ok src, w')
    /\ fs w !! temp = None
    /\ fs w' = <[temp := PIL.Raw []]> (fs w)
    /\ fs w' !! src = Some (PIL.Encoded fmt img)
    /\ trace w' = trace w ++ [Mkstemp temp; Open src;
                              Log "debug" "No resize needed. Image unchanged"].
Proof.
  intros Hsrc Hle src.
  pose proof (resize_runs conf self size w fmt img Hsrc) as Hrun. cbv zeta in Hrun.
  assert (E : (size <? Z.max (fst (PIL.size img)) (snd (PIL.size img))) = false)
    by now apply Z.ltb_ge.
  rewrite E in Hrun.
  exists (mkstemp (fs w)). eexists. split; [exact Hrun|].
  split; [apply mkstemp_fresh|]. split; [reflexivity|].
  split; [|reflexivity].
  unfold after. cbn [fs]. now apply fresh_keeps.
Qed.

Lemma resize_noop_witness :
  exists (temp : string) (w' : world),
    LycheePhoto.resize Sample.conf
      (Sample.photo Sample.src (Some (1920, 1080)) 1 "" None None None) 1920
      (Sample.disk [(Sample.src, Sample.jpeg 1920 1080 None)]) = (Ok Sample.src, w')
    /\ fs w' !! temp = Some (PIL.Raw [])
    /\ fs w' !! Sample.src = Some (Sample.jpeg 1920 1080 None).
Proof.
  destruct (resize_noop Sample.conf
              (Sample.photo Sample.src (Some (1920, 1080)) 1 "" None None None) 1920
              (Sample.disk [(Sample.src, Sample.jpeg 1920 1080 None)])
              "JPEG" _ eq_refl)
    as (temp & w' & Hrun & _ & Hfs & Hsrc & _); [discriminate|].
  exists temp, w'. split; [exact Hrun|]. split; [|exact Hsrc].
  rewrite Hfs. apply lookup_insert_eq.
Defined.

(** X17: [resize] on a source that is missing or is no image raises the
    [IOError] of [Image.open], and leaves behind the empty temporary file
    it had made before. *)
Theorem resize_undecodable {R : Runtime} (conf : Conf) (self : LycheePhoto.t)
    (size : Z) (w : world) :
  (forall fmt img,
     fs w !! LycheePhoto.srcfullpath self <> Some (PIL.Encoded fmt img)) ->
  exists (temp : string) (w' : world),
    LycheePhoto.resize conf self size w = (Raise IOError, w')
    /\ fs w !! temp = None
    /\ fs w' = <[temp := PIL.Raw []]> (fs w)
    /\ trace w' = trace w ++ [Mkstemp temp; Open (LycheePhoto.srcfullpath self)].
Proof.
  intros Hsrc. exists (mkstemp (fs w)). eexists. split.
  - unfold LycheePhoto.resize.
    destruct (run_NamedTemporaryFile w) as [Htmp _].
    rewrite (bind_ok _ _ _ _ _ Htmp).
    apply bind_raise. now apply run_Image_open_after_mkstemp.
  - split; [apply mkstemp_fresh|]. split; [reflexivity|].
    unfold stored, logged. cbn [trace]. now rewrite <- app_assoc.
Qed.

Lemma resize_undecodable_witness :
  exists (temp : string) (w' : world),
    LycheePhoto.resize Sample.conf
      (Sample.photo Sample.src None 1 "" None None None) 1920
      (Sample.disk [(Sample.src, PIL.Raw [71; 73; 70])]) = (Raise IOError, w')
    /\ fs w' !! temp = Some (PIL.Raw []).
Proof.
  destruct (resize_undecodable Sample.conf
              (Sample.photo Sample.src None 1 "" None None None) 1920
              (Sample.disk [(Sample.src, PIL.Raw [71; 73; 70])]))
    as (temp & w' & Hrun & _ & Hfs & _).
  - intros fmt img. vm_compute. discriminate.
  - exists temp, w'. split; [exact Hrun|]. rewrite Hfs. apply lookup_insert_eq.
Defined.

(** X18: how [generateThumbnail] fails.  On a photo without its width or its
    height it raises [AttributeError] and has touched nothing.  With both
    set, on a source that is missing or is no image, it raises the
    [IOError] of [Image.open] and leaves behind the empty temporary file it
    had made before. *)
Theorem generateThumbnail_failure {R : Runtime} (conf : Conf) (self : LycheePhoto.t)
    (res : Z * Z) (w : world) :
  (LycheePhoto.width self = None \/ LycheePhoto.height self = None ->
   LycheePhoto.generateThumbnail conf self res w = (Raise AttributeError, w))
  /\ (is_Some (LycheePhoto.width self) -> is_Some (LycheePhoto.height self) ->
      (forall fmt img,
         fs w !! LycheePhoto.srcfullpath self <> Some (PIL.Encoded fmt img)) ->
      exists (temp : string) (w' : world),
        LycheePhoto.generateThumbnail conf self res w = (Raise IOError, w')
        /\ fs w !! temp = None
        /\ fs w' = <[temp := PIL.Raw []]> (fs w)
        /\ trace w' = trace w ++ [Mkstemp temp; Open (LycheePhoto.srcfullpath self)]).
Proof.
  split.
  - intros H. unfold LycheePhoto.generateThumbnail.
    destruct (LycheePhoto.width self) as [sw|]; [|reflexivity].
    destruct H as [H | H]; [discriminate H|]. now rewrite H.
  - intros [sw Hw] [sh Hh] Hsrc. exists (mkstemp (fs w)). eexists. split.
    + unfold LycheePhoto.generateThumbnail. rewrite Hw, Hh. cbn [attr].
      unfold bind at 1. cbn [ret]. unfold bind at 1. cbn [ret].
      destruct (if sw >? sh
                then ((sw - sh) / 2, 0, sh + (sw - sh) / 2, sh)
                else (0, (sh - sw) / 2, sw, sw + (sh - sw) / 2)) as [[[x0 y0] x1] y1].
      destruct (run_NamedTemporaryFile w) as [Htmp _].
      rewrite (bind_ok _ _ _ _ _ Htmp).
      apply bind_raise. now apply run_Image_open_after_mkstemp.
    + split; [apply mkstemp_fresh|]. split; [reflexivity|].
      unfold stored, logged. cbn [trace]. now rewrite <- app_assoc.
Qed.







(** ** Cleanup *)

Lemma run_os_remove (p : string) (w : world) :
  os_remove p w
  = match fs w !! p with
    | Some _ => (Ok tt, removed p (logged (Remove p) w))
    | None => (Raise OSError, logged (Remove p) w)
    end.
Proof.
  unfold os_remove, bind, emit, stat. cbn [fs].
  destruct (fs w !! p); reflexivity.
Qed.

(** [cleanup] on a photo with its three paths: the removals go on until
    one fails, and the failure is logged. *)
Lemma cleanup_runs (self : LycheePhoto.t) (m s l : string) (w : world) :
  LycheePhoto.medium_path self = Some m ->
  LycheePhoto.thumbnailfullpath self = Some s ->
  LycheePhoto.thumbnailx2fullpath self = Some l ->
  let failed := logged (Log "error" ("Cannot delete thumbnail " +:+ s)) in
  let w1 := logged (Remove m) w in
  let w2 := logged (Remove s) (removed m w1) in
  let w3 := logged (Remove l) (removed s w2) in
  LycheePhoto.cleanup self w
  = (Ok tt,
     match fs w !! m with
     | None => failed w1
     | Some _ =>
         match fs (removed m w1) !! s with
         | None => failed w2
         | Some _ =>
             match fs (removed s w2) !! l with
             | None => failed w3
             | Some _ => removed l w3
             end
         end
     end).
Proof.
  intros Hm Hs Hl failed w1 w2 w3.
  unfold LycheePhoto.cleanup, try_except. rewrite Hm, Hs, Hl. cbn [attr].
  unfold bind at 1, ret at 1.
  unfold bind at 1. rewrite run_os_remove. fold w1.
  destruct (fs w !! m) as [fm|]; [|reflexivity].
  unfold bind at 1, ret at 1.
  unfold bind at 1. rewrite run_os_remove. fold w2.
  destruct (fs (removed m w1) !! s) as [fs_|]; [|reflexivity].
  unfold bind at 1, ret at 1.
  rewrite run_os_remove. fold w3.
  destruct (fs (removed s w2) !! l) as [fl|]; reflexivity.
Qed.

(** X21: [cleanup] returns normally exactly on a photo that has its small
    thumbnail path, whatever the disk holds: a removal that fails is logged,
    not raised.  It makes and changes no file, and removes none but the
    medium file and the two thumbnails.  Without that path, the message of
    the handler raises. *)
Theorem cleanup_frame (self : LycheePhoto.t) (w : world) :
  (forall s, LycheePhoto.thumbnailfullpath self = Some s ->
     exists w',
       LycheePhoto.cleanup self w = (Ok tt, w')
       /\ (forall q f, fs w' !! q = Some f -> fs w !! q = Some f)
       /\ (forall q,
             Some q <> LycheePhoto.medium_path self ->
             Some q <> LycheePhoto.thumbnailfullpath self ->
             Some q <> LycheePhoto.thumbnailx2fullpath self ->
             fs w' !! q = fs w !! q))
  /\ (LycheePhoto.thumbnailfullpath self = None ->
      exists w', LycheePhoto.cleanup self w = (Raise AttributeError, w')).
Proof.
  split.
  - intros s Hs.
    assert (Hdel : forall (p q : string) (v : world) (f : PIL.file),
              fs (removed p v) !! q = Some f -> fs v !! q = Some f).
    { intros p q v f H. cbn [removed fs] in H. now apply lookup_delete_Some in H. }
    destruct (LycheePhoto.medium_path self) as [m|] eqn:Hm.
    + destruct (LycheePhoto.thumbnailx2fullpath self) as [l|] eqn:Hl.
      * rewrite (cleanup_runs self m s l w Hm Hs Hl). cbv zeta.
        eexists. split; [reflexivity|]. rewrite Hs. split.
        -- intros q f.
           destruct (fs w !! m); [|auto].
           destruct (fs (removed m _) !! s); [|intros H; now apply Hdel in H].
           destruct (fs (removed s _) !! l);
             intros H; repeat (apply Hdel in H; cbn [logged fs] in H); exact H.
        -- intros q Nm Ns Nl.
           destruct (fs w !! m); [|reflexivity].
           destruct (fs (removed m _) !! s);
             [|cbn [removed logged fs]; rewrite lookup_delete_ne by congruence; reflexivity].
           destruct (fs (removed s _) !! l); cbn [removed logged fs];
             rewrite !lookup_delete_ne by congruence; reflexivity.
      * unfold LycheePhoto.cleanup, try_except. rewrite Hm, Hs, Hl. cbn [attr].
        unfold bind at 1, ret at 1. unfold bind at 1. rewrite run_os_remove.
        destruct (fs w !! m) as [fm|].
        -- unfold bind at 1, ret at 1. unfold bind at 1. rewrite run_os_remove.
           destruct (fs (removed m _) !! s) as [f0|].
           ++ unfold bind at 1, raise at 1. cbv iota beta.
              eexists. split; [reflexivity|]. split.
              ** intros q f H. cbn [logged fs] in H. apply Hdel in H.
                 cbn [logged fs] in H. now apply Hdel in H.
              ** intros q Nm Ns _. cbn [removed logged fs].
                 rewrite !lookup_delete_ne by congruence. reflexivity.
           ++ eexists. split; [reflexivity|]. split.
              ** intros q f H. cbn [logged fs] in H. now apply Hdel in H.
              ** intros q Nm _ _. cbn [removed logged fs].
                 rewrite !lookup_delete_ne by congruence. reflexivity.
        -- eexists. split; [reflexivity|]. split; [auto|reflexivity].
    + unfold LycheePhoto.cleanup, try_except. rewrite Hm, Hs. cbn [attr].
      eexists. split; [reflexivity|]. split; [auto|reflexivity].
  - intros Hs. unfold LycheePhoto.cleanup, try_except. rewrite Hs. cbn [attr].
    destruct (LycheePhoto.medium_path self) as [m|]; cbn [attr].
    + unfold bind at 1, ret at 1. unfold bind at 1. rewrite run_os_remove.
      destruct (fs w !! m); eexists; reflexivity.
    + eexists; reflexivity.
Qed.

(** X22: [cleanup] on a photo whose three paths name three different files
    that exist: the medium file, the small and the large thumbnail are
    removed, in this order, nothing is logged, and every other file stays.
    When the medium file does not exist, the first removal fails: the error
    is logged and both thumbnails stay on the disk. *)
Theorem cleanup_removals (self : LycheePhoto.t) (m s l : string) (w : world) :
  LycheePhoto.medium_path self = Some m ->
  LycheePhoto.thumbnailfullpath self = Some s ->
  LycheePhoto.thumbnailx2fullpath self = Some l ->
  m <> s -> m <> l -> s <> l ->
  (is_Some (fs w !! m) -> is_Some (fs w !! s) -> is_Some (fs w !! l) ->
   exists w',
     LycheePhoto.cleanup self w = (Ok tt, w')
     /\ trace w' = trace w ++ [Remove m; Remove s; Remove l]
     /\ fs w' = delete l (delete s (delete m (fs w)))
     /\ fs w' !! m = None /\ fs w' !! s = None /\ fs w' !! l = None)
  /\ (fs w !! m = None ->
      exists w',
        LycheePhoto.cleanup self w = (Ok tt, w')
        /\ trace w' = trace w ++ [Remove m; Log "error" ("Cannot delete thumbnail " +:+ s)]
        /\ fs w' = fs w).
Proof.
  intros Hm Hs Hl Nms Nml Nsl.
  pose proof (cleanup_runs self m s l w Hm Hs Hl) as Hrun. cbv zeta in Hrun.
  split.
  - intros [fm Em] [f_s Es] [fl El]. rewrite Em in Hrun.
    cbn [removed logged fs] in Hrun.
    rewrite (lookup_delete_ne _ m s Nms), Es in Hrun.
    rewrite (lookup_delete_ne _ s l Nsl), (lookup_delete_ne _ m l Nml), El in Hrun.
    eexists. split; [exact Hrun|]. cbn [removed logged fs trace].
    split; [now rewrite <- !app_assoc|]. split; [reflexivity|].
    split; [|split].
    + rewrite !lookup_delete_ne by congruence. apply lookup_delete_eq.
    + rewrite lookup_delete_ne by congruence. apply lookup_delete_eq.
    + apply lookup_delete_eq.
  - intros Em. rewrite Em in Hrun. eexists. split; [exact Hrun|].
    cbn [logged fs trace]. split; [now rewrite <- !app_assoc | reflexivity].
Qed.

Lemma cleanup_removals_witness :
  let q := Sample.photo Sample.src (Some (4000, 3000)) 1 "/www/big/a.jpg"
             (Some "/tmp/a") (Some "/tmp/b") (Some "/tmp/c") in
  let v := Sample.disk [(Sample.src, Sample.jpeg 4000 3000 None);
                        ("/tmp/a", Sample.jpeg 200 200 None);
                        ("/tmp/b", Sample.jpeg 400 400 None);
                        ("/tmp/c", Sample.jpeg 1920 1440 None)] in
  exists v',
    LycheePhoto.cleanup q v = (Ok tt, v')
    /\ trace v' = [Remove "/tmp/c"; Remove "/tmp/a"; Remove "/tmp/b"]
    /\ fs v' !! "/tmp/a" = None.
Proof.
  cbv zeta.
  destruct (cleanup_removals
              (Sample.photo Sample.src (Some (4000, 3000)) 1 "/www/big/a.jpg"
                 (Some "/tmp/a") (Some "/tmp/b") (Some "/tmp/c"))
              "/tmp/c" "/tmp/a" "/tmp/b"
              (Sample.disk [(Sample.src, Sample.jpeg 4000 3000 None);
                            ("/tmp/a", Sample.jpeg 200 200 None);
                            ("/tmp/b", Sample.jpeg 400 400 None);
                            ("/tmp/c", Sample.jpeg 1920 1440 None)])
              eq_refl eq_refl eq_refl) as [Hall _]; [discriminate..|].
  destruct Hall as (v' & Hrun & Htrace & _ & _ & Hgone & _);
    [vm_compute; eauto..|].
  exists v'. repeat split; assumption.
Defined.

(** X23: [cleanup] after a build.  It never raises.  When the source is
    larger than the medium size and no big size is configured, it undoes the
    build: the disk is as the build found it.  When the source is not
    larger, the medium path is the source path and the source itself is
    removed.  The file of the big resize, when one is configured, is never
    removed. *)
Theorem build_then_cleanup {R : Runtime} (conf : Conf) (full_path : string)
    (album_id : Z) (w w1 : world) (p : LycheePhoto.t) (fmt : string) (img : PIL.image) :
  LycheePhoto.__init__ conf full_path album_id w = (Ok p, w1) ->
  fs w !! full_path = Some (PIL.Encoded fmt img) ->
  let longer := Z.max (fst (PIL.size img)) (snd (PIL.size img)) in
  exists w2,
    LycheePhoto.cleanup p w1 = (Ok tt, w2)
    /\ (medium_size conf < longer -> big_size conf = None -> fs w2 = fs w)
    /\ (longer <= medium_size conf -> fs w2 !! full_path = None)
    /\ (forall size, big_size conf = Some size ->
          exists t, fs w !! t = None /\ is_Some (fs w2 !! t)).
Proof.
  intros Hrun Hf longer.
  destruct (init_ok conf _ _ _ _ _ Hrun) as (fmt' & img' & self' & de & H).
  cbv zeta in H. destruct H as (Hf' & _ & _ & Hp & ->).
  rewrite Hf in Hf'. injection Hf' as <- <-.
  set (d := derive conf full_path img (fst (PIL.size img)) (snd (PIL.size img)) (fs w))
    in *.
  set (w1 := after (Derived.events d) (Derived.files4 d) (logged (Open full_path) (at_try full_path w))).
  assert (Hpm : LycheePhoto.medium_path p = Some (Derived.medium d)) by (rewrite Hp; reflexivity).
  assert (Hps : LycheePhoto.thumbnailfullpath p = Some (Derived.small d))
    by (rewrite Hp; reflexivity).
  assert (Hpl : LycheePhoto.thumbnailx2fullpath p = Some (Derived.large d))
    by (rewrite Hp; reflexivity).
  clear Hp.
  destruct (derive_files conf full_path img (fst (PIL.size img)) (snd (PIL.size img)) (fs w))
    as ((N1 & N2 & N3) & (D12 & D13 & D23) & Hkeep & F1 & F2 & F3).
  fold d in N1, N2, N3, D12, D13, D23, Hkeep, F1, F2, F3.
  assert (Ns : Derived.small d <> full_path) by (intros E; rewrite E, Hf in N1; discriminate).
  assert (Nl : Derived.large d <> full_path) by (intros E; rewrite E, Hf in N2; discriminate).
  assert (Hmed : Derived.medium d
                 = if medium_size conf <? longer then Derived.medium_tmp d else full_path)
    by reflexivity.
  assert (Hm : exists fm, fs w1 !! Derived.medium d = Some fm).
  { rewrite Hmed. destruct (medium_size conf <? longer); eauto. }
  destruct Hm as [fm Hm].
  assert (Nms : Derived.medium d <> Derived.small d /\ Derived.medium d <> Derived.large d).
  { rewrite Hmed. destruct (medium_size conf <? longer); split; congruence. }
  destruct Nms as [Nms Nml].
  pose proof (cleanup_runs p (Derived.medium d) (Derived.small d) (Derived.large d) w1 Hpm Hps Hpl) as Hclean.
  cbv zeta in Hclean. rewrite Hm in Hclean.
  cbn [removed logged fs] in Hclean.
  rewrite (lookup_delete_ne _ (Derived.medium d) (Derived.small d) Nms) in Hclean.
  change (fs w1) with (Derived.files4 d) in Hclean. rewrite F1 in Hclean.
  rewrite (lookup_delete_ne _ (Derived.small d) (Derived.large d) D12) in Hclean.
  rewrite (lookup_delete_ne _ (Derived.medium d) (Derived.large d) Nml) in Hclean.
  rewrite F2 in Hclean.
  eexists. split; [exact Hclean|]. cbn [removed logged fs].
  change (fs w1) with (Derived.files4 d).
  destruct (derive_undone conf full_path img (fst (PIL.size img)) (snd (PIL.size img))
              (fs w)) as [Hundo Hbig].
  fold d in Hundo, Hbig.
  split; [|split].
  - intros Hlt Hnone. apply Z.ltb_lt in Hlt. rewrite Hlt in Hmed.
    rewrite Hmed, Hundo, Hnone. reflexivity.
  - intros Hle. apply Z.ltb_ge in Hle. rewrite Hle in Hmed. rewrite Hmed.
    rewrite !lookup_delete_ne by congruence. apply lookup_delete_eq.
  - intros size Hsize. exists (mkstemp (Derived.files3 d)). split; [exact Hbig|].
    destruct (derive_big conf full_path img (fst (PIL.size img)) (snd (PIL.size img))
                (fs w) size Hsize) as (Hb4 & _ & Nbs & Nbl & Nbm).
    fold d in Hb4, Nbs, Nbl, Nbm.
    assert (Nb : Derived.medium d <> mkstemp (Derived.files3 d)).
    { rewrite Hmed. destruct (medium_size conf <? longer); [congruence|].
      intros E. rewrite <- E, Hf in Hbig. discriminate. }
    rewrite !lookup_delete_ne by congruence. rewrite Hb4. eauto.
Qed.

Lemma build_then_cleanup_witness :
  exists p w1 w2,
    LycheePhoto.__init__ Sample.conf Sample.src 7
      (Sample.disk [(Sample.src, Sample.jpeg 4000 3000 None)]) = (Ok p, w1)
    /\ LycheePhoto.cleanup p w1 = (Ok tt, w2)
    /\ fs w2 = fs (Sample.disk [(Sample.src, Sample.jpeg 4000 3000 None)]).
Proof.
  destruct (LycheePhoto.__init__ Sample.conf Sample.src 7
              (Sample.disk [(Sample.src, Sample.jpeg 4000 3000 None)]))
    as [[p|e] w1] eqn:Hrun; [|vm_compute in Hrun; discriminate Hrun].
  destruct (build_then_cleanup Sample.conf Sample.src 7 _ w1 p "JPEG" _ Hrun eq_refl)
    as (w2 & Hclean & Hundo & _).
  exists p, w1, w2. split; [reflexivity|]. split; [exact Hclean|].
  apply Hundo; reflexivity.
Defined.


(** ** Rotation *)

Section Saving.
Context {R : Runtime}.

Lemma run_Image_save_ext (img : PIL.image) (p fmt : string) (q : Z) (w : world) :
  EXTENSION (Py.lower (Py.splitext_ext p)) = Some fmt ->
  Image_save img p None q w
  = (Ok tt, stored p (PIL.encode fmt q img) (logged (Save p) w)).
Proof. intros H. unfold Image_save. rewrite H. reflexivity. Qed.

End Saving.

(** X24: what [rotatephoto] writes.  On a photo whose destination file and
    two thumbnails are three different image files with known extensions,
    the destination and the large thumbnail are each replaced by their own
    picture turned, on a canvas of the same size; the small thumbnail is
    replaced by the turned picture of the large thumbnail; no other file
    changes. *)
Theorem rotatephoto_writes {R : Runtime} (self photo : LycheePhoto.t) (rotation : Z)
    (w : world) (l s : string) (fd0 fl0 fs0 fd fl fs_ : string)
    (imgd imgl imgs : PIL.image) :
  let d := LycheePhoto.destfullpath photo in
  LycheePhoto.thumbnailx2fullpath photo = Some l ->
  LycheePhoto.thumbnailfullpath photo = Some s ->
  d <> l -> d <> s -> l <> s ->
  fs w !! d = Some (PIL.Encoded fd0 imgd) ->
  fs w !! l = Some (PIL.Encoded fl0 imgl) ->
  fs w !! s = Some (PIL.Encoded fs0 imgs) ->
  EXTENSION (Py.lower (Py.splitext_ext d)) = Some fd ->
  EXTENSION (Py.lower (Py.splitext_ext l)) = Some fl ->
  EXTENSION (Py.lower (Py.splitext_ext s)) = Some fs_ ->
  exists w',
    LycheePhoto.rotatephoto self photo rotation w = (Ok tt, w')
    /\ trace w' = trace w ++ [Open d; Save d; Open l; Save l; Open s; Save s]
    /\ fs w' !! d = Some (PIL.encode fd 99 (PIL.rotate rotation imgd))
    /\ fs w' !! l = Some (PIL.encode fl 99 (PIL.rotate rotation imgl))
    /\ fs w' !! s = Some (PIL.encode fs_ 99 (PIL.rotate rotation imgl))
    /\ PIL.size (PIL.rotate rotation imgd) = PIL.size imgd
    /\ (forall q, q <> d -> q <> l -> q <> s -> fs w' !! q = fs w !! q).
Proof.
  intros d Hl Hs Ndl Nds Nls Fd Fl Fs Ed El Es.
  unfold LycheePhoto.rotatephoto. fold d. rewrite Hl, Hs. cbn [attr].
  rewrite (bind_ok _ _ _ _ _ (run_Image_open d fd0 imgd w Fd)).
  rewrite (bind_ok _ _ _ _ _ (run_Image_save_ext _ d fd 99 _ Ed)).
  set (w1 := stored d _ _).
  unfold bind at 1, ret at 1.
  assert (Fl1 : fs w1 !! l = Some (PIL.Encoded fl0 imgl)).
  { unfold w1, stored, logged. cbn [fs]. now rewrite lookup_insert_ne. }
  rewrite (bind_ok _ _ _ _ _ (run_Image_open l fl0 imgl w1 Fl1)).
  unfold bind at 1, ret at 1.
  rewrite (bind_ok _ _ _ _ _ (run_Image_save_ext _ l fl 99 _ El)).
  set (w2 := stored l _ _).
  unfold bind at 1, ret at 1.
  assert (Fs2 : fs w2 !! s = Some (PIL.Encoded fs0 imgs)).
  { unfold w2, w1, stored, logged. cbn [fs]. now rewrite !lookup_insert_ne. }
  rewrite (bind_ok _ _ _ _ _ (run_Image_open s fs0 imgs w2 Fs2)).
  unfold bind at 1, ret at 1.
  rewrite (run_Image_save_ext _ s fs_ 99 _ Es).
  eexists. split; [reflexivity|].
  unfold w2, w1, stored, logged. cbn [fs trace].
  split; [now rewrite <- !app_assoc|].
  split; [rewrite !lookup_insert_ne by congruence; apply lookup_insert_eq|].
  split; [rewrite lookup_insert_ne by congruence; apply lookup_insert_eq|].
  split; [apply lookup_insert_eq|].
  split; [reflexivity|].
  intros q Nd Nl Ns. now rewrite !lookup_insert_ne by congruence.
Qed.

Lemma rotatephoto_writes_witness :
  let p := Sample.photo Sample.src (Some (4000, 3000)) 8 "/www/big/a.jpg"
             (Some "/www/thumb/a.jpg") (Some "/www/thumb/a@2x.jpeg") (Some Sample.src) in
  let small := {| PIL.size := (200, 200); PIL._getexif := Some None; PIL.px := PIL.Scene 1 |} in
  let large := {| PIL.size := (400, 400); PIL._getexif := Some None; PIL.px := PIL.Scene 2 |} in
  let w := Sample.disk [("/www/big/a.jpg", Sample.jpeg 4000 3000 None);
                        ("/www/thumb/a.jpg", PIL.Encoded "JPEG" small);
                        ("/www/thumb/a@2x.jpeg", PIL.Encoded "JPEG" large)] in
  exists w',
    LycheePhoto.rotatephoto p p 90 w = (Ok tt, w')
    /\ fs w' !! "/www/thumb/a@2x.jpeg" = Some (PIL.encode "JPEG" 99 (PIL.rotate 90 large))
    /\ fs w' !! "/www/thumb/a.jpg" = Some (PIL.encode "JPEG" 99 (PIL.rotate 90 large)).
Proof.
  cbv zeta.
  destruct (rotatephoto_writes
              (Sample.photo Sample.src (Some (4000, 3000)) 8 "/www/big/a.jpg"
                 (Some "/www/thumb/a.jpg") (Some "/www/thumb/a@2x.jpeg") (Some Sample.src))
              (Sample.photo Sample.src (Some (4000, 3000)) 8 "/www/big/a.jpg"
                 (Some "/www/thumb/a.jpg") (Some "/www/thumb/a@2x.jpeg") (Some Sample.src))
              90
              (Sample.disk [("/www/big/a.jpg", Sample.jpeg 4000 3000 None);
                            ("/www/thumb/a.jpg",
                             PIL.Encoded "JPEG" {| PIL.size := (200, 200);
                                                   PIL._getexif := Some None;
                                                   PIL.px := PIL.Scene 1 |});
                            ("/www/thumb/a@2x.jpeg",
                             PIL.Encoded "JPEG" {| PIL.size := (400, 400);
                                                   PIL._getexif := Some None;
                                                   PIL.px := PIL.Scene 2 |})])
              "/www/thumb/a@2x.jpeg" "/www/thumb/a.jpg" "JPEG" "JPEG" "JPEG"
              "JPEG" "JPEG" "JPEG"
              {| PIL.size := (4000, 3000); PIL._getexif := Some None; PIL.px := PIL.Scene 0 |}
              {| PIL.size := (400, 400); PIL._getexif := Some None; PIL.px := PIL.Scene 2 |}
              {| PIL.size := (200, 200); PIL._getexif := Some None; PIL.px := PIL.Scene 1 |}
              eq_refl eq_refl)
    as (w' & Hrun & _ & _ & Hl & Hs & _);
    [discriminate.. | reflexivity | reflexivity | reflexivity
     | reflexivity | reflexivity | reflexivity |].
  exists w'. repeat split; assumption.
Defined.

(** X25: [adjustRotation] acts on two values of the orientation only: 6 turns
    the files by -90 degrees and 8 by 90; for every other value, 3 (upside
    down) and the mirrored ones among them, it does nothing at all. *)
Theorem adjustRotation_dispatch {R : Runtime} (self photo : LycheePhoto.t) (w : world) :
  LycheePhoto.adjustRotation self photo w
  = match ExifData.orientation (LycheePhoto.exif photo) with
    | PIL.VInt 6 => LycheePhoto.rotatephoto self photo (-90) w
    | PIL.VInt 8 => LycheePhoto.rotatephoto self photo 90 w
    | _ => (Ok tt, w)
    end.
Proof.
  unfold LycheePhoto.adjustRotation.
  destruct (ExifData.orientation (LycheePhoto.exif photo)) as [n|s|a b];
    [|reflexivity..].
  unfold LycheePhoto.eq_int.
  destruct (Z.eqb_spec n 6) as [->|N6].
  - cbn. unfold bind. now destruct (LycheePhoto.rotatephoto self photo (-90) w) as [[[]|e] w'].
  - destruct (Z.eqb_spec n 8) as [->|N8]; [reflexivity|].
    assert (E : forall (a b c : result unit * world),
              match n with 6 => a | 8 => b | _ => c end = c).
    { intros a b c. destruct n as [|p|p]; try reflexivity.
      do 4 (try (destruct p as [p|p|]; try reflexivity; try lia)). }
    rewrite E. now destruct (negb ((n =? 0) || (n =? 1))).
Qed.

Section Unsaved.
Context {R : Runtime}.


End Unsaved.



(** ** Printing *)

(** X27: [str] of a photo never gives a text.  On a photo that has no
    [title], and [__init__] gives it none, it raises [AttributeError]; and
    were every attribute there, the line of the date would raise
    [TypeError], since the date is a [datetime] object and not a string. *)
Theorem str_never_returns (str_datetime : datetime -> string)
    (self : LycheePhoto.t) (more : LycheePhoto.outside) (w : world) :
  (exists e, LycheePhoto.__str__ str_datetime self more w = (Raise e, w)
             /\ (e = AttributeError \/ e = TypeError))
  /\ (LycheePhoto.title more = None ->
      LycheePhoto.__str__ str_datetime self more w = (Raise AttributeError, w))
  /\ (is_Some (LycheePhoto.thumbnailfullpath self) ->
      is_Some (LycheePhoto.thumbnailx2fullpath self) ->
      is_Some (LycheePhoto.title more) -> is_Some (LycheePhoto.public more) ->
      is_Some (LycheePhoto.width self) -> is_Some (LycheePhoto.height self) ->
      is_Some (LycheePhoto.thumbUrl more) ->
      LycheePhoto.__str__ str_datetime self more w = (Raise TypeError, w)).
Proof.
  unfold LycheePhoto.__str__.
  destruct (LycheePhoto.thumbnailfullpath self) as [a|],
           (LycheePhoto.thumbnailx2fullpath self) as [b|],
           (LycheePhoto.title more) as [c|],
           (LycheePhoto.public more) as [d|],
           (LycheePhoto.width self) as [x|],
           (LycheePhoto.height self) as [y|],
           (LycheePhoto.thumbUrl more) as [f|];
    cbn [attr]; unfold bind, ret, raise, LycheePhoto.add_str_datetime;
    (split; [eexists; split; [reflexivity | auto]|]);
    (split; [intros; first [reflexivity | discriminate]|]);
    intros [? ?] [? ?] [? ?] [? ?] [? ?] [? ?] [? ?]; first [reflexivity | discriminate].
Qed.
